(** * Admission control and streaming gateway of docker/server.py

    A shallow embedding of the gRPC gateway that fronts the vLLM engine:
    the [admission_guard] context manager, the two RPC handlers
    [Generate] and [StreamGenerate], and the background task
    [monitor_vllm_internal_queue].

    The handlers are coroutines.  Each one is embedded as a frame (its
    local variables and the place it is suspended at) together with a
    function that resumes the frame with what the awaited operation
    delivered: the semaphore granting the slot, the engine yielding a
    snapshot, the engine sequence ending, the engine raising, or the
    caller's cancellation being thrown in.  Everything a handler runs
    between two suspension points is one atomic step, as it is on the
    asyncio event loop.  The process-wide objects of the module (the
    semaphore, the queue and the Prometheus series) form the record
    [Server] that every step reads and updates.

    Conventions: Python ints are [Z]; wall-clock readings and the values
    given to Prometheus are rationals ([Q]), so float rounding is not
    part of the model; [str] is [string].

    What is taken from the libraries the module imports:
    - [asyncio.Semaphore]: [acquire()] completes only while the counter
      is positive and takes one unit, [release()] adds one unit; which
      waiter is served first is left open, so every wake-up order is
      covered.
    - [asyncio.Queue()] is unbounded: [put] never suspends.
    - [contextlib.asynccontextmanager]: leaving the [async with] body,
      normally or by an exception, resumes the generator at its [yield];
      an exception raised while [__aenter__] is suspended leaves through
      the generator without [__aexit__] being called.
    - A caller's cancellation reaches a handler as [CancelledError]
      thrown at the point where the handler is suspended.
    - What the engine raises is an instance of [Exception]; building
      [SamplingParams] and the request id does not raise. *)

From Stdlib Require Import ZArith QArith Lqa Lia Bool.
From stdpp Require Import base list strings sorting.

Close Scope Q_scope.
Open Scope Z_scope.

#[local] Arguments String.append !_ _ /.

(** ** Wire messages and engine values *)

(** llm_pb2.GenerateRequest *)
Record GenerateRequest := {
  prompt : string;
  max_new_tokens : Z;
  temperature : Q
}.

(** llm_pb2.GenerateReply *)
Record GenerateReply := { reply_text : string }.

(** llm_pb2.Token *)
Record Token := { tok_text : string; is_last : bool }.

(** vllm.SamplingParams, as far as the handlers fill it in *)
Record SamplingParams := { max_tokens : Z; sp_temperature : Q }.

(** One completion inside a RequestOutput; [text] may be None. *)
Record CompletionOutput := { text : option string }.

(** What [engine.generate] yields: a cumulative snapshot. *)
Record RequestOutput := { outputs : list CompletionOutput }.

(** An instance of a subclass of Python's [Exception]:
    [type(e).__name__] and [str(e)]. *)
Record Exception := { exc_type : string; exc_str : string }.

Inductive StatusCode := OK | CANCELLED | UNKNOWN | INTERNAL | UNAVAILABLE.

(** How a handler invocation ended. *)
Inductive Outcome (A : Type) :=
| Returned (a : A)                                   (* ran to its end *)
| ReturnedOnCancel                                   (* except CancelledError: return *)
| Aborted (code : StatusCode) (details : string).    (* context.abort(...) *)
Arguments Returned {A} a.
Arguments ReturnedOnCancel {A}.
Arguments Aborted {A} code details.

(** ** Python helpers *)

(** [s[n:]] *)
Fixpoint py_slice_from (n : nat) (s : string) : string :=
  match n, s with
  | O, _ => s
  | S n', EmptyString => EmptyString
  | S n', String _ s' => py_slice_from n' s'
  end.

(** truthiness of a str *)
Definition str_truthy (s : string) : bool :=
  match s with EmptyString => false | String _ _ => true end.

(** [x or ""] for an optional str *)
Definition or_empty (x : option string) : string :=
  match x with
  | Some s => s
  | None => EmptyString
  end.

(** ** Process-wide state (module globals, lines 27-69) *)

Record Server := {
  admission_sem : Z;          (* asyncio.Semaphore: its counter *)
  admission_queue : list Z;   (* asyncio.Queue: its items, oldest first *)
  QUEUE_LENGTH : Z;
  INFLIGHT : Z;
  REQ_TOTAL : Z;
  REQ_FAILED : Z;
  TTFT_HIST : list Q;         (* the observed values, oldest first *)
  MAX_INFLIGHT_GAUGE : Z
}.

Definition set_sem (v : Z) (s : Server) : Server :=
  {| admission_sem := v; admission_queue := admission_queue s;
     QUEUE_LENGTH := QUEUE_LENGTH s; INFLIGHT := INFLIGHT s;
     REQ_TOTAL := REQ_TOTAL s; REQ_FAILED := REQ_FAILED s;
     TTFT_HIST := TTFT_HIST s; MAX_INFLIGHT_GAUGE := MAX_INFLIGHT_GAUGE s |}.

Definition set_queue (q : list Z) (s : Server) : Server :=
  {| admission_sem := admission_sem s; admission_queue := q;
     QUEUE_LENGTH := QUEUE_LENGTH s; INFLIGHT := INFLIGHT s;
     REQ_TOTAL := REQ_TOTAL s; REQ_FAILED := REQ_FAILED s;
     TTFT_HIST := TTFT_HIST s; MAX_INFLIGHT_GAUGE := MAX_INFLIGHT_GAUGE s |}.

Definition set_QUEUE_LENGTH (v : Z) (s : Server) : Server :=
  {| admission_sem := admission_sem s; admission_queue := admission_queue s;
     QUEUE_LENGTH := v; INFLIGHT := INFLIGHT s;
     REQ_TOTAL := REQ_TOTAL s; REQ_FAILED := REQ_FAILED s;
     TTFT_HIST := TTFT_HIST s; MAX_INFLIGHT_GAUGE := MAX_INFLIGHT_GAUGE s |}.

Definition set_INFLIGHT (v : Z) (s : Server) : Server :=
  {| admission_sem := admission_sem s; admission_queue := admission_queue s;
     QUEUE_LENGTH := QUEUE_LENGTH s; INFLIGHT := v;
     REQ_TOTAL := REQ_TOTAL s; REQ_FAILED := REQ_FAILED s;
     TTFT_HIST := TTFT_HIST s; MAX_INFLIGHT_GAUGE := MAX_INFLIGHT_GAUGE s |}.

Definition inc_REQ_TOTAL (s : Server) : Server :=
  {| admission_sem := admission_sem s; admission_queue := admission_queue s;
     QUEUE_LENGTH := QUEUE_LENGTH s; INFLIGHT := INFLIGHT s;
     REQ_TOTAL := REQ_TOTAL s + 1; REQ_FAILED := REQ_FAILED s;
     TTFT_HIST := TTFT_HIST s; MAX_INFLIGHT_GAUGE := MAX_INFLIGHT_GAUGE s |}.

Definition inc_REQ_FAILED (s : Server) : Server :=
  {| admission_sem := admission_sem s; admission_queue := admission_queue s;
     QUEUE_LENGTH := QUEUE_LENGTH s; INFLIGHT := INFLIGHT s;
     REQ_TOTAL := REQ_TOTAL s; REQ_FAILED := REQ_FAILED s + 1;
     TTFT_HIST := TTFT_HIST s; MAX_INFLIGHT_GAUGE := MAX_INFLIGHT_GAUGE s |}.

Definition observe_TTFT (v : Q) (s : Server) : Server :=
  {| admission_sem := admission_sem s; admission_queue := admission_queue s;
     QUEUE_LENGTH := QUEUE_LENGTH s; INFLIGHT := INFLIGHT s;
     REQ_TOTAL := REQ_TOTAL s; REQ_FAILED := REQ_FAILED s;
     TTFT_HIST := TTFT_HIST s ++ [v]; MAX_INFLIGHT_GAUGE := MAX_INFLIGHT_GAUGE s |}.

(** [admission_queue.qsize()] *)
Definition qsize (s : Server) : Z := Z.of_nat (length (admission_queue s)).

(** The module globals once the module is loaded and the service is
    constructed (lines 36-69 and 123). *)
Definition fresh_server (MAX_INFLIGHT : Z) : Server :=
  {| admission_sem := MAX_INFLIGHT; admission_queue := [];
     QUEUE_LENGTH := 0; INFLIGHT := 0;
     REQ_TOTAL := 0; REQ_FAILED := 0;
     TTFT_HIST := []; MAX_INFLIGHT_GAUGE := MAX_INFLIGHT |}.

(** [asyncio.Semaphore(value)] raises ValueError below zero, so the
    module does not even load. *)
Definition boot (MAX_INFLIGHT : Z) : option Server :=
  if MAX_INFLIGHT <? 0 then None else Some (fresh_server MAX_INFLIGHT).

(** ** admission_guard (lines 72-93) *)

(** Where the generator behind the context manager stands. *)
Inductive Guard :=
| GAwaitSem    (* suspended in [await admission_sem.acquire()], line 78 *)
| GYielded     (* suspended at [yield], line 89: the body of the with runs *)
| GClosed.     (* the generator has finished *)

(** Lines 75-76: [put(1)] on the unbounded queue, then publish its size. *)
Definition guard_enqueue (s : Server) : Server :=
  let s1 := set_queue (admission_queue s ++ [1]) s in
  set_QUEUE_LENGTH (qsize s1) s1.

(** Line 78 completes only when the semaphore has a free unit, and
    takes it. [None]: the caller stays suspended. *)
Definition sem_acquire (s : Server) : option Server :=
  if 0 <? admission_sem s then Some (set_sem (admission_sem s - 1) s) else None.

(** Line 93. *)
Definition sem_release (s : Server) : Server :=
  set_sem (admission_sem s + 1) s.

(** Lines 80-87: dequeue one marker if there is one, publish the size,
    count the request as in flight. *)
Definition guard_admit (s : Server) : Server :=
  let s1 := match admission_queue s with
            | _ :: rest => set_queue rest s      (* get_nowait(); task_done() *)
            | [] => s                            (* except QueueEmpty: pass *)
            end in
  let s2 := set_QUEUE_LENGTH (qsize s1) s1 in
  set_INFLIGHT (INFLIGHT s2 + 1) s2.

(** Lines 90-93: the two finally blocks. *)
Definition guard_finally (s : Server) : Server :=
  sem_release (set_INFLIGHT (INFLIGHT s - 1) s).

(** [__aenter__] up to the first suspension. *)
Definition guard_aenter (s : Server) : Guard * Server :=
  (GAwaitSem, guard_enqueue s).

(** The semaphore wakes the generator: it runs to its [yield]. *)
Definition guard_granted (g : Guard) (s : Server) : option (Guard * Server) :=
  match g with
  | GAwaitSem =>
      match sem_acquire s with
      | Some s1 => Some (GYielded, guard_admit s1)
      | None => None
      end
  | _ => None
  end.

(** Leaving the generator from where it is suspended: [__aexit__] after
    the body (normally or with an exception), or an exception thrown in
    while it waits for the semaphore. Line 78 is outside both [try]
    blocks, so nothing is undone there; a finished generator has nothing
    left to run. *)
Definition guard_close (g : Guard) (s : Server) : Guard * Server :=
  match g with
  | GYielded => (GClosed, guard_finally s)
  | GAwaitSem => (GClosed, s)
  | GClosed => (GClosed, s)
  end.

(** ** What resumes a suspended handler *)

Inductive Resume :=
| SemAcquired                          (* admission_sem.acquire() returned *)
| EngineYields (out : RequestOutput)   (* the async for got its next item *)
| EngineExhausted                      (* the engine sequence ended *)
| EngineRaises (e : Exception)         (* the engine raised *)
| CancelledError.                      (* the caller went away *)

(** Lines 132-135 and 168-171. *)
Definition make_params (request : GenerateRequest) : SamplingParams :=
  {| max_tokens := if max_new_tokens request =? 0 then 50 else max_new_tokens request;
     sp_temperature := if Qlt_le_dec 0 (temperature request)
                       then temperature request else (8 # 10)%Q |}.

(** Lines 160 and 199. *)
Definition abort_details (e : Exception) : string :=
  "vLLM error: " +:+ exc_type e +:+ ": " +:+ exc_str e.

(** [(time.time() - t0) * 1000.0] *)
Definition elapsed_ms (now t0 : Q) : Q := ((now - t0) * 1000)%Q.

(** ** LLMService.Generate (lines 129-160) *)

Record GenFrame := {
  g_request : GenerateRequest;
  g_params : SamplingParams;
  g_t0 : Q;
  g_first_token : bool;
  g_full_text : string;
  g_guard : Guard;
  g_result : option (Outcome GenerateReply)
}.

(** Lines 130-142, up to the suspension inside [admission_guard()]. *)
Definition Generate_call (now : Q) (request : GenerateRequest) (s : Server)
  : Server * GenFrame :=
  let s1 := inc_REQ_TOTAL s in
  let '(g, s2) := guard_aenter s1 in
  (s2, {| g_request := request; g_params := make_params request;
          g_t0 := now; g_first_token := false; g_full_text := EmptyString;
          g_guard := g; g_result := None |}).

(** Lines 144-152: the body of the [async for]. *)
Definition Generate_body (now : Q) (out : RequestOutput) (s : Server) (f : GenFrame)
  : Server * GenFrame :=
  match outputs out with
  | [] => (s, f)                                           (* continue *)
  | c :: _ =>
      let full_text := or_empty (text c) in
      if negb (g_first_token f) && str_truthy full_text
      then (observe_TTFT (elapsed_ms now (g_t0 f)) s,
            {| g_request := g_request f; g_params := g_params f; g_t0 := g_t0 f;
               g_first_token := true; g_full_text := full_text;
               g_guard := g_guard f; g_result := g_result f |})
      else (s,
            {| g_request := g_request f; g_params := g_params f; g_t0 := g_t0 f;
               g_first_token := g_first_token f; g_full_text := full_text;
               g_guard := g_guard f; g_result := g_result f |})
  end.

(** The handler leaves: its guard and its result are settled. *)
Definition Generate_finish (g : Guard) (res : Outcome GenerateReply) (f : GenFrame)
  : GenFrame :=
  {| g_request := g_request f; g_params := g_params f; g_t0 := g_t0 f;
     g_first_token := g_first_token f; g_full_text := g_full_text f;
     g_guard := g; g_result := Some res |}.

Definition Generate_resume (now : Q) (r : Resume) (s : Server) (f : GenFrame)
  : option (Server * GenFrame) :=
  match g_result f with
  | Some _ => None
  | None =>
      match g_guard f, r with
      | GAwaitSem, SemAcquired =>
          match guard_granted GAwaitSem s with
          | Some (g, s1) =>
              Some (s1, {| g_request := g_request f; g_params := g_params f;
                           g_t0 := g_t0 f; g_first_token := g_first_token f;
                           g_full_text := g_full_text f;
                           g_guard := g; g_result := None |})
          | None => None
          end
      | GYielded, EngineYields out => Some (Generate_body now out s f)
      | GYielded, EngineExhausted =>
          let '(g, s1) := guard_close GYielded s in
          Some (s1, Generate_finish g (Returned {| reply_text := g_full_text f |}) f)
      | GYielded, EngineRaises e =>
          let '(g, s1) := guard_close GYielded s in
          Some (inc_REQ_FAILED s1,
                Generate_finish g (Aborted INTERNAL (abort_details e)) f)
      | GAwaitSem, CancelledError =>
          let '(g, s1) := guard_close GAwaitSem s in
          Some (s1, Generate_finish g ReturnedOnCancel f)
      | GYielded, CancelledError =>
          let '(g, s1) := guard_close GYielded s in
          Some (s1, Generate_finish g ReturnedOnCancel f)
      | _, _ => None
      end
  end.

(** ** LLMService.StreamGenerate (lines 165-199) *)

Record StreamFrame := {
  s_request : GenerateRequest;
  s_params : SamplingParams;
  s_last_len : nat;
  s_t0 : Q;
  s_first_token_sent : bool;
  s_sent : list Token;          (* what the generator has yielded, in order *)
  s_guard : Guard;
  s_result : option (Outcome unit)
}.

(** Lines 166-178, up to the suspension inside [admission_guard()]. *)
Definition StreamGenerate_call (now : Q) (request : GenerateRequest) (s : Server)
  : Server * StreamFrame :=
  let s1 := inc_REQ_TOTAL s in
  let '(g, s2) := guard_aenter s1 in
  (s2, {| s_request := request; s_params := make_params request;
          s_last_len := 0%nat; s_t0 := now; s_first_token_sent := false;
          s_sent := []; s_guard := g; s_result := None |}).

(** Lines 180-191: the body of the [async for]. *)
Definition StreamGenerate_body (now : Q) (out : RequestOutput) (s : Server)
                               (f : StreamFrame) : Server * StreamFrame :=
  match outputs out with
  | [] => (s, f)                                           (* continue *)
  | c :: _ =>
      let full_text := or_empty (text c) in
      if (s_last_len f <? String.length full_text)%nat then
        let s1 := if s_first_token_sent f then s
                  else observe_TTFT (elapsed_ms now (s_t0 f)) s in
        let chunk := py_slice_from (s_last_len f) full_text in
        (s1, {| s_request := s_request f; s_params := s_params f;
                s_last_len := String.length full_text; s_t0 := s_t0 f;
                s_first_token_sent := true;
                s_sent := s_sent f ++ [{| tok_text := chunk; is_last := false |}];
                s_guard := s_guard f; s_result := s_result f |})
      else (s, f)
  end.

Definition StreamGenerate_finish (g : Guard) (sent : list Token) (res : Outcome unit)
                                 (f : StreamFrame) : StreamFrame :=
  {| s_request := s_request f; s_params := s_params f;
     s_last_len := s_last_len f; s_t0 := s_t0 f;
     s_first_token_sent := s_first_token_sent f;
     s_sent := sent; s_guard := g; s_result := Some res |}.

Definition StreamGenerate_resume (now : Q) (r : Resume) (s : Server) (f : StreamFrame)
  : option (Server * StreamFrame) :=
  match s_result f with
  | Some _ => None
  | None =>
      match s_guard f, r with
      | GAwaitSem, SemAcquired =>
          match guard_granted GAwaitSem s with
          | Some (g, s1) =>
              Some (s1, {| s_request := s_request f; s_params := s_params f;
                           s_last_len := s_last_len f; s_t0 := s_t0 f;
                           s_first_token_sent := s_first_token_sent f;
                           s_sent := s_sent f; s_guard := g; s_result := None |})
          | None => None
          end
      | GYielded, EngineYields out => Some (StreamGenerate_body now out s f)
      | GYielded, EngineExhausted =>
          let '(g, s1) := guard_close GYielded s in
          (* line 193, after the with block *)
          Some (s1, StreamGenerate_finish g
                      (s_sent f ++ [{| tok_text := EmptyString; is_last := true |}])
                      (Returned tt) f)
      | GYielded, EngineRaises e =>
          let '(g, s1) := guard_close GYielded s in
          Some (inc_REQ_FAILED s1,
                StreamGenerate_finish g (s_sent f)
                  (Aborted INTERNAL (abort_details e)) f)
      | GAwaitSem, CancelledError =>
          let '(g, s1) := guard_close GAwaitSem s in
          Some (s1, StreamGenerate_finish g (s_sent f) ReturnedOnCancel f)
      | GYielded, CancelledError =>
          let '(g, s1) := guard_close GYielded s in
          Some (s1, StreamGenerate_finish g (s_sent f) ReturnedOnCancel f)
      | _, _ => None
      end
  end.

(** ** One call followed on its own *)

(** One handler invocation followed on its own: the frame is resumed
    with each delivery in turn, at the clock reading that comes with it. *)
Fixpoint Generate_session (rs : list (Q * Resume)) (s : Server) (f : GenFrame)
  : option (Server * GenFrame) :=
  match rs with
  | [] => Some (s, f)
  | (now, r) :: rs' =>
      match Generate_resume now r s f with
      | Some (s1, f1) => Generate_session rs' s1 f1
      | None => None
      end
  end.

Fixpoint StreamGenerate_session (rs : list (Q * Resume)) (s : Server) (f : StreamFrame)
  : option (Server * StreamFrame) :=
  match rs with
  | [] => Some (s, f)
  | (now, r) :: rs' =>
      match StreamGenerate_resume now r s f with
      | Some (s1, f1) => StreamGenerate_session rs' s1 f1
      | None => None
      end
  end.

(** The whole unary call: invoked at [t0], then resumed along [rs]. *)
Definition Generate (t0 : Q) (request : GenerateRequest) (rs : list (Q * Resume))
                    (s : Server) : option (Server * GenFrame) :=
  let '(s1, f) := Generate_call t0 request s in Generate_session rs s1 f.

(** The whole streaming call. *)
Definition StreamGenerate (t0 : Q) (request : GenerateRequest) (rs : list (Q * Resume))
                          (s : Server) : option (Server * StreamFrame) :=
  let '(s1, f) := StreamGenerate_call t0 request s in StreamGenerate_session rs s1 f.

(** The frames of calls that have just entered [admission_guard()]. *)
Definition entered_Generate (now : Q) (request : GenerateRequest) : GenFrame :=
  {| g_request := request; g_params := make_params request;
     g_t0 := now; g_first_token := false; g_full_text := EmptyString;
     g_guard := GAwaitSem; g_result := None |}.

Definition entered_StreamGenerate (now : Q) (request : GenerateRequest) : StreamFrame :=
  {| s_request := request; s_params := make_params request;
     s_last_len := 0%nat; s_t0 := now; s_first_token_sent := false;
     s_sent := []; s_guard := GAwaitSem; s_result := None |}.

(** The engine delivering the snapshots [outs], each at its instant. *)
Definition yields (outs : list (Q * RequestOutput)) : list (Q * Resume) :=
  map (fun '(now, out) => (now, EngineYields out)) outs.

(** A call admitted at [tg] that receives [touts] and sees the engine
    sequence end at [te]. *)
Definition completed_session (tg : Q) (touts : list (Q * RequestOutput)) (te : Q)
  : list (Q * Resume) :=
  (tg, SemAcquired) :: yields touts ++ [(te, EngineExhausted)].

(** The snapshots among the deliveries of a session. *)
Definition snapshots_of (rs : list (Q * Resume)) : list RequestOutput :=
  omap (fun d => match snd d with EngineYields out => Some out | _ => None end) rs.

(** ** The event loop: many handler invocations over one [Server] *)

Inductive Task :=
| TGenerate (f : GenFrame)
| TStream (f : StreamFrame).

Definition task_guard (t : Task) : Guard :=
  match t with
  | TGenerate f => g_guard f
  | TStream f => s_guard f
  end.

Record World := { server : Server; tasks : list Task }.

Inductive Event :=
| CallGenerate (now : Q) (request : GenerateRequest)
| CallStreamGenerate (now : Q) (request : GenerateRequest)
| Resumed (tid : nat) (now : Q) (r : Resume).

(** Resuming whichever handler the task runs. *)
Definition task_resume (now : Q) (r : Resume) (s : Server) (t : Task)
  : option (Server * Task) :=
  match t with
  | TGenerate f =>
      match Generate_resume now r s f with
      | Some (s1, f1) => Some (s1, TGenerate f1)
      | None => None
      end
  | TStream f =>
      match StreamGenerate_resume now r s f with
      | Some (s1, f1) => Some (s1, TStream f1)
      | None => None
      end
  end.

Definition step (w : World) (e : Event) : option World :=
  match e with
  | CallGenerate now request =>
      let '(s1, f) := Generate_call now request (server w) in
      Some {| server := s1; tasks := tasks w ++ [TGenerate f] |}
  | CallStreamGenerate now request =>
      let '(s1, f) := StreamGenerate_call now request (server w) in
      Some {| server := s1; tasks := tasks w ++ [TStream f] |}
  | Resumed tid now r =>
      match tasks w !! tid with
      | Some t =>
          match task_resume now r (server w) t with
          | Some (s1, t1) => Some {| server := s1; tasks := <[tid := t1]> (tasks w) |}
          | None => None
          end
      | None => None
      end
  end.

Fixpoint run (es : list Event) (w : World) : option World :=
  match es with
  | [] => Some w
  | e :: es' =>
      match step w e with
      | Some w1 => run es' w1
      | None => None
      end
  end.

(** The process right after start-up: no request has arrived. *)
Definition start (MAX_INFLIGHT : Z) : option World :=
  match boot MAX_INFLIGHT with
  | Some s => Some {| server := s; tasks := [] |}
  | None => None
  end.

(** A task followed on its own along its deliveries. *)
Fixpoint task_session (rs : list (Q * Resume)) (s : Server) (t : Task)
  : option (Server * Task) :=
  match rs with
  | [] => Some (s, t)
  | (now, r) :: rs' =>
      match task_resume now r s t with
      | Some (s1, t1) => task_session rs' s1 t1
      | None => None
      end
  end.

(** What the event loop delivers to task [tid], in order. *)
Fixpoint deliveries (tid : nat) (es : list Event) : list (Q * Resume) :=
  match es with
  | [] => []
  | Resumed tid' now r :: es' =>
      if decide (tid' = tid) then (now, r) :: deliveries tid es' else deliveries tid es'
  | _ :: es' => deliveries tid es'
  end.

(** The call that created the task and the session it has run since. *)
Definition runs_session (t : Task) (e : Event) (rs : list (Q * Resume)) (s : Server)
  : Prop :=
  match t with
  | TGenerate f =>
      exists now request s1,
        e = CallGenerate now request /\ Generate now request rs s = Some (s1, f)
  | TStream f =>
      exists now request s1,
        e = CallStreamGenerate now request /\
        StreamGenerate now request rs s = Some (s1, f)
  end.

(** ** Observing the tasks of a world *)

(** Requests inside the body of their [async with]: admitted and not
    yet released. *)
Definition holds_slot (t : Task) : bool :=
  match task_guard t with GYielded => true | _ => false end.

(** Requests that asked for admission and were not granted a slot yet. *)
Definition waits_for_slot (t : Task) : bool :=
  match task_guard t with GAwaitSem => true | _ => false end.

Fixpoint count (p : Task -> bool) (ts : list Task) : Z :=
  match ts with
  | [] => 0
  | t :: ts' => (if p t then 1 else 0) + count p ts'
  end.

Definition in_flight (w : World) : Z := count holds_slot (tasks w).
Definition waiting (w : World) : Z := count waits_for_slot (tasks w).

(** The handler has left (its result is settled). *)
Definition task_finished (t : Task) : bool :=
  match t with
  | TGenerate f => match g_result f with Some _ => true | None => false end
  | TStream f => match s_result f with Some _ => true | None => false end
  end.

(** How the task's handler ended, if it has, without the reply. *)
Definition task_result (t : Task) : option (Outcome unit) :=
  match t with
  | TGenerate f =>
      match g_result f with
      | Some (Returned _) => Some (Returned tt)
      | Some ReturnedOnCancel => Some ReturnedOnCancel
      | Some (Aborted c d) => Some (Aborted c d)
      | None => None
      end
  | TStream f => s_result f
  end.

(** The call ended in the Failed outcome. *)
Definition task_failed (t : Task) : bool :=
  match task_result t with
  | Some (Aborted _ _) => true
  | _ => false
  end.

(** The messages a streaming task has sent ([] for a unary one). *)
Definition task_sent (t : Task) : list Token :=
  match t with
  | TGenerate _ => []
  | TStream f => s_sent f
  end.

(** The call has made its time-to-first-output observation. *)
Definition task_seen_text (t : Task) : bool :=
  match t with
  | TGenerate f => g_first_token f
  | TStream f => s_first_token_sent f
  end.

(** The deliveries that end the body of the [async with]. *)
Definition is_exit (r : Resume) : bool :=
  match r with
  | EngineExhausted | EngineRaises _ | CancelledError => true
  | SemAcquired | EngineYields _ => false
  end.

(** The event throws the caller's cancellation into a handler. *)
Definition is_cancel (e : Event) : bool :=
  match e with
  | Resumed _ _ CancelledError => true
  | _ => false
  end.

(** ** Reading a snapshot *)

(** What both handlers take from a snapshot (lines 144-146, 180-182):
    nothing when it has no outputs, else the first completion's text,
    with None read as the empty string. *)
Definition snapshot_text (out : RequestOutput) : option string :=
  match outputs out with
  | [] => None
  | c :: _ => Some (or_empty (text c))
  end.

(** The snapshot carries some generated text. *)
Definition has_text (out : RequestOutput) : bool :=
  match snapshot_text out with
  | Some t => str_truthy t
  | None => false
  end.

(** The texts of the snapshots that have outputs, in order. *)
Definition texts (outs : list RequestOutput) : list string :=
  omap snapshot_text outs.

(** Concatenation of strings. *)
Definition join (l : list string) : string := fold_right String.append EmptyString l.

(** The texts of the messages of a stream that are not the end marker. *)
Definition delta_texts (sent : list Token) : list string :=
  map tok_text (filter (fun tok => is_last tok = false) sent).

(** ** The streaming contract in the words of the specification *)

(** A delta for each snapshot longer than the text length at the last
    emitted message: the suffix beyond that length; nothing otherwise. *)
Fixpoint deltas_from (last_emitted : nat) (snaps : list string) : list string :=
  match snaps with
  | [] => []
  | t :: snaps' =>
      if (last_emitted <? String.length t)%nat
      then py_slice_from last_emitted t :: deltas_from (String.length t) snaps'
      else deltas_from last_emitted snaps'
  end.

Definition delta_token (d : string) : Token := {| tok_text := d; is_last := false |}.

Definition end_marker : Token := {| tok_text := EmptyString; is_last := true |}.

(** Each delta as its own message, then the end marker. *)
Definition expected_stream (outs : list RequestOutput) : list Token :=
  map delta_token (deltas_from 0 (texts outs)) ++ [end_marker].

(** The end marker, for a stream whose handler ran to its end. *)
Definition closing (res : option (Outcome unit)) : list Token :=
  match res with
  | Some (Returned _) => [end_marker]
  | _ => []
  end.

(** Cumulative snapshots: each text extends the one before it. *)
Fixpoint cumulative (snaps : list string) : bool :=
  match snaps with
  | a :: (b :: _) as rest => String.prefix a b && cumulative rest
  | _ => true
  end.

(** ** Time to first output in the words of the specification *)

(** The instant of the first delivered snapshot that has text. *)
Fixpoint first_text_time (rs : list (Q * Resume)) : option Q :=
  match rs with
  | [] => None
  | (now, EngineYields out) :: rs' =>
      if has_text out then Some now else first_text_time rs'
  | _ :: rs' => first_text_time rs'
  end.

(** What one session adds to the histogram. *)
Definition ttft_of_session (t0 : Q) (rs : list (Q * Resume)) : list Q :=
  match first_text_time rs with
  | Some t => [elapsed_ms t t0]
  | None => []
  end.

(** The instant of the session's last step ([t0] if it made none). *)
Definition end_time (t0 : Q) (rs : list (Q * Resume)) : Q :=
  List.last (map fst rs) t0.

(** Clock readings that never go backwards. *)
Fixpoint nondecreasing (ts : list Q) : Prop :=
  match ts with
  | a :: (b :: _) as rest => (a <= b)%Q /\ nondecreasing rest
  | _ => True
  end.

(** The literal reading "every session observes exactly once". *)
Definition observes_exactly_once (t0 : Q) (request : GenerateRequest)
                                 (rs : list (Q * Resume)) (s : Server) : Prop :=
  forall s1 f1, Generate t0 request rs s = Some (s1, f1) ->
                is_Some (g_result f1) ->
                length (TTFT_HIST s1) = S (length (TTFT_HIST s)).

(** The literal reading "every recorded value is strictly positive". *)
Definition observes_positive_values (t0 : Q) (request : GenerateRequest)
                                    (rs : list (Q * Resume)) (s : Server) : Prop :=
  forall s1 f1, Generate t0 request rs s = Some (s1, f1) ->
                Forall (fun v => (0 < v)%Q) (TTFT_HIST s1).

(** ** monitor_vllm_internal_queue (lines 205-214) *)

Inductive PyValue :=
| PyNone
| PyBool (b : bool)
| PyInt (z : Z)
| PyFloat (q : Q)
| PyStr (s : string).

(** The status object as line 209 reads it: the attribute may be absent. *)
Record ExecutorStatus := { num_waiting_requests : option PyValue }.

(** How an [await] ends: a value, an [Exception], or the task's own
    cancellation, which is not an [Exception]. *)
Inductive Awaited (A : Type) :=
| Gives (a : A)
| Raises (e : Exception)
| Cancels.
Arguments Gives {A} a.
Arguments Raises {A} e.
Arguments Cancels {A}.

(** What the environment answers during one iteration. *)
Record Tick := { status_query : Awaited ExecutorStatus; sleep_cancelled : bool }.

(** [getattr(stats, "num_waiting_requests", None)] *)
Definition getattr_waiting (stats : ExecutorStatus) : PyValue :=
  match num_waiting_requests stats with
  | Some v => v
  | None => PyNone
  end.

(** [isinstance(v, (int, float))], with the value the gauge then takes;
    bool is a subclass of int. *)
Definition as_number (v : PyValue) : option Q :=
  match v with
  | PyBool b => Some (if b then 1 else 0)%Q
  | PyInt z => Some (inject_Z z)
  | PyFloat q => Some q
  | PyNone | PyStr _ => None
  end.

Inductive MonitorEffect :=
| GaugeSet (v : Q)
| Slept (seconds : Z).

Record Monitor := { VLLM_INTERNAL_WAITING : Q; effects : list MonitorEffect }.

Inductive LoopState :=
| Looping (m : Monitor)      (* back at [while True] *)
| Ended (m : Monitor).       (* the coroutine has been left *)

Definition publish (v : Q) (m : Monitor) : Monitor :=
  {| VLLM_INTERNAL_WAITING := v; effects := effects m ++ [GaugeSet v] |}.

Definition sleep (seconds : Z) (m : Monitor) : Monitor :=
  {| VLLM_INTERNAL_WAITING := VLLM_INTERNAL_WAITING m;
     effects := effects m ++ [Slept seconds] |}.

(** Lines 207-213: the [try] block; [None] when cancellation passes
    through it. *)
Definition monitor_try (q : Awaited ExecutorStatus) (m : Monitor) : option Monitor :=
  match q with
  | Gives stats =>
      match as_number (getattr_waiting stats) with
      | Some v => Some (publish v m)
      | None => Some m
      end
  | Raises _ => Some m                (* except Exception: pass *)
  | Cancels => None
  end.

(** Lines 207-214: one turn of the loop. *)
Definition monitor_iteration (t : Tick) (m : Monitor) : LoopState :=
  match monitor_try (status_query t) m with
  | Some m1 => if sleep_cancelled t then Ended m1 else Looping (sleep 5 m1)
  | None => Ended m
  end.

(** The loop, run against the answers [ticks], one per iteration. *)
Fixpoint monitor_vllm_internal_queue (ticks : list Tick) (m : Monitor) : LoopState :=
  match ticks with
  | [] => Looping m
  | t :: ticks' =>
      match monitor_iteration t m with
      | Looping m1 => monitor_vllm_internal_queue ticks' m1
      | Ended m1 => Ended m1
      end
  end.

(** The value a tick publishes, if any. *)
Definition published (t : Tick) : option Q :=
  match status_query t with
  | Gives stats => as_number (getattr_waiting stats)
  | _ => None
  end.

(** What an iteration that is not cancelled does, in order. *)
Definition tick_effects (t : Tick) : list MonitorEffect :=
  match published t with
  | Some v => [GaugeSet v; Slept 5]
  | None => [Slept 5]
  end.

(** The gauge after an iteration that is not cancelled. *)
Definition gauge_after (t : Tick) (g : Q) : Q :=
  match published t with
  | Some v => v
  | None => g
  end.

(** The sleeps among the effects, with their durations. *)
Definition sleeps (l : list MonitorEffect) : list Z :=
  omap (fun e => match e with Slept n => Some n | GaugeSet _ => None end) l.

(** No cancellation reaches the task during this iteration. *)
Definition undisturbed (t : Tick) : bool :=
  match status_query t with
  | Cancels => false
  | _ => negb (sleep_cancelled t)
  end.

(** ** Invariants and what one step does *)

Definition admission_unchanged (s s1 : Server) : Prop :=
  admission_sem s1 = admission_sem s /\
  admission_queue s1 = admission_queue s /\
  QUEUE_LENGTH s1 = QUEUE_LENGTH s /\
  INFLIGHT s1 = INFLIGHT s.

Definition slot_taken (s s1 : Server) : Prop :=
  0 < admission_sem s /\
  admission_sem s1 = admission_sem s - 1 /\
  INFLIGHT s1 = INFLIGHT s + 1 /\
  admission_queue s1 = tail (admission_queue s) /\
  QUEUE_LENGTH s1 = qsize s1.

Definition slot_released (s s1 : Server) : Prop :=
  admission_sem s1 = admission_sem s + 1 /\
  INFLIGHT s1 = INFLIGHT s - 1 /\
  admission_queue s1 = admission_queue s /\
  QUEUE_LENGTH s1 = QUEUE_LENGTH s.

Definition guard_move (g g1 : Guard) (r : Resume) (s s1 : Server) : Prop :=
  match g, g1 with
  | GAwaitSem, GYielded => r = SemAcquired /\ slot_taken s s1
  | GAwaitSem, GClosed => r = CancelledError /\ admission_unchanged s s1
  | GYielded, GYielded => (exists out, r = EngineYields out) /\ admission_unchanged s s1
  | GYielded, GClosed => r <> SemAcquired /\ slot_released s s1
  | _, _ => False
  end.

Ltac server_facts :=
  unfold guard_move, slot_taken, slot_released, admission_unchanged,
         guard_admit, guard_finally, sem_release, qsize; simpl;
  repeat match goal with
         | |- _ /\ _ => split
         | |- exists out, EngineYields ?o = EngineYields out => exists o
         | |- context [match ?q with [] => _ | _ :: _ => _ end] =>
             let E := fresh "E" in destruct q eqn:E; simpl in *; try rewrite E; simpl
         end;
  try reflexivity; try lia; try congruence.

Record admission_inv (MAX : Z) (w : World) : Prop := {
  inv_sem : admission_sem (server w) + in_flight w = MAX;
  inv_sem_nonneg : 0 <= admission_sem (server w);
  inv_inflight : INFLIGHT (server w) = in_flight w;
  inv_capacity : MAX_INFLIGHT_GAUGE (server w) = MAX;
  inv_queue_gauge : QUEUE_LENGTH (server w) = qsize (server w);
  inv_waiting : waiting w <= qsize (server w)
}.

(** A handler has left exactly when its guard has been closed. *)
Definition task_wf (t : Task) : Prop :=
  task_finished t = true <-> task_guard t = GClosed.

(** What resuming a handler can do to the histogram: one observation,
    made at a snapshot with text while none had been made, or nothing. *)
Definition ttft_step (now : Q) (r : Resume) (t0 : Q) (seen seen1 : bool)
                     (s s1 : Server) : Prop :=
  (exists out, r = EngineYields out /\ has_text out = true /\ seen = false /\
               seen1 = true /\
               TTFT_HIST s1 = TTFT_HIST s ++ [elapsed_ms now t0])
  \/
  ((forall out, r = EngineYields out -> has_text out = true -> seen = true) /\
   seen1 = seen /\ TTFT_HIST s1 = TTFT_HIST s).

(** Until the first message is sent, nothing counts as sent. *)
Definition stream_fresh (f : StreamFrame) : Prop :=
  s_first_token_sent f = false -> s_last_len f = 0%nat.

Definition task_fresh (t : Task) : Prop :=
  match t with
  | TGenerate _ => True
  | TStream f => stream_fresh f
  end.

(** Only a stream that ran to its end may contain an end marker. *)
Definition marker_only_at_end (t : Task) : Prop :=
  task_result t <> Some (Returned tt) ->
  Forall (fun tok => is_last tok = false) (task_sent t).

(** ** Scenarios *)

Definition hello : GenerateRequest :=
  {| prompt := "hello"; max_new_tokens := 0; temperature := 0%Q |}.

Definition snapshot (t : string) : RequestOutput :=
  {| outputs := [{| text := Some t |}] |}.

(** Capacity 2 and three simultaneous requests: two are admitted, the
    third waits until the first one completes. *)
Definition three_requests : list Event :=
  [ CallGenerate 0 hello; CallGenerate 0 hello; CallStreamGenerate 0 hello;
    Resumed 0 1 SemAcquired; Resumed 1 1 SemAcquired;
    Resumed 0 2 (EngineYields (snapshot "a"));
    Resumed 0 3 EngineExhausted;
    Resumed 2 4 SemAcquired ].

(** Capacity 1: a request is admitted, a second one queues behind it and
    its caller gives up while it waits. *)
Definition abandoned_wait : list Event :=
  [ CallGenerate 0 hello; Resumed 0 1 SemAcquired;
    CallGenerate 2 hello; Resumed 1 3 CancelledError ].

(** The same, followed by the first request completing and a third
    request being served from arrival to completion. *)
Definition abandoned_wait_then_idle : list Event :=
  abandoned_wait ++
  [ Resumed 0 4 EngineExhausted;
    CallGenerate 5 hello; Resumed 2 6 SemAcquired; Resumed 2 7 EngineExhausted ].

(** Capacity 1: a streaming call is cancelled after its first delta; a
    unary call then fails in the engine. *)
Definition cancel_then_fail : list Event :=
  [ CallStreamGenerate 0 hello; Resumed 0 1 SemAcquired;
    Resumed 0 2 (EngineYields (snapshot "He"));
    Resumed 0 3 CancelledError;
    CallGenerate 4 hello; Resumed 1 5 SemAcquired;
    Resumed 1 6 (EngineYields (snapshot "He"));
    Resumed 1 7 (EngineRaises {| exc_type := "RuntimeError"; exc_str := "CUDA out of memory" |}) ]%Q.

(** An engine run as seen by one call: snapshots growing to "Hello",
    with a repeated snapshot and one without outputs in between. *)
Definition hello_snapshots : list (Q * RequestOutput) :=
  [ (2, snapshot "He"); (3, snapshot "He"); (4, {| outputs := [] |});
    (5, snapshot "Hello") ]%Q.

(** Snapshots that carry no text: no outputs, a None text, an empty text. *)
Definition silent_snapshots : list (Q * RequestOutput) :=
  [ (2, {| outputs := [] |}); (3, {| outputs := [{| text := None |}] |});
    (4, snapshot "") ]%Q.

(** Snapshots that are not cumulative. *)
Definition shrinking_snapshots : list (Q * RequestOutput) :=
  [ (2, snapshot "ab"); (3, snapshot "c") ]%Q.

(** Answers of the engine over five iterations: a count, an exception,
    a status without the attribute, a non-numeric attribute, a float. *)
Definition monitor_ticks : list Tick :=
  [ {| status_query := Gives {| num_waiting_requests := Some (PyInt 3) |};
       sleep_cancelled := false |};
    {| status_query := Raises {| exc_type := "AttributeError";
                                 exc_str := "get_model_executor_status" |};
       sleep_cancelled := false |};
    {| status_query := Gives {| num_waiting_requests := None |};
       sleep_cancelled := false |};
    {| status_query := Gives {| num_waiting_requests := Some (PyStr "7") |};
       sleep_cancelled := false |};
    {| status_query := Gives {| num_waiting_requests := Some (PyFloat (5 # 2)) |};
       sleep_cancelled := false |} ].

Definition monitor_start : Monitor :=
  {| VLLM_INTERNAL_WAITING := 0; effects := [] |}.

(** ** Counting along a trace *)

(** The calls received among the events. *)
Definition is_call (e : Event) : bool :=
  match e with
  | CallGenerate _ _ | CallStreamGenerate _ _ => true
  | Resumed _ _ _ => false
  end.

(** The event cancels a request that is waiting for its slot. *)
Definition abandons (w : World) (e : Event) : bool :=
  match e with
  | Resumed tid _ CancelledError =>
      match tasks w !! tid with
      | Some t => waits_for_slot t
      | None => false
      end
  | _ => false
  end.

(** How many waits were abandoned along the trace [es] run from [w]. *)
Fixpoint abandoned_waits (es : list Event) (w : World) : Z :=
  match es with
  | [] => 0
  | e :: es' =>
      (if abandons w e then 1 else 0)
      + match step w e with
        | Some w1 => abandoned_waits es' w1
        | None => 0
        end
  end.

(** ** Measures of a session *)

(** The length of the longest text among [ts], and at least [n]. *)
Definition longest (n : nat) (ts : list string) : nat :=
  fold_left (fun m t => Nat.max m (String.length t)) ts n.


(** ** The benchmark client: run_request
    (test/benchmark_ttft_concurrent.py lines 31-69 and
    test/benchmark_ttft_concurrent_v2.py lines 29-67, the same text) *)

(** [s[:n]] *)
Fixpoint py_slice_to (n : nat) (s : string) : string :=
  match n, s with
  | O, _ => EmptyString
  | S _, EmptyString => EmptyString
  | S n', String c s' => String c (py_slice_to n' s')
  end.

(** What a Python call gives its caller. *)
Inductive PyResult (A : Type) :=
| PyReturn (a : A)
| PyRaise (e : Exception).
Arguments PyReturn {A} a.
Arguments PyRaise {A} e.

(** How the response iterator of a streaming call ends once its
    messages are used up: normally, with [grpc.RpcError] (given by
    [str(e.code())] and [e.details()]), or with another exception. *)
Inductive IteratorEnd :=
| StopIteration
| RpcError (code : string) (details : string)
| OtherError (e : Exception).

(** What one call meets on the network. *)
Record Exchange := {
  x_ready : bool;                  (* channel_ready_future(...).result(...) returned *)
  x_start : Q;                     (* the clock read before the call *)
  x_messages : list (Q * Token);   (* each message, with the clock when the loop handles it *)
  x_end : IteratorEnd;
  x_done : Q                       (* the clock read after the loop *)
}.

(** The dict a worker returns: with "ttft_ms", "total_ms" and "reply",
    or with both times None and "error". *)
Inductive RunResult :=
| Measured (id : Z) (ttft_ms : option Q) (total_ms : Q) (reply : string)
| Errored (id : Z) (error : string).

Definition FutureTimeoutError : Exception :=
  {| exc_type := "FutureTimeoutError"; exc_str := "" |}.

(** The [for token in responses] loop: the locals [ttft] and
    [reply_text] when it is left, and whether it was left by [break]. *)
Fixpoint receive (start_time : Q) (ttft : option Q) (reply_text : string)
                 (messages : list (Q * Token)) : option Q * string * bool :=
  match messages with
  | [] => (ttft, reply_text, false)
  | (now, token) :: rest =>
      let ttft1 := match ttft with
                   | None => Some (elapsed_ms now start_time)
                   | Some _ => ttft
                   end in
      if is_last token then (ttft1, reply_text, true)
      else receive start_time ttft1 (reply_text +:+ tok_text token) rest
  end.

(** [reply_text[:60] + ("..." if len(reply_text) > 60 else "")] *)
Definition preview (reply_text : string) : string :=
  py_slice_to 60 reply_text
  +:+ (if (60 <? String.length reply_text)%nat then "..." else "").

Definition run_request (prompt : string) (idx : Z) (max_new_tokens : Z)
                       (temperature : Q) (x : Exchange) : PyResult RunResult :=
  if x_ready x then
    let '(ttft, reply_text, broke) :=
      receive (x_start x) None EmptyString (x_messages x) in
    let measured :=
      Measured idx ttft (elapsed_ms (x_done x) (x_start x)) (preview reply_text) in
    if broke then PyReturn measured
    else match x_end x with
         | StopIteration => PyReturn measured
         | RpcError code details => PyReturn (Errored idx (code +:+ " " +:+ details))
         | OtherError e => PyRaise e
         end
  else PyRaise FutureTimeoutError.

(** [str(code)] for a [grpc.StatusCode]. *)
Definition status_str (c : StatusCode) : string :=
  match c with
  | OK => "StatusCode.OK"
  | CANCELLED => "StatusCode.CANCELLED"
  | UNKNOWN => "StatusCode.UNKNOWN"
  | INTERNAL => "StatusCode.INTERNAL"
  | UNAVAILABLE => "StatusCode.UNAVAILABLE"
  end.

(** The exchange carries what the streaming handler [f] has produced:
    its messages in order, then the end of the call, the status of an
    aborted call arriving as [grpc.RpcError]. *)
Definition delivered (f : StreamFrame) (x : Exchange) : Prop :=
  map snd (x_messages x) = s_sent f /\
  match s_result f with
  | Some (Returned _) => x_end x = StopIteration
  | Some (Aborted c d) => x_end x = RpcError (status_str c) d
  | _ => False
  end.

(** The clock reading at the first message, if there was one. *)
Definition first_arrival (x : Exchange) : option Q :=
  match x_messages x with
  | [] => None
  | (now, _) :: _ => Some now
  end.

(** A streamed answer arriving over a ready channel: "He", "llo", the
    end marker; and one cut short by a failed call. *)
Definition hello_exchange : Exchange :=
  {| x_ready := true; x_start := 1;
     x_messages := [ (2, delta_token "He"); (5, delta_token "llo"); (6, end_marker) ]%Q;
     x_end := StopIteration; x_done := 7 |}.

Definition failed_exchange : Exchange :=
  {| x_ready := true; x_start := 1;
     x_messages := [ (2%Q, delta_token "He") ];
     x_end := RpcError "StatusCode.INTERNAL" "vLLM error: RuntimeError: CUDA out of memory";
     x_done := 7 |}.

(** The messages in front of the first end marker. *)
Fixpoint before_marker (tokens : list Token) : list Token :=
  match tokens with
  | [] => []
  | tok :: rest => if is_last tok then [] else tok :: before_marker rest
  end.

(** ** The load-test client (test/client_measure_ttft_grpc.py) *)

(** The dict [single_request] returns; "error" is absent from the dict
    of a call that went through. *)
Record RequestTiming := {
  r_id : string;
  r_start : Q;
  r_first_token : option Q;
  r_end : Q;
  r_status : Z;
  r_error : option string
}.

(** The [for token in responses] loop of [single_request]: the local
    [first_token] when it is left, and whether it was left by [break]. *)
Fixpoint listen (first_token : option Q) (messages : list (Q * Token))
  : option Q * bool :=
  match messages with
  | [] => (first_token, false)
  | (now, token) :: rest =>
      let first_token1 := match first_token with
                          | None => Some now
                          | Some _ => first_token
                          end in
      if is_last token then (first_token1, true) else listen first_token1 rest
  end.

(** [single_request], with [req_id] the uuid it draws.  Its clock is
    [time.monotonic()]; when the channel does not become ready, the two
    readings of the returned dict are [x_start] and [x_done]. *)
Definition single_request (req_id : string) (prompt : string) (max_new_tokens : Z)
                          (temperature : Q) (x : Exchange) : RequestTiming :=
  if x_ready x then
    let '(first_token, broke) := listen None (x_messages x) in
    let timing status error :=
      {| r_id := req_id; r_start := x_start x; r_first_token := first_token;
         r_end := x_done x; r_status := status; r_error := error |} in
    if broke then timing 200 None
    else match x_end x with
         | StopIteration => timing 200 None
         | RpcError code details => timing (-1) (Some (code +:+ " " +:+ details))
         | OtherError e => timing (-1) (Some (exc_str e))
         end
  else
    {| r_id := req_id; r_start := x_start x; r_first_token := None;
       r_end := x_done x; r_status := -1;
       r_error := Some ("Channel connection failed: " +:+ exc_str FutureTimeoutError) |}.

(** [main] keeps, for its statistics, the results with
    [r["first_token"] is not None]; the others are its "failed". *)
Definition successful (r : RequestTiming) : bool :=
  match r_first_token r with Some _ => true | None => false end.

(** ** Aggregation in the benchmark (test/benchmark_ttft_concurrent_v2.py) *)

(** The exceptions the benchmark can die of.  Only their types are
    relied on; the message texts are those of CPython 3.11. *)
Definition ValueError : Exception :=
  {| exc_type := "ValueError"; exc_str := "max_workers must be greater than 0" |}.

Definition ZeroDivisionError : Exception :=
  {| exc_type := "ZeroDivisionError"; exc_str := "division by zero" |}.

Definition ModuloByZero : Exception :=
  {| exc_type := "ZeroDivisionError"; exc_str := "integer modulo by zero" |}.

(** [r["id"]], [r.get("ttft_ms")] and [r.get("total_ms")]; the dict of a
    failed call holds None for both times. *)
Definition result_id (r : RunResult) : Z :=
  match r with
  | Measured id _ _ _ => id
  | Errored id _ => id
  end.

Definition ttft_ms (r : RunResult) : option Q :=
  match r with
  | Measured _ ttft _ _ => ttft
  | Errored _ _ => None
  end.

Definition total_ms (r : RunResult) : option Q :=
  match r with
  | Measured _ _ total _ => Some total
  | Errored _ _ => None
  end.

(** A time used as a condition: None and 0.0 are false. *)
Definition truthy_ms (v : option Q) : bool :=
  match v with
  | Some q => negb (Qeq_bool q 0)
  | None => false
  end.

(** [[r[key] for r in results if r.get(key)]] *)
Definition valid (get : RunResult -> option Q) (results : list RunResult) : list Q :=
  omap (fun r => if truthy_ms (get r) then get r else None) results.

(** [sum(l)] and [sum(l) / len(l)]. *)
Definition py_sum (l : list Q) : Q := fold_left Qplus l 0%Q.

Definition average (l : list Q) : PyResult Q :=
  match l with
  | [] => PyRaise ZeroDivisionError
  | _ => PyReturn (py_sum l / inject_Z (Z.of_nat (length l)))%Q
  end.

(** [sum(l) / len(l) if l else 0] *)
Definition average_or_zero (l : list Q) : Q :=
  match l with
  | [] => 0%Q
  | _ => (py_sum l / inject_Z (Z.of_nat (length l)))%Q
  end.

(** [results.sort(key=lambda x: x["id"])]: a stable sort. *)
Fixpoint insert_by_id (r : RunResult) (sorted : list RunResult) : list RunResult :=
  match sorted with
  | [] => [r]
  | h :: t => if result_id r <=? result_id h then r :: sorted
              else h :: insert_by_id r t
  end.

Definition sort_by_id (results : list RunResult) : list RunResult :=
  fold_right insert_by_id [] results.

(** What [executor.submit(run_request, prompts[i % len(prompts)], i)]
    comes to for request [i] meeting the exchange [x]; the defaults of
    [run_request] are 10 new tokens and temperature 0.7. *)
Definition submitted (prompts : list string) (ix : Z * Exchange) : PyResult RunResult :=
  run_request (nth (Z.to_nat (fst ix mod Z.of_nat (length prompts))) prompts EmptyString)
              (fst ix) 10 (7 # 10) (snd ix).

(** [for f in as_completed(futures): results.append(f.result())], over
    the requests in the order in which they complete: the first
    exception met is raised. *)
Fixpoint gather (prompts : list string) (completed : list (Z * Exchange))
  : PyResult (list RunResult) :=
  match completed with
  | [] => PyReturn []
  | ix :: rest =>
      match submitted prompts ix with
      | PyRaise e => PyRaise e
      | PyReturn r =>
          match gather prompts rest with
          | PyRaise e => PyRaise e
          | PyReturn results => PyReturn (r :: results)
          end
      end
  end.

(** [benchmark_concurrent], given the requests of the run with what
    each meets, in completion order. *)
Definition benchmark_concurrent (prompts : list string) (concurrency : Z)
                                (completed : list (Z * Exchange))
  : PyResult (Q * Q * list Q) :=
  if concurrency <=? 0 then PyRaise ValueError
  else match prompts with
       | [] => PyRaise ModuloByZero
       | _ =>
           match gather prompts completed with
           | PyRaise e => PyRaise e
           | PyReturn results =>
               let results := sort_by_id results in
               let valid_ttfts := valid ttft_ms results in
               let valid_totals := valid total_ms results in
               PyReturn (average_or_zero valid_ttfts, average_or_zero valid_totals,
                         valid_ttfts)
           end
       end.

(** The requests of a run are those numbered [range(concurrency)]. *)
Definition a_run_of (concurrency : Z) (completed : list (Z * Exchange)) : Prop :=
  map fst completed ≡ₚ map Z.of_nat (seq 0 (Z.to_nat concurrency)).

(** The loop of [benchmark_multi_run] with its three accumulators, over
    what the successive runs meet. *)
Fixpoint multi_run_loop (prompts : list string) (concurrency : Z)
                        (sessions : list (list (Z * Exchange)))
                        (all_run_avg_ttfts all_run_avg_totals all_ttfts_across_runs : list Q)
  : PyResult (list Q * list Q * list Q) :=
  match sessions with
  | [] => PyReturn (all_run_avg_ttfts, all_run_avg_totals, all_ttfts_across_runs)
  | session :: rest =>
      match benchmark_concurrent prompts concurrency session with
      | PyRaise e => PyRaise e
      | PyReturn (run_avg_ttft, run_avg_total, ttfts) =>
          multi_run_loop prompts concurrency rest
            (all_run_avg_ttfts ++ [run_avg_ttft])
            (all_run_avg_totals ++ [run_avg_total])
            (all_ttfts_across_runs ++ ttfts)
      end
  end.

(** [benchmark_multi_run]: the three averages it prints.  [sessions]
    holds what each of the [runs] runs meets. *)
Definition benchmark_multi_run (prompts : list string) (concurrency : Z) (runs : Z)
                               (sessions : list (list (Z * Exchange)))
  : PyResult (Q * Q * Q) :=
  match multi_run_loop prompts concurrency (take (Z.to_nat runs) sessions) [] [] [] with
  | PyRaise e => PyRaise e
  | PyReturn (all_run_avg_ttfts, all_run_avg_totals, all_ttfts_across_runs) =>
      match average all_run_avg_ttfts with
      | PyRaise e => PyRaise e
      | PyReturn overall_avg_ttft =>
          match average all_run_avg_totals with
          | PyRaise e => PyRaise e
          | PyReturn overall_avg_total =>
              match average all_ttfts_across_runs with
              | PyRaise e => PyRaise e
              | PyReturn overall_avg_of_all_ttfts =>
                  PyReturn (overall_avg_ttft, overall_avg_total, overall_avg_of_all_ttfts)
              end
          end
      end
  end.

(** The order [sort_by_id] puts the results in, and requests whose
    channel never becomes ready. *)
Definition id_le (r1 r2 : RunResult) : Prop := result_id r1 <= result_id r2.

Definition unready_exchange : Exchange :=
  {| x_ready := false; x_start := 1; x_messages := [];
     x_end := StopIteration; x_done := 31 |}.

(** ** Basic facts about counting tasks *)

Lemma count_nonneg p ts : 0 <= count p ts.
Proof. induction ts as [|t ts IH]; simpl; [lia|]. destruct (p t); lia. Qed.

Lemma count_app p ts1 ts2 : count p (ts1 ++ ts2) = count p ts1 + count p ts2.
Proof. induction ts1 as [|t ts1 IH]; simpl; [lia|]. rewrite IH. lia. Qed.

Lemma count_insert p (ts : list Task) i t t1 :
  ts !! i = Some t ->
  count p (<[i := t1]> ts)
  = count p ts - (if p t then 1 else 0) + (if p t1 then 1 else 0).
Proof.
  revert i. induction ts as [|a ts IH]; intros [|i] H; simpl in *; try discriminate.
  - injection H as ->. lia.
  - rewrite (IH i H). lia.
Qed.

Lemma count_pos_of_lookup p (ts : list Task) i t :
  ts !! i = Some t -> p t = true -> 0 < count p ts.
Proof.
  revert i. induction ts as [|a ts IH]; intros [|i] H Hp; simpl in *; try discriminate.
  - injection H as ->. rewrite Hp. pose proof (count_nonneg p ts). lia.
  - specialize (IH i H Hp). destruct (p a); lia.
Qed.

Lemma Generate_body_admission now out s f s1 f1 :
  Generate_body now out s f = (s1, f1) ->
  admission_unchanged s s1 /\ MAX_INFLIGHT_GAUGE s1 = MAX_INFLIGHT_GAUGE s /\
  REQ_FAILED s1 = REQ_FAILED s /\
  g_guard f1 = g_guard f /\ g_result f1 = g_result f.
Proof.
  unfold Generate_body. destruct (outputs out) as [|c ?].
  - intros [= <- <-]. server_facts.
  - destruct (negb (g_first_token f) && str_truthy (or_empty (text c)));
      intros [= <- <-]; server_facts.
Qed.

Lemma StreamGenerate_body_admission now out s f s1 f1 :
  StreamGenerate_body now out s f = (s1, f1) ->
  admission_unchanged s s1 /\ MAX_INFLIGHT_GAUGE s1 = MAX_INFLIGHT_GAUGE s /\
  REQ_FAILED s1 = REQ_FAILED s /\
  s_guard f1 = s_guard f /\ s_result f1 = s_result f.
Proof.
  unfold StreamGenerate_body. destruct (outputs out) as [|c ?].
  - intros [= <- <-]. server_facts.
  - destruct (s_last_len f <? String.length (or_empty (text c)))%nat.
    + destruct (s_first_token_sent f); intros [= <- <-]; server_facts.
    + intros [= <- <-]. server_facts.
Qed.

Lemma Generate_resume_admission now r s f s1 f1 :
  Generate_resume now r s f = Some (s1, f1) ->
  MAX_INFLIGHT_GAUGE s1 = MAX_INFLIGHT_GAUGE s /\
  guard_move (g_guard f) (g_guard f1) r s s1.
Proof.
  unfold Generate_resume. destruct (g_result f); [discriminate|].
  destruct (g_guard f) eqn:Hg, r; simpl; try discriminate.
  - unfold sem_acquire. destruct (0 <? admission_sem s) eqn:Hs; [|discriminate].
    intros [= <- <-]. apply Z.ltb_lt in Hs. server_facts.
  - intros [= <- <-]. server_facts.
  - intros [= H]. apply Generate_body_admission in H as (Ha & Hm & _ & Hg1 & _).
    rewrite Hg1, Hg. split; [exact Hm|]. simpl. split; [eauto|exact Ha].
  - intros [= <- <-]. server_facts.
  - intros [= <- <-]. server_facts.
  - intros [= <- <-]. server_facts.
Qed.

Lemma StreamGenerate_resume_admission now r s f s1 f1 :
  StreamGenerate_resume now r s f = Some (s1, f1) ->
  MAX_INFLIGHT_GAUGE s1 = MAX_INFLIGHT_GAUGE s /\
  guard_move (s_guard f) (s_guard f1) r s s1.
Proof.
  unfold StreamGenerate_resume. destruct (s_result f); [discriminate|].
  destruct (s_guard f) eqn:Hg, r; simpl; try discriminate.
  - unfold sem_acquire. destruct (0 <? admission_sem s) eqn:Hs; [|discriminate].
    intros [= <- <-]. apply Z.ltb_lt in Hs. server_facts.
  - intros [= <- <-]. server_facts.
  - intros [= H]. apply StreamGenerate_body_admission in H as (Ha & Hm & _ & Hg1 & _).
    rewrite Hg1, Hg. split; [exact Hm|]. simpl. split; [eauto|exact Ha].
  - intros [= <- <-]. server_facts.
  - intros [= <- <-]. server_facts.
  - intros [= <- <-]. server_facts.
Qed.

Lemma task_resume_admission now r s t s1 t1 :
  task_resume now r s t = Some (s1, t1) ->
  MAX_INFLIGHT_GAUGE s1 = MAX_INFLIGHT_GAUGE s /\
  guard_move (task_guard t) (task_guard t1) r s s1.
Proof.
  destruct t as [f|f]; simpl.
  - destruct (Generate_resume now r s f) as [[s2 f2]|] eqn:H; [|discriminate].
    intros [= <- <-]. simpl. eapply Generate_resume_admission; eauto.
  - destruct (StreamGenerate_resume now r s f) as [[s2 f2]|] eqn:H; [|discriminate].
    intros [= <- <-]. simpl. eapply StreamGenerate_resume_admission; eauto.
Qed.

Lemma start_inv MAX w : start MAX = Some w -> admission_inv MAX w.
Proof.
  unfold start, boot. destruct (MAX <? 0) eqn:H; [discriminate|].
  intros [= <-]. apply Z.ltb_ge in H.
  split; unfold in_flight, waiting, qsize; simpl; lia.
Qed.

Lemma call_inv MAX w s1 t :
  admission_inv MAX w ->
  s1 = guard_enqueue (inc_REQ_TOTAL (server w)) ->
  task_guard t = GAwaitSem ->
  admission_inv MAX {| server := s1; tasks := tasks w ++ [t] |}.
Proof.
  intros [H1 H2 H3 H4 H5 H6] -> Hg.
  assert (Hh : holds_slot t = false) by (unfold holds_slot; now rewrite Hg).
  assert (Hw : waits_for_slot t = true) by (unfold waits_for_slot; now rewrite Hg).
  unfold in_flight, waiting, qsize in *.
  split; unfold in_flight, waiting, qsize, guard_enqueue, qsize; simpl;
    rewrite ?count_app; simpl; rewrite ?Hh, ?Hw, ?length_app; simpl; lia.
Qed.

Lemma qsize_tail s s1 :
  admission_queue s1 = tail (admission_queue s) -> 0 < qsize s ->
  qsize s1 = qsize s - 1.
Proof.
  unfold qsize. intros ->. destruct (admission_queue s); simpl; lia.
Qed.

Lemma resume_inv MAX w tid now r t s1 t1 :
  admission_inv MAX w ->
  tasks w !! tid = Some t ->
  task_resume now r (server w) t = Some (s1, t1) ->
  admission_inv MAX {| server := s1; tasks := <[tid := t1]> (tasks w) |}.
Proof.
  intros [H1 H2 H3 H4 H5 H6] Ht Hr.
  apply task_resume_admission in Hr as [Hm Hmove].
  pose proof (count_insert holds_slot _ _ _ t1 Ht) as Ch.
  pose proof (count_insert waits_for_slot _ _ _ t1 Ht) as Cw.
  pose proof (count_pos_of_lookup waits_for_slot _ _ _ Ht) as Pw.
  unfold in_flight, waiting in *.
  assert (Eh : holds_slot t = match task_guard t with GYielded => true | _ => false end)
    by reflexivity.
  assert (Eh1 : holds_slot t1 = match task_guard t1 with GYielded => true | _ => false end)
    by reflexivity.
  assert (Ew : waits_for_slot t = match task_guard t with GAwaitSem => true | _ => false end)
    by reflexivity.
  assert (Ew1 : waits_for_slot t1
                = match task_guard t1 with GAwaitSem => true | _ => false end)
    by reflexivity.
  unfold guard_move in Hmove.
  destruct (task_guard t), (task_guard t1); try contradiction;
    rewrite Eh, Eh1 in Ch; rewrite Ew, Ew1 in Cw; rewrite Ew in Pw.
  - destruct Hmove as (_ & Hs & Hs1 & Hi & Hq & Hl).
    specialize (Pw eq_refl).
    assert (qsize s1 = qsize (server w) - 1) by (apply qsize_tail; [exact Hq|lia]).
    split; unfold in_flight, waiting; simpl; lia.
  - destruct Hmove as (_ & Hs & Hq & Hl & Hi).
    assert (qsize s1 = qsize (server w)) by (unfold qsize; congruence).
    split; unfold in_flight, waiting; simpl; lia.
  - destruct Hmove as (_ & Hs & Hq & Hl & Hi).
    assert (qsize s1 = qsize (server w)) by (unfold qsize; congruence).
    split; unfold in_flight, waiting; simpl; lia.
  - destruct Hmove as (_ & Hs & Hi & Hq & Hl).
    assert (qsize s1 = qsize (server w)) by (unfold qsize; congruence).
    pose proof (count_nonneg holds_slot (tasks w)).
    split; unfold in_flight, waiting; simpl; lia.
Qed.

Lemma step_inv MAX w e w1 :
  admission_inv MAX w -> step w e = Some w1 -> admission_inv MAX w1.
Proof.
  intros Hinv. destruct e as [now request|now request|tid now r]; simpl.
  - intros [= <-]. eapply call_inv; eauto.
  - intros [= <-]. eapply call_inv; eauto.
  - destruct (tasks w !! tid) as [t|] eqn:Ht; [|discriminate].
    destruct (task_resume now r (server w) t) as [[s1 t1]|] eqn:Hr; [|discriminate].
    intros [= <-]. eapply resume_inv; eauto.
Qed.

Lemma run_inv MAX es : forall w w1,
  admission_inv MAX w -> run es w = Some w1 -> admission_inv MAX w1.
Proof.
  induction es as [|e es IH]; simpl; intros w w1 Hinv.
  - intros [= <-]. exact Hinv.
  - destruct (step w e) as [w2|] eqn:Hs; [|discriminate].
    intros Hr. eapply IH; [|exact Hr]. eapply step_inv; eauto.
Qed.

(** ** Capacity *)

(** C1: in every world the event loop can reach from start-up, the
    number of requests admitted and not yet released, and with it the
    in-flight gauge, is at most MAX_INFLIGHT; the capacity published at
    start-up is still MAX_INFLIGHT. *)
Theorem inflight_within_capacity MAX es w0 w :
  start MAX = Some w0 ->
  run es w0 = Some w ->
  in_flight w <= MAX /\
  INFLIGHT (server w) = in_flight w /\
  INFLIGHT (server w) <= MAX /\
  MAX_INFLIGHT_GAUGE (server w) = MAX.
Proof.
  intros H0 Hr.
  destruct (run_inv MAX es w0 w (start_inv _ _ H0) Hr) as [H1 H2 H3 H4 _ _].
  repeat split; try assumption; lia.
Qed.

Lemma inflight_within_capacity_witness :
  exists w0 w,
    start 2 = Some w0 /\ run three_requests w0 = Some w /\
    in_flight w = 2 /\
    (in_flight w <= 2 /\ INFLIGHT (server w) = in_flight w /\
     INFLIGHT (server w) <= 2 /\ MAX_INFLIGHT_GAUGE (server w) = 2).
Proof.
  eexists. eexists.
  split; [reflexivity|]. split; [vm_compute; reflexivity|].
  split; [vm_compute; reflexivity|].
  eapply (inflight_within_capacity 2 three_requests); [reflexivity|vm_compute; reflexivity].
Defined.

(** ** Release of the slot *)

Lemma task_resume_wf now r s t s1 t1 :
  task_resume now r s t = Some (s1, t1) -> task_wf t1.
Proof.
  unfold task_wf. destruct t as [f|f]; simpl.
  - destruct (Generate_resume now r s f) as [[s2 f2]|] eqn:H; [|discriminate].
    intros [= <- <-]. simpl. revert H. unfold Generate_resume.
    destruct (g_result f) eqn:Hres; [discriminate|].
    destruct (g_guard f) eqn:Hg, r; simpl; try discriminate;
      try (intros [= <- <-]; simpl; split; congruence).
    + unfold sem_acquire. destruct (0 <? admission_sem s); [|discriminate].
      intros [= <- <-]. simpl. split; discriminate.
    + intros [= H]. apply Generate_body_admission in H as (_ & _ & _ & Hg1 & Hr1).
      rewrite Hg1, Hr1, Hg, Hres. split; discriminate.
  - destruct (StreamGenerate_resume now r s f) as [[s2 f2]|] eqn:H; [|discriminate].
    intros [= <- <-]. simpl. revert H. unfold StreamGenerate_resume.
    destruct (s_result f) eqn:Hres; [discriminate|].
    destruct (s_guard f) eqn:Hg, r; simpl; try discriminate;
      try (intros [= <- <-]; simpl; split; congruence).
    + unfold sem_acquire. destruct (0 <? admission_sem s); [|discriminate].
      intros [= <- <-]. simpl. split; discriminate.
    + intros [= H]. apply StreamGenerate_body_admission in H as (_ & _ & _ & Hg1 & Hr1).
      rewrite Hg1, Hr1, Hg, Hres. split; discriminate.
Qed.

Lemma step_wf w e w1 :
  Forall task_wf (tasks w) -> step w e = Some w1 -> Forall task_wf (tasks w1).
Proof.
  intros Hwf. destruct e as [now request|now request|tid now r]; simpl.
  - intros [= <-]. simpl. apply Forall_app. split; [exact Hwf|].
    constructor; [|constructor]. unfold task_wf. simpl. split; discriminate.
  - intros [= <-]. simpl. apply Forall_app. split; [exact Hwf|].
    constructor; [|constructor]. unfold task_wf. simpl. split; discriminate.
  - destruct (tasks w !! tid) as [t|] eqn:Ht; [|discriminate].
    destruct (task_resume now r (server w) t) as [[s1 t1]|] eqn:Hr; [|discriminate].
    intros [= <-]. simpl. apply Forall_insert; [exact Hwf|].
    eapply task_resume_wf; eauto.
Qed.

Lemma run_wf es : forall w w1,
  Forall task_wf (tasks w) -> run es w = Some w1 -> Forall task_wf (tasks w1).
Proof.
  induction es as [|e es IH]; simpl; intros w w1 Hwf.
  - intros [= <-]. exact Hwf.
  - destruct (step w e) as [w2|] eqn:Hs; [|discriminate].
    intros Hr. eapply IH; [|exact Hr]. eapply step_wf; eauto.
Qed.

Lemma start_wf MAX w : start MAX = Some w -> Forall task_wf (tasks w).
Proof.
  unfold start. destruct (boot MAX); [|discriminate]. intros [= <-]. constructor.
Qed.

Lemma exit_releases now r s t :
  task_wf t -> holds_slot t = true -> is_exit r = true ->
  exists s1 t1, task_resume now r s t = Some (s1, t1) /\
                task_guard t1 = GClosed /\ task_finished t1 = true /\
                slot_released s s1.
Proof.
  unfold task_wf, holds_slot. intros Hwf Hh Hx.
  destruct t as [f|f]; simpl in *.
  - destruct (g_guard f) eqn:Hg; try discriminate.
    destruct (g_result f) eqn:Hres.
    { destruct Hwf as [Hwf _]. specialize (Hwf eq_refl). discriminate. }
    unfold Generate_resume. rewrite Hres, Hg.
    destruct r; try discriminate; simpl; eexists; eexists;
      (split; [reflexivity|]); simpl; server_facts.
  - destruct (s_guard f) eqn:Hg; try discriminate.
    destruct (s_result f) eqn:Hres.
    { destruct Hwf as [Hwf _]. specialize (Hwf eq_refl). discriminate. }
    unfold StreamGenerate_resume. rewrite Hres, Hg.
    destruct r; try discriminate; simpl; eexists; eexists;
      (split; [reflexivity|]); simpl; server_facts.
Qed.

Lemma closed_is_final now r s t :
  task_wf t -> task_guard t = GClosed -> task_resume now r s t = None.
Proof.
  unfold task_wf. intros [_ Hwf] Hg. specialize (Hwf Hg).
  destruct t as [f|f]; simpl in *.
  - unfold Generate_resume. destruct (g_result f); [reflexivity|discriminate].
  - unfold StreamGenerate_resume. destruct (s_result f); [reflexivity|discriminate].
Qed.

Lemma guard_close_closes g s : fst (guard_close g s) = GClosed.
Proof. destruct g; reflexivity. Qed.

(** C2: the units of the semaphore still available plus the requests
    inside their [async with] body always add up to the capacity, so
    every admission that ended gave its unit back once, no more and no
    less; an admitted request can leave the body by normal completion,
    an engine error or cancellation, and each of these closes its guard
    and returns one unit; a closed guard's handler takes no further
    step, and closing a closed guard changes nothing. *)
Theorem slot_released_exactly_once MAX es w0 w :
  start MAX = Some w0 ->
  run es w0 = Some w ->
  admission_sem (server w) + in_flight w = MAX /\
  (forall tid t now r,
      tasks w !! tid = Some t -> holds_slot t = true -> is_exit r = true ->
      exists w1 t1,
        step w (Resumed tid now r) = Some w1 /\
        tasks w1 !! tid = Some t1 /\ task_guard t1 = GClosed /\
        admission_sem (server w1) = admission_sem (server w) + 1 /\
        INFLIGHT (server w1) = INFLIGHT (server w) - 1 /\
        in_flight w1 = in_flight w - 1) /\
  (forall tid t now r,
      tasks w !! tid = Some t -> task_guard t = GClosed ->
      step w (Resumed tid now r) = None) /\
  (forall g s, guard_close (fst (guard_close g s)) (snd (guard_close g s))
               = guard_close g s).
Proof.
  intros H0 Hr.
  pose proof (run_inv MAX es w0 w (start_inv _ _ H0) Hr) as Hinv.
  pose proof (run_wf es w0 w (start_wf _ _ H0) Hr) as Hwf.
  split; [apply Hinv|]. split; [|split].
  - intros tid t now r Ht Hh Hx.
    pose proof (Forall_lookup_1 _ _ _ _ Hwf Ht) as Hwft.
    destruct (exit_releases now r (server w) t Hwft Hh Hx)
      as (s1 & t1 & Hres & Hg1 & _ & Hsem & Hinf & _).
    exists {| server := s1; tasks := <[tid := t1]> (tasks w) |}, t1.
    simpl. rewrite Ht, Hres. split; [reflexivity|].
    split; [apply list_lookup_insert_eq; eapply lookup_lt_Some; eauto|].
    split; [exact Hg1|]. split; [exact Hsem|]. split; [exact Hinf|].
    unfold in_flight. simpl. rewrite (count_insert holds_slot _ _ _ t1 Ht), Hh.
    unfold holds_slot at 2. rewrite Hg1. lia.
  - intros tid t now r Ht Hg.
    pose proof (Forall_lookup_1 _ _ _ _ Hwf Ht) as Hwft.
    simpl. rewrite Ht, (closed_is_final now r (server w) t Hwft Hg). reflexivity.
  - intros g s. destruct g; reflexivity.
Qed.

Lemma slot_released_exactly_once_witness :
  exists w0 w,
    start 2 = Some w0 /\ run (take 6 three_requests) w0 = Some w /\
    (admission_sem (server w) + in_flight w = 2 /\
     (forall tid t now r,
         tasks w !! tid = Some t -> holds_slot t = true -> is_exit r = true ->
         exists w1 t1,
           step w (Resumed tid now r) = Some w1 /\
           tasks w1 !! tid = Some t1 /\ task_guard t1 = GClosed /\
           admission_sem (server w1) = admission_sem (server w) + 1 /\
           INFLIGHT (server w1) = INFLIGHT (server w) - 1 /\
           in_flight w1 = in_flight w - 1) /\
     (forall tid t now r,
         tasks w !! tid = Some t -> task_guard t = GClosed ->
         step w (Resumed tid now r) = None) /\
     (forall g s, guard_close (fst (guard_close g s)) (snd (guard_close g s))
                  = guard_close g s)).
Proof.
  eexists. eexists.
  split; [reflexivity|]. split; [vm_compute; reflexivity|].
  eapply (slot_released_exactly_once 2 (take 6 three_requests));
    [reflexivity|vm_compute; reflexivity].
Defined.

(** ** The queue-length gauge *)

(** The gauge always shows the size of the queue, and the queue holds at
    least one marker per waiting request. *)
Lemma queue_length_covers_waiting MAX es w0 w :
  start MAX = Some w0 -> run es w0 = Some w ->
  QUEUE_LENGTH (server w) = qsize (server w) /\
  0 <= waiting w <= QUEUE_LENGTH (server w).
Proof.
  intros H0 Hr.
  destruct (run_inv MAX es w0 w (start_inv _ _ H0) Hr) as [_ _ _ _ H5 H6].
  pose proof (count_nonneg waits_for_slot (tasks w)). unfold waiting in *. lia.
Qed.

Lemma step_queue_exact MAX w e w1 :
  admission_inv MAX w -> is_cancel e = false ->
  waiting w = qsize (server w) ->
  step w e = Some w1 -> waiting w1 = qsize (server w1).
Proof.
  intros Hinv Hc Hq. destruct e as [now request|now request|tid now r]; simpl.
  - intros [= <-]. unfold waiting, qsize, guard_enqueue, qsize in *. simpl.
    rewrite count_app, length_app. simpl. lia.
  - intros [= <-]. unfold waiting, qsize, guard_enqueue, qsize in *. simpl.
    rewrite count_app, length_app. simpl. lia.
  - destruct (tasks w !! tid) as [t|] eqn:Ht; [|discriminate].
    destruct (task_resume now r (server w) t) as [[s1 t1]|] eqn:Hr; [|discriminate].
    intros [= <-]. apply task_resume_admission in Hr as [_ Hmove].
    pose proof (count_insert waits_for_slot _ _ _ t1 Ht) as Cw.
    pose proof (count_pos_of_lookup waits_for_slot _ _ _ Ht) as Pw.
    assert (Ew : waits_for_slot t
                 = match task_guard t with GAwaitSem => true | _ => false end)
      by reflexivity.
    assert (Ew1 : waits_for_slot t1
                  = match task_guard t1 with GAwaitSem => true | _ => false end)
      by reflexivity.
    unfold waiting in *. simpl. unfold guard_move in Hmove.
    destruct (task_guard t), (task_guard t1); try contradiction;
      rewrite Ew, Ew1 in Cw; rewrite Ew in Pw.
    + destruct Hmove as (_ & _ & _ & _ & Hqq & _). specialize (Pw eq_refl).
      rewrite (qsize_tail _ _ Hqq); lia.
    + destruct Hmove as [-> _]. discriminate.
    + destruct Hmove as (_ & _ & Hqq & _). unfold qsize in *. rewrite Hqq. lia.
    + destruct Hmove as (_ & _ & _ & Hqq & _). unfold qsize in *. rewrite Hqq. lia.
Qed.

(** As long as no caller cancels, the gauge is exactly the number of
    requests waiting for a slot. *)
Lemma queue_length_exact_without_cancellation MAX es : forall w0 w,
  admission_inv MAX w0 -> waiting w0 = qsize (server w0) ->
  forallb (fun e => negb (is_cancel e)) es = true ->
  run es w0 = Some w ->
  QUEUE_LENGTH (server w) = waiting w.
Proof.
  induction es as [|e es IH]; simpl; intros w0 w Hinv Hq Hnc.
  - intros [= <-]. destruct Hinv. lia.
  - apply andb_true_iff in Hnc as [Hc Hnc]. apply negb_true_iff in Hc.
    destruct (step w0 e) as [w2|] eqn:Hs; [|discriminate].
    intros Hr. eapply IH; [| |exact Hnc|exact Hr].
    + eapply step_inv; eauto.
    + eapply step_queue_exact; eauto.
Qed.

(** C6 fails on the code: with capacity 1, once a caller has given up
    while waiting for a slot, its marker stays in the queue. No request
    waits any more, yet the queue and the gauge show 1, and they still
    show 1 after every request has been served and the server is idle. *)
Theorem queue_length_overcounts_after_abandoned_wait :
  exists w0 w w',
    start 1 = Some w0 /\
    run abandoned_wait w0 = Some w /\
    waiting w = 0 /\ qsize (server w) = 1 /\ QUEUE_LENGTH (server w) = 1 /\
    run abandoned_wait_then_idle w0 = Some w' /\
    forallb task_finished (tasks w') = true /\
    waiting w' = 0 /\ in_flight w' = 0 /\ QUEUE_LENGTH (server w') = 1.
Proof.
  eexists. eexists. eexists.
  split; [reflexivity|]. split; [vm_compute; reflexivity|].
  split; [vm_compute; reflexivity|]. split; [vm_compute; reflexivity|].
  split; [vm_compute; reflexivity|]. split; [vm_compute; reflexivity|].
  repeat split; vm_compute; reflexivity.
Qed.

(** ** Strings *)

Lemma append_assoc (a b c : string) : (a +:+ b) +:+ c = a +:+ (b +:+ c).
Proof. induction a as [|x a IH]; simpl; [reflexivity|]. now rewrite IH. Qed.

Lemma append_empty_r (a : string) : a +:+ "" = a.
Proof. induction a as [|x a IH]; simpl; [reflexivity|]. now rewrite IH. Qed.

Lemma slice_length n : forall t,
  String.length (py_slice_from n t) = (String.length t - n)%nat.
Proof.
  induction n as [|n IH]; intros t; simpl; [lia|].
  destruct t as [|x t]; simpl; [reflexivity|]. apply IH.
Qed.

Lemma slice_nonempty n t :
  (n < String.length t)%nat -> py_slice_from n t <> "".
Proof.
  intros H E. pose proof (slice_length n t) as L. rewrite E in L. simpl in L. lia.
Qed.

Lemma prefix_slice a : forall b,
  String.prefix a b = true -> a +:+ py_slice_from (String.length a) b = b.
Proof.
  induction a as [|x a IH]; intros b; simpl; [reflexivity|].
  destruct b as [|y b]; simpl; [discriminate|].
  destruct (Ascii.ascii_dec x y) as [->|]; [|discriminate].
  intros H. now rewrite (IH b H).
Qed.

Lemma prefix_not_longer a : forall b,
  String.prefix a b = true -> (String.length b <= String.length a)%nat -> b = a.
Proof.
  induction a as [|x a IH]; intros b; simpl.
  - destruct b; simpl; [reflexivity|lia].
  - destruct b as [|y b]; simpl; [discriminate|].
    destruct (Ascii.ascii_dec x y) as [->|]; [|discriminate].
    intros H L. rewrite (IH b H); [reflexivity|lia].
Qed.

Lemma prefix_empty b : String.prefix "" b = true.
Proof. destruct b; reflexivity. Qed.

(** ** The deltas of a snapshot sequence *)

Lemma deltas_nonempty ts : forall n, Forall (fun d => d <> "") (deltas_from n ts).
Proof.
  induction ts as [|t ts IH]; intros n; simpl; [constructor|].
  destruct (n <? String.length t)%nat eqn:E; [|apply IH].
  constructor; [|apply IH]. apply slice_nonempty. now apply Nat.ltb_lt.
Qed.

Lemma last_cons {A} (l : list A) : forall a d, List.last (a :: l) d = List.last l a.
Proof.
  induction l as [|b l IH]; intros a d; [reflexivity|].
  change (List.last (a :: b :: l) d) with (List.last (b :: l) d).
  now rewrite !IH.
Qed.

Lemma deltas_rebuild ts : forall cur,
  cumulative (cur :: ts) = true ->
  cur +:+ join (deltas_from (String.length cur) ts) = List.last ts cur.
Proof.
  induction ts as [|t ts IH]; intros cur Hc.
  - simpl. apply append_empty_r.
  - change (cumulative (cur :: t :: ts)) with (String.prefix cur t && cumulative (t :: ts))
      in Hc.
    apply andb_true_iff in Hc as [Hp Hc].
    rewrite last_cons. simpl deltas_from.
    destruct (String.length cur <? String.length t)%nat eqn:E.
    + unfold join. simpl fold_right. fold (join (deltas_from (String.length t) ts)).
      rewrite <- append_assoc, (prefix_slice cur t Hp). apply IH, Hc.
    + apply Nat.ltb_ge in E. rewrite (prefix_not_longer cur t Hp E) in *.
      apply IH, Hc.
Qed.

Lemma delta_texts_app l1 l2 : delta_texts (l1 ++ l2) = delta_texts l1 ++ delta_texts l2.
Proof. unfold delta_texts. now rewrite filter_app, map_app. Qed.

Lemma delta_texts_deltas ds : delta_texts (map delta_token ds) = ds.
Proof.
  unfold delta_texts. induction ds as [|d ds IH]; [reflexivity|].
  rewrite map_cons, filter_cons. simpl. now rewrite IH.
Qed.

(** ** Sessions *)

Lemma Generate_session_app rs1 rs2 : forall s f,
  Generate_session (rs1 ++ rs2) s f
  = match Generate_session rs1 s f with
    | Some (s1, f1) => Generate_session rs2 s1 f1
    | None => None
    end.
Proof.
  induction rs1 as [|[now r] rs1 IH]; intros s f; simpl; [reflexivity|].
  destruct (Generate_resume now r s f) as [[s1 f1]|]; [apply IH|reflexivity].
Qed.

Lemma StreamGenerate_session_app rs1 rs2 : forall s f,
  StreamGenerate_session (rs1 ++ rs2) s f
  = match StreamGenerate_session rs1 s f with
    | Some (s1, f1) => StreamGenerate_session rs2 s1 f1
    | None => None
    end.
Proof.
  induction rs1 as [|[now r] rs1 IH]; intros s f; simpl; [reflexivity|].
  destruct (StreamGenerate_resume now r s f) as [[s1 f1]|]; [apply IH|reflexivity].
Qed.

(** The streaming loop over the snapshots the engine delivers. *)
Lemma StreamGenerate_yields touts : forall s f,
  s_guard f = GYielded -> s_result f = None ->
  exists s1 f1,
    StreamGenerate_session (yields touts) s f = Some (s1, f1) /\
    s_guard f1 = GYielded /\ s_result f1 = None /\
    s_sent f1 = s_sent f
                ++ map delta_token (deltas_from (s_last_len f) (texts (map snd touts))).
Proof.
  induction touts as [|[now out] touts IH]; intros s f Hg Hres.
  - exists s, f. simpl. rewrite app_nil_r. auto.
  - simpl. unfold StreamGenerate_resume. rewrite Hres, Hg.
    unfold texts, StreamGenerate_body, snapshot_text. simpl.
    destruct (outputs out) as [|c cs]; simpl.
    + apply (IH s f Hg Hres).
    + destruct (s_last_len f <? String.length (or_empty (text c)))%nat.
      * match goal with
        | |- context [StreamGenerate_session _ ?s2 ?f2] =>
            destruct (IH s2 f2 Hg Hres) as (s1 & f1 & Hrun & Hg1 & Hr1 & Hsent)
        end.
        exists s1, f1. rewrite Hrun. repeat split; try assumption.
        rewrite Hsent. simpl. now rewrite <- app_assoc.
      * apply (IH s f Hg Hres).
Qed.

Lemma texts_cons out outs :
  texts (out :: outs)
  = match snapshot_text out with
    | Some t => t :: texts outs
    | None => texts outs
    end.
Proof. unfold texts. simpl. destruct (snapshot_text out); reflexivity. Qed.

Lemma Generate_body_text now out s f s1 f1 :
  Generate_body now out s f = (s1, f1) ->
  g_full_text f1 = match snapshot_text out with
                   | Some t => t
                   | None => g_full_text f
                   end.
Proof.
  unfold Generate_body, snapshot_text. destruct (outputs out) as [|c cs].
  - now intros [= <- <-].
  - destruct (negb (g_first_token f) && str_truthy (or_empty (text c)));
      now intros [= <- <-].
Qed.

(** The unary loop over the snapshots the engine delivers. *)
Lemma Generate_yields touts : forall s f,
  g_guard f = GYielded -> g_result f = None ->
  exists s1 f1,
    Generate_session (yields touts) s f = Some (s1, f1) /\
    g_guard f1 = GYielded /\ g_result f1 = None /\
    g_full_text f1 = List.last (texts (map snd touts)) (g_full_text f).
Proof.
  induction touts as [|[now out] touts IH]; intros s f Hg Hres.
  - exists s, f. simpl. auto.
  - change (yields ((now, out) :: touts)) with ((now, EngineYields out) :: yields touts).
    change (map snd ((now, out) :: touts)) with (out :: map snd touts).
    rewrite texts_cons. cbn [Generate_session].
    unfold Generate_resume. rewrite Hres, Hg.
    destruct (Generate_body now out s f) as [s2 f2] eqn:Hb.
    pose proof (Generate_body_text _ _ _ _ _ _ Hb) as Ht.
    apply Generate_body_admission in Hb as (_ & _ & _ & Hg2 & Hr2).
    rewrite Hg in Hg2. rewrite Hres in Hr2.
    destruct (IH s2 f2 Hg2 Hr2) as (s1 & f1 & Hrun & Hg1 & Hr1 & Htext).
    exists s1, f1. rewrite Hrun. repeat split; try assumption.
    rewrite Htext, Ht. destruct (snapshot_text out); [now rewrite last_cons|reflexivity].
Qed.

(** A call that finds a free slot: it is in the loop, nothing observed
    or sent so far. *)
Lemma StreamGenerate_admitted t0 request tg rs s :
  0 < admission_sem s ->
  exists sg,
    StreamGenerate t0 request ((tg, SemAcquired) :: rs) s
    = StreamGenerate_session rs sg
        {| s_request := request; s_params := make_params request;
           s_last_len := 0%nat; s_t0 := t0; s_first_token_sent := false;
           s_sent := []; s_guard := GYielded; s_result := None |} /\
    TTFT_HIST sg = TTFT_HIST s /\ REQ_FAILED sg = REQ_FAILED s.
Proof.
  intros H. apply Z.ltb_lt in H.
  unfold StreamGenerate, StreamGenerate_call, guard_aenter.
  cbn [StreamGenerate_session]. unfold StreamGenerate_resume, guard_granted, sem_acquire.
  simpl. rewrite H. eexists. split; [reflexivity|]. split; server_facts.
Qed.

Lemma Generate_admitted t0 request tg rs s :
  0 < admission_sem s ->
  exists sg,
    Generate t0 request ((tg, SemAcquired) :: rs) s
    = Generate_session rs sg
        {| g_request := request; g_params := make_params request;
           g_t0 := t0; g_first_token := false; g_full_text := EmptyString;
           g_guard := GYielded; g_result := None |} /\
    TTFT_HIST sg = TTFT_HIST s /\ REQ_FAILED sg = REQ_FAILED s.
Proof.
  intros H. apply Z.ltb_lt in H.
  unfold Generate, Generate_call, guard_aenter.
  cbn [Generate_session]. unfold Generate_resume, guard_granted, sem_acquire.
  simpl. rewrite H. eexists. split; [reflexivity|]. split; server_facts.
Qed.

(** ** The stream of messages *)

Lemma StreamGenerate_running t0 request tg touts s :
  0 < admission_sem s ->
  exists s1 f1,
    StreamGenerate t0 request ((tg, SemAcquired) :: yields touts) s = Some (s1, f1) /\
    s_result f1 = None /\
    s_sent f1 = map delta_token (deltas_from 0 (texts (map snd touts))).
Proof.
  intros Hsem.
  destruct (StreamGenerate_admitted t0 request tg (yields touts) s Hsem) as (sg & -> & _).
  match goal with
  | |- context [StreamGenerate_session _ sg ?f] =>
      destruct (StreamGenerate_yields touts sg f eq_refl eq_refl)
        as (s1 & f1 & Hrun & Hg1 & Hr1 & Hsent)
  end.
  exists s1, f1. auto.
Qed.

Lemma StreamGenerate_completed t0 request tg touts te s :
  0 < admission_sem s ->
  exists s1 f1,
    StreamGenerate t0 request (completed_session tg touts te) s = Some (s1, f1) /\
    s_result f1 = Some (Returned tt) /\
    s_sent f1 = expected_stream (map snd touts).
Proof.
  intros Hsem. unfold completed_session.
  destruct (StreamGenerate_admitted t0 request tg
              (yields touts ++ [(te, EngineExhausted)]) s Hsem) as (sg & -> & _).
  match goal with
  | |- context [StreamGenerate_session _ sg ?f] =>
      destruct (StreamGenerate_yields touts sg f eq_refl eq_refl)
        as (s1 & f1 & Hrun & Hg1 & Hr1 & Hsent)
  end.
  simpl in Hsent.
  rewrite StreamGenerate_session_app, Hrun. cbn [StreamGenerate_session].
  unfold StreamGenerate_resume. rewrite Hr1, Hg1. simpl.
  eexists. eexists. split; [reflexivity|]. simpl. split; [reflexivity|].
  now rewrite Hsent.
Qed.

Lemma end_marker_unique outs :
  filter (fun tok => is_last tok = true) (expected_stream outs) = [end_marker].
Proof.
  unfold expected_stream. rewrite filter_app.
  assert (Hnone : forall ds,
             filter (fun tok => is_last tok = true) (map delta_token ds) = []).
  { induction ds as [|d ds IHd]; [reflexivity|]. rewrite map_cons, filter_cons. simpl.
    exact IHd. }
  now rewrite Hnone.
Qed.

(** C4: a streaming call that is admitted, receives the snapshots [touts]
    and sees the engine sequence end yields exactly the deltas of the
    specification, one message per snapshot that is longer than the text
    sent so far and carrying the suffix beyond it, followed by one end
    marker with empty text; no delta is empty, the end marker is the only
    message with is_last set, and before exhaustion the messages sent
    are the deltas alone. *)
Theorem stream_emits_deltas_then_end_marker t0 request tg touts te s :
  0 < admission_sem s ->
  (exists s1 f1,
      StreamGenerate t0 request ((tg, SemAcquired) :: yields touts) s = Some (s1, f1) /\
      s_result f1 = None /\
      s_sent f1 = map delta_token (deltas_from 0 (texts (map snd touts)))) /\
  (exists s1 f1,
      StreamGenerate t0 request (completed_session tg touts te) s = Some (s1, f1) /\
      s_result f1 = Some (Returned tt) /\
      s_sent f1 = expected_stream (map snd touts) /\
      filter (fun tok => is_last tok = true) (s_sent f1) = [end_marker]) /\
  Forall (fun d => d <> "") (deltas_from 0 (texts (map snd touts))).
Proof.
  intros Hsem. split; [|split].
  - now apply StreamGenerate_running.
  - destruct (StreamGenerate_completed t0 request tg touts te s Hsem)
      as (s1 & f1 & Hrun & Hres & Hsent).
    exists s1, f1. rewrite Hsent. auto using end_marker_unique.
  - apply deltas_nonempty.
Qed.

Lemma stream_emits_deltas_then_end_marker_witness :
  0 < admission_sem (fresh_server 1) /\
  (exists s1 f1,
      StreamGenerate 1 hello (completed_session 1 hello_snapshots 6) (fresh_server 1)
      = Some (s1, f1) /\
      s_sent f1 = [delta_token "He"; delta_token "llo"; end_marker]).
Proof.
  split; [reflexivity|].
  destruct (stream_emits_deltas_then_end_marker 1 hello 1 hello_snapshots 6
              (fresh_server 1) eq_refl) as (_ & (s1 & f1 & Hrun & _ & Hsent & _) & _).
  exists s1, f1. split; [exact Hrun|]. rewrite Hsent. reflexivity.
Defined.

(** ** Unary and streaming results agree *)

Lemma cumulative_from_empty ts : cumulative ("" :: ts) = cumulative ts.
Proof. destruct ts as [|t ts]; [reflexivity|]. simpl. now rewrite prefix_empty. Qed.

Lemma delta_texts_expected outs :
  delta_texts (expected_stream outs) = deltas_from 0 (texts outs).
Proof.
  unfold expected_stream. rewrite delta_texts_app, delta_texts_deltas.
  unfold delta_texts. rewrite filter_cons. simpl. apply app_nil_r.
Qed.

(** C3: when the engine delivers the same cumulative snapshots to a
    unary call and to a streaming call of the same request, both admitted
    and both run until the engine sequence ends, the unary call returns a
    reply and the texts of the stream's messages other than the end
    marker, concatenated, are that reply's text. *)
Theorem stream_deltas_concatenate_to_reply
        t0 t0' request tg tg' touts touts' te te' s s' :
  map snd touts' = map snd touts ->
  cumulative (texts (map snd touts)) = true ->
  0 < admission_sem s -> 0 < admission_sem s' ->
  exists sg fg reply ss fs,
    Generate t0 request (completed_session tg touts te) s = Some (sg, fg) /\
    g_result fg = Some (Returned reply) /\
    StreamGenerate t0' request (completed_session tg' touts' te') s' = Some (ss, fs) /\
    s_result fs = Some (Returned tt) /\
    join (delta_texts (s_sent fs)) = reply_text reply.
Proof.
  intros Hsame Hcum Hs Hs'.
  destruct (StreamGenerate_completed t0' request tg' touts' te' s' Hs')
    as (ss & fs & Hrun & Hres & Hsent).
  unfold completed_session at 1.
  destruct (Generate_admitted t0 request tg (yields touts ++ [(te, EngineExhausted)]) s Hs)
    as (sg & -> & _).
  match goal with
  | |- context [Generate_session _ sg ?f] =>
      destruct (Generate_yields touts sg f eq_refl eq_refl)
        as (s1 & f1 & Hrun1 & Hg1 & Hr1 & Htext)
  end.
  simpl in Htext.
  rewrite Generate_session_app, Hrun1. cbn [Generate_session].
  unfold Generate_resume. rewrite Hr1, Hg1. simpl.
  eexists. eexists. exists {| reply_text := g_full_text f1 |}, ss, fs.
  split; [reflexivity|]. split; [reflexivity|]. split; [exact Hrun|].
  split; [exact Hres|].
  rewrite Hsent, delta_texts_expected, Hsame, Htext. simpl.
  rewrite <- cumulative_from_empty in Hcum.
  apply (deltas_rebuild _ "" Hcum).
Qed.

Lemma stream_deltas_concatenate_to_reply_witness :
  map snd hello_snapshots = map snd hello_snapshots /\
  cumulative (texts (map snd hello_snapshots)) = true /\
  0 < admission_sem (fresh_server 1) /\
  exists sg fg reply ss fs,
    Generate 1 hello (completed_session 1 hello_snapshots 6) (fresh_server 1)
    = Some (sg, fg) /\
    g_result fg = Some (Returned reply) /\
    StreamGenerate 1 hello (completed_session 1 hello_snapshots 6) (fresh_server 1)
    = Some (ss, fs) /\
    s_result fs = Some (Returned tt) /\
    join (delta_texts (s_sent fs)) = reply_text reply.
Proof.
  split; [reflexivity|]. split; [reflexivity|]. split; [reflexivity|].
  apply (stream_deltas_concatenate_to_reply 1 1 hello 1 1 hello_snapshots hello_snapshots
           6 6 (fresh_server 1) (fresh_server 1)); reflexivity.
Defined.

(** Cumulative snapshots are needed: when a later snapshot is not an
    extension of the earlier one, the unary reply is the last snapshot
    while the stream has sent the first one. *)
Example shrinking_snapshots_disagree :
  exists sg fg ss fs,
    Generate 1 hello (completed_session 1 shrinking_snapshots 6) (fresh_server 1)
    = Some (sg, fg) /\
    g_result fg = Some (Returned {| reply_text := "c" |}) /\
    StreamGenerate 1 hello (completed_session 1 shrinking_snapshots 6) (fresh_server 1)
    = Some (ss, fs) /\
    join (delta_texts (s_sent fs)) = "ab".
Proof.
  eexists. eexists. eexists. eexists.
  split; [vm_compute; reflexivity|]. split; [reflexivity|].
  split; [vm_compute; reflexivity|]. reflexivity.
Qed.

(** ** Time to first output *)

Lemma str_truthy_length t : str_truthy t = (0 <? String.length t)%nat.
Proof. destruct t; reflexivity. Qed.

Lemma Generate_resume_ttft now r s f s1 f1 :
  Generate_resume now r s f = Some (s1, f1) ->
  g_t0 f1 = g_t0 f /\
  ttft_step now r (g_t0 f) (g_first_token f) (g_first_token f1) s s1.
Proof.
  unfold Generate_resume, ttft_step. destruct (g_result f); [discriminate|].
  destruct (g_guard f), r; simpl; try discriminate;
    try (intros [= <- <-]; split; [reflexivity|]; right;
         split; [intros ? [=]|split; server_facts]).
  - unfold sem_acquire. destruct (0 <? admission_sem s); [|discriminate].
    intros [= <- <-]. split; [reflexivity|]. right.
    split; [intros ? [=]|split; server_facts].
  - unfold Generate_body, has_text, snapshot_text.
    destruct (outputs out) as [|c cs] eqn:Ho.
    + intros [= <- <-]. split; [reflexivity|]. right.
      split; [|auto]. intros o [= <-]. rewrite Ho. discriminate.
    + destruct (g_first_token f) eqn:Hft; simpl.
      * intros [= <- <-]. split; [reflexivity|]. right. simpl. auto.
      * destruct (str_truthy (or_empty (text c))) eqn:Ht; intros [= <- <-];
          (split; [reflexivity|]).
        -- left. exists out. rewrite Ho, Ht. simpl. auto.
        -- right. simpl. split; [|auto]. intros o [= <-]. rewrite Ho, Ht. discriminate.
Qed.

Lemma StreamGenerate_resume_ttft now r s f s1 f1 :
  stream_fresh f ->
  StreamGenerate_resume now r s f = Some (s1, f1) ->
  s_t0 f1 = s_t0 f /\ stream_fresh f1 /\
  ttft_step now r (s_t0 f) (s_first_token_sent f) (s_first_token_sent f1) s s1.
Proof.
  unfold StreamGenerate_resume, ttft_step, stream_fresh. intros Hfresh.
  destruct (s_result f); [discriminate|].
  destruct (s_guard f), r; simpl; try discriminate;
    try (intros [= <- <-]; split; [reflexivity|]; split; [exact Hfresh|]; right;
         split; [intros ? [=]|split; server_facts]).
  - unfold sem_acquire. destruct (0 <? admission_sem s); [|discriminate].
    intros [= <- <-]. split; [reflexivity|]. split; [exact Hfresh|]. right.
    split; [intros ? [=]|split; server_facts].
  - unfold StreamGenerate_body.
    destruct (outputs out) as [|c cs] eqn:Ho.
    + intros [= <- <-]. split; [reflexivity|]. split; [exact Hfresh|]. right.
      split; [|auto]. intros o [= <-]. unfold has_text, snapshot_text. rewrite Ho.
      discriminate.
    + assert (Hht : has_text out = (0 <? String.length (or_empty (text c)))%nat).
      { unfold has_text, snapshot_text. rewrite Ho. apply str_truthy_length. }
      destruct (s_first_token_sent f) eqn:Hft.
      * destruct (s_last_len f <? String.length (or_empty (text c)))%nat;
          intros [= <- <-]; (split; [reflexivity|]); simpl;
          (split; [intros E; simpl in E; congruence|]); right; auto.
      * rewrite (Hfresh eq_refl).
        destruct (0 <? String.length (or_empty (text c)))%nat eqn:Ht;
          intros [= <- <-]; (split; [reflexivity|]); simpl.
        -- split; [discriminate|]. left. exists out. auto.
        -- split; [intros _; apply Hfresh; reflexivity|]. right. split; [|auto].
           intros o [= <-]. rewrite Hht. discriminate.
Qed.

Lemma ttft_step_session now r rs t0 seen seen1 s s1 (h1 : list Q) :
  ttft_step now r t0 seen seen1 s s1 ->
  h1 = TTFT_HIST s1 ++ (if seen1 then [] else ttft_of_session t0 rs) ->
  h1 = TTFT_HIST s ++ (if seen then [] else ttft_of_session t0 ((now, r) :: rs)).
Proof.
  unfold ttft_of_session. intros [(out & -> & Ht & -> & -> & Hh)|(Hno & -> & Hh)] ->.
  - simpl. rewrite Ht, Hh, app_nil_r. reflexivity.
  - rewrite Hh. destruct seen; [reflexivity|]. f_equal.
    destruct r as [|out| | |]; try reflexivity.
    simpl. destruct (has_text out) eqn:Ht; [|reflexivity].
    specialize (Hno out eq_refl Ht). discriminate.
Qed.

Lemma Generate_session_ttft rs : forall s f s1 f1,
  Generate_session rs s f = Some (s1, f1) ->
  TTFT_HIST s1
  = TTFT_HIST s ++ (if g_first_token f then [] else ttft_of_session (g_t0 f) rs).
Proof.
  induction rs as [|[now r] rs IH]; intros s f s1 f1.
  - simpl. intros [= <- <-]. unfold ttft_of_session. simpl.
    destruct (g_first_token f); now rewrite app_nil_r.
  - simpl. destruct (Generate_resume now r s f) as [[s2 f2]|] eqn:Hstep; [|discriminate].
    intros Hrun. apply IH in Hrun.
    apply Generate_resume_ttft in Hstep as [Ht0 Hstep].
    rewrite Ht0 in Hrun. eapply ttft_step_session; eauto.
Qed.

Lemma StreamGenerate_session_ttft rs : forall s f s1 f1,
  stream_fresh f ->
  StreamGenerate_session rs s f = Some (s1, f1) ->
  TTFT_HIST s1
  = TTFT_HIST s ++ (if s_first_token_sent f then [] else ttft_of_session (s_t0 f) rs).
Proof.
  induction rs as [|[now r] rs IH]; intros s f s1 f1 Hfresh.
  - simpl. intros [= <- <-]. unfold ttft_of_session. simpl.
    destruct (s_first_token_sent f); now rewrite app_nil_r.
  - simpl. destruct (StreamGenerate_resume now r s f) as [[s2 f2]|] eqn:Hstep;
      [|discriminate].
    intros Hrun.
    apply StreamGenerate_resume_ttft in Hstep as (Ht0 & Hfresh2 & Hstep); [|exact Hfresh].
    apply IH in Hrun; [|exact Hfresh2].
    rewrite Ht0 in Hrun. eapply ttft_step_session; eauto.
Qed.

Lemma first_text_time_in rs : forall t,
  first_text_time rs = Some t -> In t (map fst rs).
Proof.
  induction rs as [|[now r] rs IH]; intros t; simpl; [discriminate|].
  destruct r as [|out| | |]; try (intros H; right; now apply IH).
  destruct (has_text out); [intros [= ->]; now left|intros H; right; now apply IH].
Qed.

Lemma nondecreasing_last l : forall a,
  nondecreasing (a :: l) -> (a <= List.last l a)%Q.
Proof.
  induction l as [|b l IH]; intros a H.
  - simpl. apply Qle_refl.
  - rewrite last_cons. destruct H as [Hab H].
    eapply Qle_trans; [exact Hab|]. apply IH, H.
Qed.

Lemma nondecreasing_bounds l : forall a x,
  nondecreasing (a :: l) -> In x l -> (a <= x)%Q /\ (x <= List.last l a)%Q.
Proof.
  induction l as [|b l IH]; intros a x H Hin; [destruct Hin|].
  destruct H as [Hab H]. rewrite last_cons. destruct Hin as [->|Hin].
  - split; [exact Hab|]. apply nondecreasing_last, H.
  - destruct (IH b x H Hin) as [H1 H2]. split; [|exact H2].
    eapply Qle_trans; eauto.
Qed.

Lemma elapsed_ms_mono t0 t t' : (t <= t')%Q -> (elapsed_ms t t0 <= elapsed_ms t' t0)%Q.
Proof. unfold elapsed_ms. intros H. lra. Qed.

Lemma elapsed_ms_pos t0 t : (t0 < t)%Q -> (0 < elapsed_ms t t0)%Q.
Proof. unfold elapsed_ms. intros H. lra. Qed.

Lemma elapsed_ms_nonneg t0 t : (t0 <= t)%Q -> (0 <= elapsed_ms t t0)%Q.
Proof. unfold elapsed_ms. intros H. lra. Qed.

Lemma Generate_ttft t0 request rs s s1 f1 :
  Generate t0 request rs s = Some (s1, f1) ->
  TTFT_HIST s1 = TTFT_HIST s ++ ttft_of_session t0 rs.
Proof.
  unfold Generate, Generate_call, guard_aenter. intros H.
  apply Generate_session_ttft in H. exact H.
Qed.

Lemma StreamGenerate_ttft t0 request rs s s1 f1 :
  StreamGenerate t0 request rs s = Some (s1, f1) ->
  TTFT_HIST s1 = TTFT_HIST s ++ ttft_of_session t0 rs.
Proof.
  unfold StreamGenerate, StreamGenerate_call, guard_aenter. intros H.
  apply StreamGenerate_session_ttft in H; [exact H|]. intros _. reflexivity.
Qed.

(** C5, as the code has it: a session of either handler adds to the
    histogram nothing, or one value; it adds one exactly when it receives
    a snapshot with non-empty text, at the first such snapshot, and what
    the histogram held before is kept as it was. The value is the clock
    difference between that snapshot and the start of the call, in
    milliseconds: at least 0 and at most the session's total latency
    when the clock never goes backwards, and strictly positive when the
    clock has advanced since the call started. *)
Theorem ttft_observed_at_first_text_only t0 request rs s :
  (forall s1 f1, Generate t0 request rs s = Some (s1, f1) ->
                 TTFT_HIST s1 = TTFT_HIST s ++ ttft_of_session t0 rs) /\
  (forall s1 f1, StreamGenerate t0 request rs s = Some (s1, f1) ->
                 TTFT_HIST s1 = TTFT_HIST s ++ ttft_of_session t0 rs) /\
  (length (ttft_of_session t0 rs) <= 1)%nat /\
  (first_text_time rs = None -> ttft_of_session t0 rs = []) /\
  (forall t, first_text_time rs = Some t ->
             ttft_of_session t0 rs = [elapsed_ms t t0] /\
             (nondecreasing (t0 :: map fst rs) ->
              (0 <= elapsed_ms t t0 <= elapsed_ms (end_time t0 rs) t0)%Q) /\
             ((t0 < t)%Q -> (0 < elapsed_ms t t0)%Q)).
Proof.
  split; [|split; [|split; [|split]]].
  - intros s1 f1. apply Generate_ttft.
  - intros s1 f1. apply StreamGenerate_ttft.
  - unfold ttft_of_session. destruct (first_text_time rs); simpl; lia.
  - unfold ttft_of_session. now intros ->.
  - unfold ttft_of_session. intros t Ht. rewrite Ht. split; [reflexivity|].
    split; [|apply elapsed_ms_pos].
    intros Hclock. apply first_text_time_in in Ht.
    destruct (nondecreasing_bounds _ _ _ Hclock Ht) as [H1 H2].
    split; [now apply elapsed_ms_nonneg|]. apply elapsed_ms_mono. exact H2.
Qed.

Lemma ttft_observed_at_first_text_only_witness :
  exists s1 f1 s2 f2,
    Generate 1 hello (completed_session (3 # 2) hello_snapshots 6) (fresh_server 1)
    = Some (s1, f1) /\
    StreamGenerate 1 hello (completed_session (3 # 2) hello_snapshots 6) (fresh_server 1)
    = Some (s2, f2) /\
    first_text_time (completed_session (3 # 2) hello_snapshots 6) = Some 2%Q /\
    nondecreasing (1%Q :: map fst (completed_session (3 # 2) hello_snapshots 6)) /\
    (1 < 2)%Q /\
    TTFT_HIST s1 = [elapsed_ms 2 1] /\
    TTFT_HIST s2 = [elapsed_ms 2 1] /\
    (0 < elapsed_ms 2 1 <= elapsed_ms 6 1)%Q.
Proof.
  pose proof (ttft_observed_at_first_text_only 1 hello
                (completed_session (3 # 2) hello_snapshots 6) (fresh_server 1))
    as (Hg & Hs & _ & _ & Hv).
  destruct (Generate 1 hello (completed_session (3 # 2) hello_snapshots 6)
              (fresh_server 1)) as [[s1 f1]|] eqn:Eg; [|vm_compute in Eg; discriminate Eg].
  destruct (StreamGenerate 1 hello (completed_session (3 # 2) hello_snapshots 6)
              (fresh_server 1)) as [[s2 f2]|] eqn:Es; [|vm_compute in Es; discriminate Es].
  exists s1, f1, s2, f2.
  split; [reflexivity|]. split; [reflexivity|]. split; [reflexivity|].
  assert (Hclock : nondecreasing
                     (1%Q :: map fst (completed_session (3 # 2) hello_snapshots 6))).
  { simpl. repeat split; unfold Qle; simpl; lia. }
  split; [exact Hclock|].
  assert (Hlt : (1 < 2)%Q) by (unfold Qlt; simpl; lia).
  split; [exact Hlt|].
  split; [rewrite (Hg _ _ eq_refl); reflexivity|].
  split; [rewrite (Hs _ _ eq_refl); reflexivity|].
  destruct (Hv 2%Q eq_refl) as (_ & Hb & Hp).
  split; [exact (Hp Hlt)|]. exact (proj2 (Hb Hclock)).
Defined.

(** C5 as stated fails: a session whose engine sequence ends without
    any snapshot completes and has observed nothing; and [time.time()]
    is the wall clock, so when it is set back between the start of the
    call and the first text, the recorded value is negative. *)
Lemma ttft_not_always_once_nor_positive :
  ~ observes_exactly_once 1 hello (completed_session 2 [] 3) (fresh_server 1) /\
  ~ observes_positive_values 5 hello
      (completed_session 5 [(4%Q, snapshot "Hi")] 6) (fresh_server 1).
Proof.
  split.
  - intros H. specialize (H _ _ eq_refl (ex_intro _ _ eq_refl)). discriminate H.
  - intros H. specialize (H _ _ eq_refl).
    apply Forall_inv in H. vm_compute in H. discriminate H.
Qed.

(** ** A unary call that gets no text *)

Lemma texts_silent (touts : list (Q * RequestOutput)) :
  Forall (fun to => has_text (snd to) = false) touts ->
  List.last (texts (map snd touts)) "" = "".
Proof.
  assert (G : forall d, d = "" -> Forall (fun to => has_text (snd to) = false) touts ->
                        List.last (texts (map snd touts)) d = "").
  { induction touts as [|[now out] touts IH]; intros d Hd Hall; [exact Hd|].
    apply Forall_cons in Hall as [Hout Hall]. simpl in Hout.
    change (map snd ((now, out) :: touts)) with (out :: map snd touts).
    rewrite texts_cons. unfold has_text in Hout.
    destruct (snapshot_text out) as [t|]; [|now apply IH].
    rewrite last_cons. apply IH; [|exact Hall]. now destruct t. }
  now apply G.
Qed.

Lemma first_text_time_app rs1 rs2 :
  first_text_time (rs1 ++ rs2)
  = match first_text_time rs1 with
    | Some t => Some t
    | None => first_text_time rs2
    end.
Proof.
  induction rs1 as [|[now r] rs1 IH]; simpl; [reflexivity|].
  destruct r as [|out| | |]; try exact IH. destruct (has_text out); [reflexivity|exact IH].
Qed.

Lemma first_text_time_silent (touts : list (Q * RequestOutput)) :
  Forall (fun to => has_text (snd to) = false) touts ->
  first_text_time (yields touts) = None.
Proof.
  induction 1 as [|[now out] touts Hout _ IH]; [reflexivity|].
  simpl in *. now rewrite Hout.
Qed.

(** C10: a unary call that is admitted and whose engine sequence ends
    without any snapshot carrying text (none at all, snapshots without
    outputs, None or empty texts) returns a reply with the empty string,
    and the histogram is as it was before the call. *)
Theorem generate_without_text_replies_empty t0 request tg touts te s :
  0 < admission_sem s ->
  Forall (fun to => has_text (snd to) = false) touts ->
  exists s1 f1,
    Generate t0 request (completed_session tg touts te) s = Some (s1, f1) /\
    g_result f1 = Some (Returned {| reply_text := "" |}) /\
    TTFT_HIST s1 = TTFT_HIST s.
Proof.
  intros Hsem Hsilent.
  assert (Hrun : exists s1 f1,
             Generate t0 request (completed_session tg touts te) s = Some (s1, f1) /\
             g_result f1 = Some (Returned {| reply_text := "" |})).
  { unfold completed_session.
    destruct (Generate_admitted t0 request tg (yields touts ++ [(te, EngineExhausted)])
                s Hsem) as (sg & -> & _).
    match goal with
    | |- context [Generate_session _ sg ?f] =>
        destruct (Generate_yields touts sg f eq_refl eq_refl)
          as (s1 & f1 & Hrun1 & Hg1 & Hr1 & Htext)
    end.
    simpl in Htext. rewrite (texts_silent touts Hsilent) in Htext.
    rewrite Generate_session_app, Hrun1. cbn [Generate_session].
    unfold Generate_resume. rewrite Hr1, Hg1. simpl.
    eexists. eexists. split; [reflexivity|]. simpl. now rewrite Htext. }
  destruct Hrun as (s1 & f1 & Hrun & Hres). exists s1, f1.
  split; [exact Hrun|]. split; [exact Hres|].
  rewrite (Generate_ttft _ _ _ _ _ _ Hrun). unfold ttft_of_session, completed_session. simpl.
  rewrite first_text_time_app, (first_text_time_silent touts Hsilent). simpl.
  apply app_nil_r.
Qed.

Lemma generate_without_text_replies_empty_witness :
  0 < admission_sem (fresh_server 1) /\
  Forall (fun to => has_text (snd to) = false) silent_snapshots /\
  exists s1 f1,
    Generate 1 hello (completed_session 1 silent_snapshots 5) (fresh_server 1)
    = Some (s1, f1) /\
    g_result f1 = Some (Returned {| reply_text := "" |}) /\
    TTFT_HIST s1 = TTFT_HIST (fresh_server 1).
Proof.
  assert (H : Forall (fun to => has_text (snd to) = false) silent_snapshots)
    by (repeat constructor).
  split; [reflexivity|]. split; [exact H|].
  apply (generate_without_text_replies_empty 1 hello 1 silent_snapshots 5
           (fresh_server 1) eq_refl H).
Defined.

(** ** Invariants of every task *)

Lemma run_tasks_invariant (P : Task -> Prop) :
  (forall now request s, P (TGenerate (snd (Generate_call now request s)))) ->
  (forall now request s, P (TStream (snd (StreamGenerate_call now request s)))) ->
  (forall now r s t s1 t1, P t -> task_resume now r s t = Some (s1, t1) -> P t1) ->
  forall es w w1, Forall P (tasks w) -> run es w = Some w1 -> Forall P (tasks w1).
Proof.
  intros Hg Hs Hres. induction es as [|e es IH]; simpl; intros w w1 Hall.
  - intros [= <-]. exact Hall.
  - destruct (step w e) as [w2|] eqn:Hstep; [|discriminate].
    intros Hrun. apply (IH w2 w1); [|exact Hrun]. clear Hrun IH.
    destruct e as [now request|now request|tid now r]; simpl in Hstep.
    + injection Hstep as <-. simpl. apply Forall_app. split; [exact Hall|].
      constructor; [apply (Hg now request (server w))|constructor].
    + injection Hstep as <-. simpl. apply Forall_app. split; [exact Hall|].
      constructor; [apply (Hs now request (server w))|constructor].
    + destruct (tasks w !! tid) as [t|] eqn:Ht; [|discriminate].
      destruct (task_resume now r (server w) t) as [[s1 t1]|] eqn:Hr; [|discriminate].
      injection Hstep as <-. simpl. apply Forall_insert; [exact Hall|].
      eapply Hres; [|exact Hr]. eapply Forall_lookup_1; eauto.
Qed.

(** ** Failures and cancellations *)

Lemma task_resume_failed now r s t s1 t1 :
  task_resume now r s t = Some (s1, t1) ->
  task_failed t = false /\
  REQ_FAILED s1 = REQ_FAILED s + (if task_failed t1 then 1 else 0).
Proof.
  unfold task_failed. destruct t as [f|f]; simpl.
  - destruct (Generate_resume now r s f) as [[s2 f2]|] eqn:H; [|discriminate].
    intros [= <- <-]. simpl. revert H. unfold Generate_resume.
    destruct (g_result f) eqn:Hres; [discriminate|].
    intros H. split; [reflexivity|]. revert H.
    destruct (g_guard f) eqn:Hg, r; simpl; try discriminate;
      try (intros [= <- <-]; server_facts).
    + unfold sem_acquire. destruct (0 <? admission_sem s); [|discriminate].
      intros [= <- <-]. server_facts.
    + intros [= H]. apply Generate_body_admission in H as (_ & _ & Hf & _ & Hr1).
      rewrite Hr1, Hres, Hf. lia.
  - destruct (StreamGenerate_resume now r s f) as [[s2 f2]|] eqn:H; [|discriminate].
    intros [= <- <-]. simpl. revert H. unfold StreamGenerate_resume.
    destruct (s_result f) eqn:Hres; [discriminate|].
    intros H. split; [reflexivity|]. revert H.
    destruct (s_guard f) eqn:Hg, r; simpl; try discriminate;
      try (intros [= <- <-]; server_facts).
    + unfold sem_acquire. destruct (0 <? admission_sem s); [|discriminate].
      intros [= <- <-]. server_facts.
    + intros [= H]. apply StreamGenerate_body_admission in H as (_ & _ & Hf & _ & Hr1).
      rewrite Hr1, Hres, Hf. lia.
Qed.

Lemma step_failed_count w e w1 :
  REQ_FAILED (server w) = count task_failed (tasks w) ->
  step w e = Some w1 ->
  REQ_FAILED (server w1) = count task_failed (tasks w1).
Proof.
  intros Hinv. destruct e as [now request|now request|tid now r]; simpl.
  - intros [= <-]. simpl. rewrite count_app. simpl. lia.
  - intros [= <-]. simpl. rewrite count_app. simpl. lia.
  - destruct (tasks w !! tid) as [t|] eqn:Ht; [|discriminate].
    destruct (task_resume now r (server w) t) as [[s1 t1]|] eqn:Hr; [|discriminate].
    intros [= <-]. simpl. apply task_resume_failed in Hr as [Hf Hc].
    rewrite (count_insert task_failed _ _ _ t1 Ht), Hf. lia.
Qed.

Lemma run_failed_count es : forall w w1,
  REQ_FAILED (server w) = count task_failed (tasks w) ->
  run es w = Some w1 ->
  REQ_FAILED (server w1) = count task_failed (tasks w1).
Proof.
  induction es as [|e es IH]; simpl; intros w w1 Hinv.
  - intros [= <-]. exact Hinv.
  - destruct (step w e) as [w2|] eqn:Hs; [|discriminate].
    intros Hr. eapply IH; [|exact Hr]. eapply step_failed_count; eauto.
Qed.

Lemma raise_aborts now e s t :
  task_wf t -> holds_slot t = true ->
  exists s1 t1, task_resume now (EngineRaises e) s t = Some (s1, t1) /\
                task_result t1 = Some (Aborted INTERNAL (abort_details e)) /\
                REQ_FAILED s1 = REQ_FAILED s + 1 /\
                slot_released s s1.
Proof.
  unfold task_wf, holds_slot. intros Hwf Hh.
  destruct t as [f|f]; simpl in *.
  - destruct (g_guard f) eqn:Hg; try discriminate.
    destruct (g_result f) eqn:Hres.
    { destruct Hwf as [Hwf _]. specialize (Hwf eq_refl). discriminate. }
    unfold Generate_resume. rewrite Hres, Hg. simpl.
    eexists. eexists. split; [reflexivity|]. simpl. server_facts.
  - destruct (s_guard f) eqn:Hg; try discriminate.
    destruct (s_result f) eqn:Hres.
    { destruct Hwf as [Hwf _]. specialize (Hwf eq_refl). discriminate. }
    unfold StreamGenerate_resume. rewrite Hres, Hg. simpl.
    eexists. eexists. split; [reflexivity|]. simpl. server_facts.
Qed.

Lemma cancel_returns now s t :
  task_wf t -> task_finished t = false ->
  exists s1 t1, task_resume now CancelledError s t = Some (s1, t1) /\
                task_result t1 = Some ReturnedOnCancel /\
                task_sent t1 = task_sent t /\
                task_guard t1 = GClosed /\
                REQ_FAILED s1 = REQ_FAILED s /\
                admission_sem s1 = admission_sem s + (if holds_slot t then 1 else 0) /\
                INFLIGHT s1 = INFLIGHT s - (if holds_slot t then 1 else 0).
Proof.
  unfold task_wf, holds_slot. intros Hwf Hfin.
  destruct t as [f|f]; simpl in *.
  - destruct (g_result f) eqn:Hres; [discriminate|].
    unfold Generate_resume. rewrite Hres.
    destruct (g_guard f) eqn:Hg; simpl.
    + eexists. eexists. split; [reflexivity|]. simpl. server_facts.
    + eexists. eexists. split; [reflexivity|]. simpl. server_facts.
    + destruct Hwf as [_ Hwf]. specialize (Hwf eq_refl). discriminate.
  - destruct (s_result f) eqn:Hres; [discriminate|].
    unfold StreamGenerate_resume. rewrite Hres.
    destruct (s_guard f) eqn:Hg; simpl.
    + eexists. eexists. split; [reflexivity|]. simpl. server_facts.
    + eexists. eexists. split; [reflexivity|]. simpl. server_facts.
    + destruct Hwf as [_ Hwf]. specialize (Hwf eq_refl). discriminate.
Qed.

(** C7: in every reachable world the failure counter equals the number
    of calls that have ended aborted; when the engine raises inside an
    admitted call, the call ends aborted with status INTERNAL and the
    diagnostic text built from the exception, the counter goes up by one
    and the slot is given back; when the caller cancels a call that has
    not ended, the handler returns without a status, the counter stays,
    the guard is closed and the slot, if the call held one, is given
    back. *)
Theorem failure_counter_counts_aborted_calls MAX es w0 w :
  start MAX = Some w0 ->
  run es w0 = Some w ->
  REQ_FAILED (server w) = count task_failed (tasks w) /\
  (forall tid t now e,
      tasks w !! tid = Some t -> holds_slot t = true ->
      exists w1 t1,
        step w (Resumed tid now (EngineRaises e)) = Some w1 /\
        tasks w1 !! tid = Some t1 /\
        task_result t1 = Some (Aborted INTERNAL (abort_details e)) /\
        REQ_FAILED (server w1) = REQ_FAILED (server w) + 1 /\
        admission_sem (server w1) = admission_sem (server w) + 1 /\
        INFLIGHT (server w1) = INFLIGHT (server w) - 1) /\
  (forall tid t now,
      tasks w !! tid = Some t -> task_finished t = false ->
      exists w1 t1,
        step w (Resumed tid now CancelledError) = Some w1 /\
        tasks w1 !! tid = Some t1 /\
        task_result t1 = Some ReturnedOnCancel /\
        task_guard t1 = GClosed /\
        REQ_FAILED (server w1) = REQ_FAILED (server w) /\
        admission_sem (server w1)
        = admission_sem (server w) + (if holds_slot t then 1 else 0) /\
        INFLIGHT (server w1) = INFLIGHT (server w) - (if holds_slot t then 1 else 0)).
Proof.
  intros H0 Hr.
  pose proof (run_wf es w0 w (start_wf _ _ H0) Hr) as Hwf.
  split; [|split].
  - apply (run_failed_count es w0 w); [|exact Hr].
    unfold start, boot in H0. destruct (MAX <? 0); [discriminate|].
    injection H0 as <-. reflexivity.
  - intros tid t now e Ht Hh.
    pose proof (Forall_lookup_1 _ _ _ _ Hwf Ht) as Hwft.
    destruct (raise_aborts now e (server w) t Hwft Hh)
      as (s1 & t1 & Hres & Hab & Hf & Hsem & Hinf & _).
    exists {| server := s1; tasks := <[tid := t1]> (tasks w) |}, t1.
    simpl. rewrite Ht, Hres. split; [reflexivity|].
    split; [apply list_lookup_insert_eq; eapply lookup_lt_Some; eauto|]. auto.
  - intros tid t now Ht Hfin.
    pose proof (Forall_lookup_1 _ _ _ _ Hwf Ht) as Hwft.
    destruct (cancel_returns now (server w) t Hwft Hfin)
      as (s1 & t1 & Hres & Hcan & _ & Hg & Hf & Hsem & Hinf).
    exists {| server := s1; tasks := <[tid := t1]> (tasks w) |}, t1.
    simpl. rewrite Ht, Hres. split; [reflexivity|].
    split; [apply list_lookup_insert_eq; eapply lookup_lt_Some; eauto|]. auto.
Qed.

Lemma failure_counter_counts_aborted_calls_witness :
  exists w0 w,
    start 1 = Some w0 /\ run cancel_then_fail w0 = Some w /\
    map task_result (tasks w)
    = [Some ReturnedOnCancel;
       Some (Aborted INTERNAL "vLLM error: RuntimeError: CUDA out of memory")] /\
    REQ_FAILED (server w) = 1 /\
    REQ_FAILED (server w) = count task_failed (tasks w).
Proof.
  eexists. eexists.
  split; [reflexivity|]. split; [vm_compute; reflexivity|].
  split; [vm_compute; reflexivity|]. split; [vm_compute; reflexivity|].
  refine (proj1 (failure_counter_counts_aborted_calls 1 cancel_then_fail _ _ _ _));
    [reflexivity|vm_compute; reflexivity].
Defined.

(** ** Cancelled streams *)

Lemma marker_resume now r s t s1 t1 :
  marker_only_at_end t -> task_resume now r s t = Some (s1, t1) ->
  marker_only_at_end t1.
Proof.
  unfold marker_only_at_end. destruct t as [f|f]; simpl.
  - destruct (Generate_resume now r s f) as [[s2 f2]|]; [|discriminate].
    intros _ [= <- <-] _. constructor.
  - destruct (StreamGenerate_resume now r s f) as [[s2 f2]|] eqn:H; [|discriminate].
    intros Hinv [= <- <-]. simpl. revert H. unfold StreamGenerate_resume.
    destruct (s_result f) eqn:Hres; [discriminate|].
    assert (Hsent : Forall (fun tok => is_last tok = false) (s_sent f))
      by (apply Hinv; discriminate).
    destruct (s_guard f) eqn:Hg, r; simpl; try discriminate;
      try (intros [= <- <-]; simpl; intros _; exact Hsent).
    + unfold sem_acquire. destruct (0 <? admission_sem s); [|discriminate].
      intros [= <- <-]. simpl. intros _. exact Hsent.
    + unfold StreamGenerate_body. destruct (outputs out) as [|c cs].
      * intros [= <- <-] _. exact Hsent.
      * destruct (s_last_len f <? String.length (or_empty (text c)))%nat;
          intros [= <- <-] _; [|exact Hsent].
        simpl. apply Forall_app. split; [exact Hsent|]. repeat constructor.
    + intros [= <- <-]. simpl. intros Hne. now destruct Hne.
Qed.

Lemma run_marker MAX es w0 w :
  start MAX = Some w0 -> run es w0 = Some w -> Forall marker_only_at_end (tasks w).
Proof.
  intros H0 Hr. apply (run_tasks_invariant marker_only_at_end) with (es := es) (w := w0).
  - intros now request s _. constructor.
  - intros now request s _. constructor.
  - intros. eapply marker_resume; eauto.
  - unfold start in H0. destruct (boot MAX); [|discriminate]. injection H0 as <-.
    constructor.
  - exact Hr.
Qed.

(** C9: in every reachable world, a streaming call that returned on
    cancellation has sent no message with is_last set, and a stream that
    contains such a message is one whose handler ran to its end; a stream
    that has not ended can be cancelled at once, and then it ends with
    the messages it had sent, none of them an end marker. *)
Theorem cancelled_stream_has_no_end_marker MAX es w0 w :
  start MAX = Some w0 ->
  run es w0 = Some w ->
  forall tid f,
    tasks w !! tid = Some (TStream f) ->
    (s_result f = Some ReturnedOnCancel ->
     Forall (fun tok => is_last tok = false) (s_sent f)) /\
    (Exists (fun tok => is_last tok = true) (s_sent f) ->
     s_result f = Some (Returned tt)) /\
    (s_result f = None ->
     forall now, exists w1 f1,
       step w (Resumed tid now CancelledError) = Some w1 /\
       tasks w1 !! tid = Some (TStream f1) /\
       s_result f1 = Some ReturnedOnCancel /\
       s_sent f1 = s_sent f /\
       Forall (fun tok => is_last tok = false) (s_sent f1)).
Proof.
  intros H0 Hr tid f Ht.
  pose proof (Forall_lookup_1 _ _ _ _ (run_marker MAX es w0 w H0 Hr) Ht) as Hm.
  pose proof (Forall_lookup_1 _ _ _ _ (run_wf es w0 w (start_wf _ _ H0) Hr) Ht) as Hwf.
  unfold marker_only_at_end in Hm. simpl in Hm.
  split; [|split].
  - intros Hres. apply Hm. rewrite Hres. discriminate.
  - intros Hex. destruct (s_result f) as [[[]| |c d]|] eqn:Hres; [reflexivity| | |];
      exfalso; (assert (Hall : Forall (fun tok => is_last tok = false) (s_sent f))
                 by (apply Hm; discriminate));
      apply Exists_exists in Hex as (tok & Hin & Hlast);
      rewrite Forall_forall in Hall; specialize (Hall tok Hin); congruence.
  - intros Hres now.
    assert (Hfin : task_finished (TStream f) = false) by (simpl; now rewrite Hres).
    destruct (cancel_returns now (server w) (TStream f) Hwf Hfin)
      as (s1 & t1 & Hstep & Hcan & Hsent & _).
    destruct t1 as [g1|f1].
    { simpl in Hstep. destruct (StreamGenerate_resume now CancelledError (server w) f)
        as [[? ?]|]; discriminate. }
    exists {| server := s1; tasks := <[tid := TStream f1]> (tasks w) |}, f1.
    simpl in Hcan, Hsent. cbn [step]. rewrite Ht, Hstep.
    split; [reflexivity|]. cbn [tasks].
    split; [apply list_lookup_insert_eq; eapply lookup_lt_Some; eauto|].
    split; [exact Hcan|]. split; [exact Hsent|].
    rewrite Hsent. apply Hm. rewrite Hres. discriminate.
Qed.

Lemma cancelled_stream_has_no_end_marker_witness :
  exists w0 w f,
    start 1 = Some w0 /\ run (take 4 cancel_then_fail) w0 = Some w /\
    tasks w !! 0%nat = Some (TStream f) /\
    s_result f = Some ReturnedOnCancel /\
    s_sent f = [delta_token "He"] /\
    Forall (fun tok => is_last tok = false) (s_sent f).
Proof.
  destruct (start 1) as [w0|] eqn:H0; [|vm_compute in H0; discriminate H0].
  destruct (run (take 4 cancel_then_fail) w0) as [w|] eqn:Hr;
    [|vm_compute in H0; injection H0 as <-; vm_compute in Hr; discriminate Hr].
  destruct (tasks w !! 0%nat) as [[g|f]|] eqn:Ht;
    [vm_compute in H0; injection H0 as <-; vm_compute in Hr; injection Hr as <-;
     vm_compute in Ht; discriminate Ht
    | |vm_compute in H0; injection H0 as <-; vm_compute in Hr; injection Hr as <-;
       vm_compute in Ht; discriminate Ht].
  assert (Hres : s_result f = Some ReturnedOnCancel).
  { vm_compute in H0. injection H0 as <-. vm_compute in Hr. injection Hr as <-.
    vm_compute in Ht. injection Ht as <-. reflexivity. }
  assert (Hsent : s_sent f = [delta_token "He"]).
  { vm_compute in H0. injection H0 as <-. vm_compute in Hr. injection Hr as <-.
    vm_compute in Ht. injection Ht as <-. reflexivity. }
  exists w0, w, f.
  split; [reflexivity|]. split; [exact Hr|]. split; [exact Ht|].
  split; [exact Hres|]. split; [exact Hsent|].
  exact (proj1 (cancelled_stream_has_no_end_marker 1 (take 4 cancel_then_fail)
                  w0 w H0 Hr 0%nat f Ht) Hres).
Defined.

(** ** The queue-depth monitor *)

Lemma monitor_iteration_undisturbed t m :
  undisturbed t = true ->
  monitor_iteration t m
  = Looping (sleep 5 (match published t with
                      | Some v => publish v m
                      | None => m
                      end)).
Proof.
  unfold undisturbed, monitor_iteration, monitor_try, published.
  destruct (status_query t) as [stats|e|]; [| |discriminate].
  - intros H. apply negb_true_iff in H. rewrite H.
    destruct (as_number (getattr_waiting stats)); reflexivity.
  - intros H. apply negb_true_iff in H. now rewrite H.
Qed.

Lemma sleeps_app l1 l2 : sleeps (l1 ++ l2) = sleeps l1 ++ sleeps l2.
Proof. unfold sleeps. apply omap_app. Qed.

Lemma sleeps_tick t : sleeps (tick_effects t) = [5].
Proof. unfold tick_effects. destruct (published t); reflexivity. Qed.

Lemma monitor_loop_undisturbed ticks : forall m,
  forallb undisturbed ticks = true ->
  exists m1,
    monitor_vllm_internal_queue ticks m = Looping m1 /\
    effects m1 = effects m ++ flat_map tick_effects ticks /\
    sleeps (effects m1) = sleeps (effects m) ++ replicate (length ticks) 5 /\
    VLLM_INTERNAL_WAITING m1 = fold_left (fun g t => gauge_after t g) ticks
                                         (VLLM_INTERNAL_WAITING m).
Proof.
  induction ticks as [|t ticks IH]; intros m Hall.
  - exists m. simpl. rewrite !app_nil_r. auto.
  - simpl in Hall. apply andb_true_iff in Hall as [Ht Hall].
    cbn [monitor_vllm_internal_queue]. rewrite (monitor_iteration_undisturbed t m Ht).
    match goal with
    | |- context [monitor_vllm_internal_queue ticks ?m2] =>
        destruct (IH m2 Hall) as (m1 & Hrun & Heff & Hsl & Hg)
    end.
    exists m1. split; [exact Hrun|].
    split; [|split].
    + rewrite Heff. simpl. unfold tick_effects.
      destruct (published t); simpl; rewrite <- ?app_assoc; reflexivity.
    + rewrite Hsl. unfold sleep. cbn [effects]. rewrite sleeps_app.
      destruct (published t); simpl; rewrite ?sleeps_app; simpl;
        rewrite <- ?app_assoc; reflexivity.
    + rewrite Hg. simpl. unfold gauge_after. destruct (published t); reflexivity.
Qed.

(** C8: against any answers of the engine during which no cancellation
    reaches the task, the loop is still running after every iteration:
    each iteration publishes the backlog when the query gave a number,
    leaves the gauge alone when the query raised or gave no number, and
    then sleeps 5 seconds exactly once; an exception raised by the query
    ends neither the [try] block nor the loop. *)
Theorem monitor_never_leaves_its_loop ticks m :
  forallb undisturbed ticks = true ->
  (exists m1,
      monitor_vllm_internal_queue ticks m = Looping m1 /\
      effects m1 = effects m ++ flat_map tick_effects ticks /\
      sleeps (effects m1) = sleeps (effects m) ++ replicate (length ticks) 5 /\
      VLLM_INTERNAL_WAITING m1 = fold_left (fun g t => gauge_after t g) ticks
                                           (VLLM_INTERNAL_WAITING m)) /\
  (forall e m', monitor_try (Raises e) m' = Some m' /\
                monitor_iteration {| status_query := Raises e; sleep_cancelled := false |} m'
                = Looping (sleep 5 m')).
Proof.
  intros Hall. split; [now apply monitor_loop_undisturbed|].
  intros e m'. split; reflexivity.
Qed.

Lemma monitor_never_leaves_its_loop_witness :
  forallb undisturbed monitor_ticks = true /\
  exists m1,
    monitor_vllm_internal_queue monitor_ticks monitor_start = Looping m1 /\
    effects m1 = [GaugeSet (inject_Z 3); Slept 5; Slept 5; Slept 5; Slept 5;
                  GaugeSet (5 # 2); Slept 5] /\
    sleeps (effects m1) = [5; 5; 5; 5; 5] /\
    VLLM_INTERNAL_WAITING m1 = (5 # 2)%Q.
Proof.
  split; [reflexivity|].
  destruct (monitor_never_leaves_its_loop monitor_ticks monitor_start eq_refl)
    as ((m1 & Hrun & Heff & Hsl & Hg) & _).
  exists m1. split; [exact Hrun|]. split; [exact Heff|]. split; [exact Hsl|]. exact Hg.
Defined.

(** The loop is left only when a cancellation reaches the task. *)
Lemma monitor_ends_only_when_cancelled ticks m m1 :
  monitor_vllm_internal_queue ticks m = Ended m1 ->
  forallb undisturbed ticks = false.
Proof.
  intros H. destruct (forallb undisturbed ticks) eqn:E; [|reflexivity].
  destruct (monitor_loop_undisturbed ticks m E) as (m2 & Hrun & _).
  congruence.
Qed.

(** ** A call's frame does not depend on the other calls *)

Lemma task_session_Generate rs : forall s f,
  task_session rs s (TGenerate f)
  = match Generate_session rs s f with
    | Some (s1, f1) => Some (s1, TGenerate f1)
    | None => None
    end.
Proof.
  induction rs as [|[now r] rs IH]; intros s f; simpl; [reflexivity|].
  destruct (Generate_resume now r s f) as [[s1 f1]|]; [apply IH|reflexivity].
Qed.

Lemma task_session_Stream rs : forall s f,
  task_session rs s (TStream f)
  = match StreamGenerate_session rs s f with
    | Some (s1, f1) => Some (s1, TStream f1)
    | None => None
    end.
Proof.
  induction rs as [|[now r] rs IH]; intros s f; simpl; [reflexivity|].
  destruct (StreamGenerate_resume now r s f) as [[s1 f1]|]; [apply IH|reflexivity].
Qed.

(** The frame a resumption produces is the same over any server on
    which the resumption can happen; only the grant of the slot looks at
    the server at all. *)
Lemma task_resume_frame now r s s' t s1 t1 :
  task_resume now r s t = Some (s1, t1) ->
  (task_guard t = GAwaitSem -> 0 < admission_sem s') ->
  task_guard t1 <> GAwaitSem /\
  exists s1', task_resume now r s' t = Some (s1', t1).
Proof.
  intros Hstep Hsem.
  pose proof (task_resume_admission _ _ _ _ _ _ Hstep) as [_ Hmove].
  split.
  { unfold guard_move in Hmove. destruct (task_guard t), (task_guard t1);
      try contradiction; discriminate. }
  revert Hstep. destruct t as [f|f]; simpl in *.
  - destruct (Generate_resume now r s f) as [[s2 f2]|] eqn:H; [|discriminate].
    intros [= <- <-]. revert H. unfold Generate_resume.
    destruct (g_result f); [discriminate|].
    destruct (g_guard f) eqn:Hg, r; simpl; try discriminate;
      try (intros [= <- <-]; eexists; reflexivity).
    + unfold sem_acquire. destruct (0 <? admission_sem s); [|discriminate].
      intros [= <- <-]. specialize (Hsem eq_refl). apply Z.ltb_lt in Hsem.
      rewrite Hsem. eexists. reflexivity.
    + unfold Generate_body. destruct (outputs out) as [|c cs].
      * intros [= <- <-]. eexists. reflexivity.
      * destruct (negb (g_first_token f) && str_truthy (or_empty (text c)));
          intros [= <- <-]; eexists; reflexivity.
  - destruct (StreamGenerate_resume now r s f) as [[s2 f2]|] eqn:H; [|discriminate].
    intros [= <- <-]. revert H. unfold StreamGenerate_resume.
    destruct (s_result f); [discriminate|].
    destruct (s_guard f) eqn:Hg, r; simpl; try discriminate;
      try (intros [= <- <-]; eexists; reflexivity).
    + unfold sem_acquire. destruct (0 <? admission_sem s); [|discriminate].
      intros [= <- <-]. specialize (Hsem eq_refl). apply Z.ltb_lt in Hsem.
      rewrite Hsem. eexists. reflexivity.
    + unfold StreamGenerate_body. destruct (outputs out) as [|c cs].
      * intros [= <- <-]. eexists. reflexivity.
      * destruct (s_last_len f <? String.length (or_empty (text c)))%nat;
          intros [= <- <-]; eexists; reflexivity.
Qed.

Lemma step_length w e w1 :
  step w e = Some w1 ->
  length (tasks w1)
  = match e with Resumed _ _ _ => length (tasks w) | _ => S (length (tasks w)) end.
Proof.
  destruct e as [now request|now request|tid now r]; simpl.
  - intros [= <-]. simpl. rewrite length_app. simpl. lia.
  - intros [= <-]. simpl. rewrite length_app. simpl. lia.
  - destruct (tasks w !! tid) as [t|]; [|discriminate].
    destruct (task_resume now r (server w) t) as [[s1 t1]|]; [|discriminate].
    intros [= <-]. simpl. apply length_insert.
Qed.

(** An existing task, followed on its own along what the event loop
    delivers to it, ends up in the frame it has in the world reached. *)
Lemma task_follows_its_deliveries es : forall w w1,
  run es w = Some w1 ->
  forall tid t s',
    tasks w !! tid = Some t ->
    (task_guard t = GAwaitSem -> 0 < admission_sem s') ->
    exists s1' t1,
      tasks w1 !! tid = Some t1 /\
      task_session (deliveries tid es) s' t = Some (s1', t1).
Proof.
  induction es as [|e es IH]; simpl; intros w w1 Hrun tid t s' Ht Hsem.
  - injection Hrun as <-. exists s', t. auto.
  - destruct (step w e) as [w2|] eqn:Hstep; [|discriminate].
    destruct e as [now request|now request|tid' now r]; simpl in Hstep.
    + injection Hstep as <-. apply (IH _ _ Hrun tid t s'); [|exact Hsem].
      simpl. apply lookup_app_l_Some. exact Ht.
    + injection Hstep as <-. apply (IH _ _ Hrun tid t s'); [|exact Hsem].
      simpl. apply lookup_app_l_Some. exact Ht.
    + destruct (tasks w !! tid') as [t'|] eqn:Ht'; [|discriminate].
      destruct (task_resume now r (server w) t') as [[s2 t2]|] eqn:Hres; [|discriminate].
      injection Hstep as <-. destruct (decide (tid' = tid)) as [->|Hne].
      * rewrite Ht in Ht'. injection Ht' as <-.
        destruct (task_resume_frame _ _ _ s' _ _ _ Hres Hsem) as [Hg (s2' & Hres')].
        simpl. rewrite Hres'. apply (IH _ _ Hrun tid t2 s2').
        -- simpl. apply list_lookup_insert_eq. eapply lookup_lt_Some; eauto.
        -- intros Hg'. contradiction.
      * apply (IH _ _ Hrun tid t s'); [|exact Hsem].
        simpl. rewrite list_lookup_insert_ne; [exact Ht|exact Hne].
Qed.

(** Every task of a reachable world was created by a call in the trace
    and is in the frame that call reaches when it is followed on its own,
    over any server with a free slot, along its deliveries. *)
Lemma task_runs_its_own_session es : forall w w1,
  run es w = Some w1 ->
  forall tid t s',
    (length (tasks w) <= tid)%nat ->
    tasks w1 !! tid = Some t ->
    0 < admission_sem s' ->
    exists pre e post,
      es = pre ++ e :: post /\ runs_session t e (deliveries tid post) s'.
Proof.
  induction es as [|e es IH]; simpl; intros w w1 Hrun tid t s' Hlen Ht Hsem.
  - injection Hrun as <-. apply lookup_lt_Some in Ht. lia.
  - destruct (step w e) as [w2|] eqn:Hstep; [|discriminate].
    pose proof (step_length _ _ _ Hstep) as Hl.
    destruct (decide (length (tasks w2) <= tid)%nat) as [Hle|Hgt].
    { destruct (IH _ _ Hrun tid t s' Hle Ht Hsem) as (pre & e' & post & -> & Hs).
      exists (e :: pre), e', post. auto. }
    assert (Htid : tid = length (tasks w)) by (destruct e; lia).
    destruct e as [now request|now request|tid' now r]; [| |lia];
      simpl in Hstep; injection Hstep as <-.
    + destruct (task_follows_its_deliveries es _ _ Hrun tid
                  (TGenerate (entered_Generate now request))
                  (guard_enqueue (inc_REQ_TOTAL s')))
        as (s1' & t1 & Ht1 & Hses).
      { simpl. subst tid. rewrite lookup_app_r by lia.
        now rewrite Nat.sub_diag. }
      { intros _. simpl. exact Hsem. }
      rewrite Ht in Ht1. injection Ht1 as <-.
      exists [], (CallGenerate now request), es. split; [reflexivity|].
      rewrite task_session_Generate in Hses. unfold runs_session.
      destruct (Generate_session (deliveries tid es)
                  (guard_enqueue (inc_REQ_TOTAL s')) (entered_Generate now request))
        as [[sx fx]|] eqn:Hsx; [|discriminate].
      injection Hses as <- <-.
      exists now, request, sx. split; [reflexivity|]. rewrite <- Hsx. reflexivity.
    + destruct (task_follows_its_deliveries es _ _ Hrun tid
                  (TStream (entered_StreamGenerate now request))
                  (guard_enqueue (inc_REQ_TOTAL s')))
        as (s1' & t1 & Ht1 & Hses).
      { simpl. subst tid. rewrite lookup_app_r by lia.
        now rewrite Nat.sub_diag. }
      { intros _. simpl. exact Hsem. }
      rewrite Ht in Ht1. injection Ht1 as <-.
      exists [], (CallStreamGenerate now request), es. split; [reflexivity|].
      rewrite task_session_Stream in Hses. unfold runs_session.
      destruct (StreamGenerate_session (deliveries tid es)
                  (guard_enqueue (inc_REQ_TOTAL s')) (entered_StreamGenerate now request))
        as [[sx fx]|] eqn:Hsx; [|discriminate].
      injection Hses as <- <-.
      exists now, request, sx. split; [reflexivity|]. rewrite <- Hsx. reflexivity.
Qed.

(** ** Sessions of any shape, and tasks of any reachable world *)

Lemma snapshots_of_cons now r rs :
  snapshots_of ((now, r) :: rs)
  = match r with
    | EngineYields out => out :: snapshots_of rs
    | _ => snapshots_of rs
    end.
Proof. unfold snapshots_of. simpl. destruct r; reflexivity. Qed.

Lemma StreamGenerate_session_finished rs s f s1 f1 :
  is_Some (s_result f) ->
  StreamGenerate_session rs s f = Some (s1, f1) -> rs = [] /\ f1 = f.
Proof.
  intros [o Ho]. destruct rs as [|[now r] rs]; simpl.
  - intros [= <- <-]. auto.
  - unfold StreamGenerate_resume. rewrite Ho. discriminate.
Qed.

Lemma Generate_session_finished rs s f s1 f1 :
  is_Some (g_result f) ->
  Generate_session rs s f = Some (s1, f1) -> rs = [] /\ f1 = f.
Proof.
  intros [o Ho]. destruct rs as [|[now r] rs]; simpl.
  - intros [= <- <-]. auto.
  - unfold Generate_resume. rewrite Ho. discriminate.
Qed.

(** Whatever a streaming session is delivered, what it has sent is the
    deltas of the snapshots delivered, and then the end marker if its
    handler ran to its end. *)
Lemma StreamGenerate_session_sent rs : forall s f s1 f1,
  s_result f = None ->
  StreamGenerate_session rs s f = Some (s1, f1) ->
  s_sent f1
  = s_sent f ++ map delta_token (deltas_from (s_last_len f) (texts (snapshots_of rs)))
    ++ closing (s_result f1).
Proof.
  induction rs as [|[now r] rs IH]; intros s f s1 f1 Hres.
  - simpl. intros [= <- <-]. rewrite Hres. simpl. now rewrite app_nil_r.
  - cbn [StreamGenerate_session].
    destruct (StreamGenerate_resume now r s f) as [[s2 f2]|] eqn:Hstep; [|discriminate].
    intros Hrun. unfold StreamGenerate_resume in Hstep. rewrite Hres in Hstep.
    destruct (s_guard f) eqn:Hg, r; simpl in Hstep; try discriminate;
      rewrite snapshots_of_cons; cbv iota beta.
    + unfold sem_acquire in Hstep. destruct (0 <? admission_sem s); [|discriminate].
      injection Hstep as <- <-. apply IH in Hrun; [exact Hrun|reflexivity].
    + injection Hstep as <- <-.
      apply StreamGenerate_session_finished in Hrun as [-> ->]; [|simpl; eauto].
      simpl. now rewrite app_nil_r.
    + injection Hstep as Hb. rewrite texts_cons.
      unfold StreamGenerate_body in Hb. unfold snapshot_text.
      destruct (outputs out) as [|c cs].
      * injection Hb as <- <-. apply IH in Hrun; [exact Hrun|exact Hres].
      * cbn [deltas_from].
        destruct (s_last_len f <? String.length (or_empty (text c)))%nat;
          injection Hb as <- <-; (apply IH in Hrun; [|exact Hres]); [|exact Hrun].
        rewrite Hrun. cbn [s_sent s_last_len map]. now rewrite <- app_assoc.
    + injection Hstep as <- <-.
      apply StreamGenerate_session_finished in Hrun as [-> ->]; [|simpl; eauto].
      reflexivity.
    + injection Hstep as <- <-.
      apply StreamGenerate_session_finished in Hrun as [-> ->]; [|simpl; eauto].
      simpl. now rewrite app_nil_r.
    + injection Hstep as <- <-.
      apply StreamGenerate_session_finished in Hrun as [-> ->]; [|simpl; eauto].
      simpl. now rewrite app_nil_r.
Qed.

(** Whatever a unary session is delivered, its text is that of the last
    snapshot with outputs, and a reply carries that text. *)
Lemma Generate_session_text rs : forall s f s1 f1,
  g_result f = None ->
  Generate_session rs s f = Some (s1, f1) ->
  g_full_text f1 = List.last (texts (snapshots_of rs)) (g_full_text f) /\
  (forall reply, g_result f1 = Some (Returned reply) ->
                 reply_text reply = g_full_text f1).
Proof.
  induction rs as [|[now r] rs IH]; intros s f s1 f1 Hres.
  - simpl. intros [= <- <-]. rewrite Hres. split; [reflexivity|discriminate].
  - cbn [Generate_session].
    destruct (Generate_resume now r s f) as [[s2 f2]|] eqn:Hstep; [|discriminate].
    intros Hrun. unfold Generate_resume in Hstep. rewrite Hres in Hstep.
    destruct (g_guard f) eqn:Hg, r; simpl in Hstep; try discriminate;
      rewrite snapshots_of_cons; cbv iota beta.
    + unfold sem_acquire in Hstep. destruct (0 <? admission_sem s); [|discriminate].
      injection Hstep as <- <-. apply IH in Hrun; [exact Hrun|reflexivity].
    + injection Hstep as <- <-.
      apply Generate_session_finished in Hrun as [-> ->]; [|simpl; eauto].
      simpl. split; [reflexivity|discriminate].
    + injection Hstep as Hb. rewrite texts_cons.
      pose proof (Generate_body_text _ _ _ _ _ _ Hb) as Ht.
      apply Generate_body_admission in Hb as (_ & _ & _ & _ & Hr2).
      rewrite Hres in Hr2. apply IH in Hrun as [Htext Hreply]; [|exact Hr2].
      split; [|exact Hreply]. rewrite Htext, Ht.
      destruct (snapshot_text out); [now rewrite last_cons|reflexivity].
    + injection Hstep as <- <-.
      apply Generate_session_finished in Hrun as [-> ->]; [|simpl; eauto].
      simpl. split; [reflexivity|]. now intros reply [= <-].
    + injection Hstep as <- <-.
      apply Generate_session_finished in Hrun as [-> ->]; [|simpl; eauto].
      simpl. split; [reflexivity|discriminate].
    + injection Hstep as <- <-.
      apply Generate_session_finished in Hrun as [-> ->]; [|simpl; eauto].
      simpl. split; [reflexivity|discriminate].
Qed.

(** In any world the event loop reaches, whatever the other calls did
    in between: a streaming task has sent the deltas of the snapshots
    delivered to it, closed by the end marker exactly if it ran to its
    end. *)
Lemma stream_task_messages MAX es w0 w tid f :
  start MAX = Some w0 -> run es w0 = Some w ->
  tasks w !! tid = Some (TStream f) ->
  exists pre e post,
    es = pre ++ e :: post /\
    s_sent f
    = map delta_token (deltas_from 0 (texts (snapshots_of (deliveries tid post))))
      ++ closing (s_result f).
Proof.
  intros H0 Hr Ht.
  assert (Hnil : tasks w0 = []).
  { unfold start in H0. destruct (boot MAX); [|discriminate]. now injection H0 as <-. }
  destruct (task_runs_its_own_session es w0 w Hr tid (TStream f) (fresh_server 1))
    as (pre & e & post & Hes & now & request & s1 & _ & Hses);
    [rewrite Hnil; simpl; lia|exact Ht|reflexivity|].
  exists pre, e, post. split; [exact Hes|].
  unfold StreamGenerate, StreamGenerate_call, guard_aenter in Hses.
  apply StreamGenerate_session_sent in Hses; [exact Hses|reflexivity].
Qed.

(** In any world the event loop reaches, a unary task that replied has
    replied with the text of the last snapshot with outputs delivered to
    it, or the empty string if there was none. *)
Lemma generate_task_reply MAX es w0 w tid f reply :
  start MAX = Some w0 -> run es w0 = Some w ->
  tasks w !! tid = Some (TGenerate f) ->
  g_result f = Some (Returned reply) ->
  exists pre e post,
    es = pre ++ e :: post /\
    reply_text reply = List.last (texts (snapshots_of (deliveries tid post))) "".
Proof.
  intros H0 Hr Ht Hres.
  assert (Hnil : tasks w0 = []).
  { unfold start in H0. destruct (boot MAX); [|discriminate]. now injection H0 as <-. }
  destruct (task_runs_its_own_session es w0 w Hr tid (TGenerate f) (fresh_server 1))
    as (pre & e & post & Hes & now & request & s1 & _ & Hses);
    [rewrite Hnil; simpl; lia|exact Ht|reflexivity|].
  exists pre, e, post. split; [exact Hes|].
  unfold Generate, Generate_call, guard_aenter in Hses.
  apply Generate_session_text in Hses as [Htext Hreply]; [|reflexivity].
  rewrite (Hreply reply Hres), Htext. reflexivity.
Qed.

(** ** One observation per call, under any interleaving *)

Lemma task_resume_observes now r s t s1 t1 :
  task_fresh t ->
  task_resume now r s t = Some (s1, t1) ->
  task_fresh t1 /\
  Z.of_nat (length (TTFT_HIST s1)) + (if task_seen_text t then 1 else 0)
  = Z.of_nat (length (TTFT_HIST s)) + (if task_seen_text t1 then 1 else 0).
Proof.
  intros Hfresh. destruct t as [f|f]; simpl in *.
  - destruct (Generate_resume now r s f) as [[s2 f2]|] eqn:H; [|discriminate].
    intros [= <- <-]. simpl. split; [exact I|].
    apply Generate_resume_ttft in H as [_ [(out & _ & _ & -> & -> & ->)|(_ & -> & ->)]].
    + rewrite length_app. simpl. lia.
    + lia.
  - destruct (StreamGenerate_resume now r s f) as [[s2 f2]|] eqn:H; [|discriminate].
    intros [= <- <-]. simpl.
    apply StreamGenerate_resume_ttft in H
      as (_ & Hf2 & [(out & _ & _ & -> & -> & ->)|(_ & -> & ->)]); [| |exact Hfresh].
    + split; [exact Hf2|]. rewrite length_app. simpl. lia.
    + split; [exact Hf2|]. lia.
Qed.

(** In every reachable world the histogram holds exactly one observation
    per call that has received text, however the calls interleave. *)
Lemma histogram_holds_one_observation_per_call MAX es w0 w :
  start MAX = Some w0 -> run es w0 = Some w ->
  Z.of_nat (length (TTFT_HIST (server w))) = count task_seen_text (tasks w).
Proof.
  intros H0 Hr.
  assert (G : forall es w w1,
             Forall task_fresh (tasks w) ->
             Z.of_nat (length (TTFT_HIST (server w))) = count task_seen_text (tasks w) ->
             run es w = Some w1 ->
             Z.of_nat (length (TTFT_HIST (server w1))) = count task_seen_text (tasks w1)).
  { clear. induction es as [|e es IH]; simpl; intros w w1 Hfresh Hinv.
    - now intros [= <-].
    - destruct (step w e) as [w2|] eqn:Hstep; [|discriminate].
      intros Hrun. apply (IH w2 w1); [| |exact Hrun]; clear Hrun IH;
        destruct e as [now request|now request|tid now r]; simpl in Hstep.
      + injection Hstep as <-. simpl. apply Forall_app. split; [exact Hfresh|].
        repeat constructor.
      + injection Hstep as <-. simpl. apply Forall_app. split; [exact Hfresh|].
        constructor; [|constructor]. simpl. intros _. reflexivity.
      + destruct (tasks w !! tid) as [t|] eqn:Ht; [|discriminate].
        destruct (task_resume now r (server w) t) as [[s1 t1]|] eqn:Hres; [|discriminate].
        injection Hstep as <-. simpl. apply Forall_insert; [exact Hfresh|].
        eapply task_resume_observes; [|exact Hres]. eapply Forall_lookup_1; eauto.
      + injection Hstep as <-. simpl. rewrite count_app. simpl. lia.
      + injection Hstep as <-. simpl. rewrite count_app. simpl. lia.
      + destruct (tasks w !! tid) as [t|] eqn:Ht; [|discriminate].
        destruct (task_resume now r (server w) t) as [[s1 t1]|] eqn:Hres; [|discriminate].
        injection Hstep as <-. simpl.
        apply task_resume_observes in Hres as [_ Hobs];
          [|eapply Forall_lookup_1; eauto].
        rewrite (count_insert task_seen_text _ _ _ t1 Ht). lia. }
  apply (G es w0 w); [| |exact Hr];
    unfold start, boot in H0; destruct (MAX <? 0); try discriminate;
    injection H0 as <-; [constructor|reflexivity].
Qed.

(** * Further properties of the gateway *)

(** ** The request counter *)

Lemma task_resume_REQ_TOTAL now r s t s1 t1 :
  task_resume now r s t = Some (s1, t1) -> REQ_TOTAL s1 = REQ_TOTAL s.
Proof.
  destruct t as [f|f]; simpl.
  - destruct (Generate_resume now r s f) as [[s2 f2]|] eqn:H; [|discriminate].
    intros [= <- <-]. revert H. unfold Generate_resume.
    destruct (g_result f); [discriminate|].
    destruct (g_guard f), r; simpl; try discriminate;
      try (intros [= <- <-]; server_facts).
    + unfold sem_acquire. destruct (0 <? admission_sem s); [|discriminate].
      intros [= <- <-]. server_facts.
    + unfold Generate_body. destruct (outputs out) as [|c cs].
      * now intros [= <- <-].
      * destruct (negb (g_first_token f) && str_truthy (or_empty (text c)));
          now intros [= <- <-].
  - destruct (StreamGenerate_resume now r s f) as [[s2 f2]|] eqn:H; [|discriminate].
    intros [= <- <-]. revert H. unfold StreamGenerate_resume.
    destruct (s_result f); [discriminate|].
    destruct (s_guard f), r; simpl; try discriminate;
      try (intros [= <- <-]; server_facts).
    + unfold sem_acquire. destruct (0 <? admission_sem s); [|discriminate].
      intros [= <- <-]. server_facts.
    + unfold StreamGenerate_body. destruct (outputs out) as [|c cs].
      * now intros [= <- <-].
      * destruct (s_last_len f <? String.length (or_empty (text c)))%nat;
          [destruct (s_first_token_sent f)|]; now intros [= <- <-].
Qed.

Lemma count_le_length p ts : count p ts <= Z.of_nat (length ts).
Proof. induction ts as [|t ts IH]; simpl; [lia|]. destruct (p t); lia. Qed.

Lemma run_REQ_TOTAL es : forall w w1,
  run es w = Some w1 ->
  REQ_TOTAL (server w1) - Z.of_nat (length (tasks w1))
  = REQ_TOTAL (server w) - Z.of_nat (length (tasks w)) /\
  Z.of_nat (length (tasks w1))
  = Z.of_nat (length (tasks w)) + Z.of_nat (length (filter is_call es)).
Proof.
  induction es as [|e es IH]; simpl; intros w w1.
  - intros [= <-]. lia.
  - destruct (step w e) as [w2|] eqn:Hstep; [|discriminate].
    intros Hrun. destruct (IH _ _ Hrun) as [H1 H2]. clear IH Hrun.
    pose proof (step_length _ _ _ Hstep) as Hl.
    destruct e as [now request|now request|tid now r]; simpl in Hstep.
    + injection Hstep as <-. rewrite filter_cons. simpl in *. lia.
    + injection Hstep as <-. rewrite filter_cons. simpl in *. lia.
    + destruct (tasks w !! tid) as [t|]; [|discriminate].
      destruct (task_resume now r (server w) t) as [[s1 t1]|] eqn:Hres; [|discriminate].
      injection Hstep as <-. apply task_resume_REQ_TOTAL in Hres.
      rewrite filter_cons. simpl in *. lia.
Qed.

(** X1: in every reachable world llm_requests_total equals the number of
    calls received so far, whatever became of them (waiting, running,
    completed, failed, cancelled), and llm_requests_failed_total never
    exceeds it. *)
Theorem request_counter_counts_every_call MAX es w0 w :
  start MAX = Some w0 ->
  run es w0 = Some w ->
  REQ_TOTAL (server w) = Z.of_nat (length (filter is_call es)) /\
  REQ_TOTAL (server w) = Z.of_nat (length (tasks w)) /\
  0 <= REQ_FAILED (server w) <= REQ_TOTAL (server w).
Proof.
  intros H0 Hr. destruct (run_REQ_TOTAL es w0 w Hr) as [H1 H2].
  assert (Hf : REQ_FAILED (server w) = count task_failed (tasks w)).
  { apply (run_failed_count es w0 w); [|exact Hr].
    unfold start, boot in H0. destruct (MAX <? 0); [discriminate|].
    now injection H0 as <-. }
  unfold start, boot in H0. destruct (MAX <? 0); [discriminate|].
  injection H0 as <-. simpl in *.
  pose proof (count_le_length task_failed (tasks w)).
  pose proof (count_nonneg task_failed (tasks w)). lia.
Qed.

Lemma request_counter_counts_every_call_witness :
  exists w0 w,
    start 1 = Some w0 /\ run cancel_then_fail w0 = Some w /\
    REQ_TOTAL (server w) = 2 /\ REQ_FAILED (server w) = 1 /\
    REQ_TOTAL (server w) = Z.of_nat (length (filter is_call cancel_then_fail)).
Proof.
  eexists. eexists.
  split; [reflexivity|]. split; [vm_compute; reflexivity|].
  split; [vm_compute; reflexivity|]. split; [vm_compute; reflexivity|].
  refine (proj1 (request_counter_counts_every_call 1 cancel_then_fail _ _ _ _));
    [reflexivity|vm_compute; reflexivity].
Defined.

(** ** When a waiting request is admitted *)




(** ** What an abandoned wait leaves behind *)

Lemma step_queue_balance MAX w e w1 :
  admission_inv MAX w ->
  step w e = Some w1 ->
  qsize (server w1) - waiting w1
  = qsize (server w) - waiting w + (if abandons w e then 1 else 0).
Proof.
  intros Hinv. destruct e as [now request|now request|tid now r]; simpl.
  - intros [= <-]. unfold waiting, qsize, guard_enqueue, qsize in *. simpl.
    rewrite count_app, length_app. simpl. lia.
  - intros [= <-]. unfold waiting, qsize, guard_enqueue, qsize in *. simpl.
    rewrite count_app, length_app. simpl. lia.
  - destruct (tasks w !! tid) as [t|] eqn:Ht; [|discriminate].
    destruct (task_resume now r (server w) t) as [[s1 t1]|] eqn:Hr; [|discriminate].
    intros [= <-]. apply task_resume_admission in Hr as [_ Hmove].
    pose proof (count_insert waits_for_slot _ _ _ t1 Ht) as Cw.
    pose proof (count_pos_of_lookup waits_for_slot _ _ _ Ht) as Pw.
    destruct Hinv as [_ _ _ _ _ H6].
    assert (Ew : waits_for_slot t
                 = match task_guard t with GAwaitSem => true | _ => false end)
      by reflexivity.
    assert (Ew1 : waits_for_slot t1
                  = match task_guard t1 with GAwaitSem => true | _ => false end)
      by reflexivity.
    unfold waiting in *. simpl. unfold guard_move in Hmove.
    destruct (task_guard t), (task_guard t1); try contradiction;
      rewrite Ew1 in Cw; rewrite Ew in Cw, Pw |- *.
    + destruct Hmove as (-> & _ & _ & _ & Hqq & _). specialize (Pw eq_refl).
      rewrite (qsize_tail _ _ Hqq); lia.
    + destruct Hmove as (-> & _ & Hqq & _). unfold qsize in *. rewrite Hqq. lia.
    + destruct Hmove as (_ & _ & Hqq & _). unfold qsize in *. rewrite Hqq.
      destruct r; lia.
    + destruct Hmove as (_ & _ & _ & Hqq & _). unfold qsize in *. rewrite Hqq.
      destruct r; lia.
Qed.

Lemma run_queue_balance MAX es : forall w w1,
  admission_inv MAX w ->
  run es w = Some w1 ->
  qsize (server w1) - waiting w1
  = qsize (server w) - waiting w + abandoned_waits es w.
Proof.
  induction es as [|e es IH]; simpl; intros w w1 Hinv.
  - intros [= <-]. lia.
  - destruct (step w e) as [w2|] eqn:Hstep; [|discriminate].
    intros Hrun.
    rewrite (IH w2 w1 (step_inv _ _ _ _ Hinv Hstep) Hrun).
    rewrite (step_queue_balance MAX w e w2 Hinv Hstep). lia.
Qed.

(** X3: in every reachable world the queue-length gauge equals the
    number of requests waiting for a slot plus the number of waits that
    were abandoned by cancellation so far: each abandoned wait leaves one
    marker in the queue for good, and nothing else makes the gauge differ
    from the number of waiting requests. *)
Theorem queue_length_is_waiting_plus_abandoned MAX es w0 w :
  start MAX = Some w0 ->
  run es w0 = Some w ->
  QUEUE_LENGTH (server w) = waiting w + abandoned_waits es w0 /\
  0 <= abandoned_waits es w0.
Proof.
  intros H0 Hr.
  pose proof (run_queue_balance MAX es w0 w (start_inv _ _ H0) Hr) as Hb.
  destruct (run_inv MAX es w0 w (start_inv _ _ H0) Hr) as [_ _ _ _ H5 H6].
  unfold start, boot in H0. destruct (MAX <? 0); [discriminate|].
  injection H0 as <-. unfold waiting, qsize in *. simpl in *. lia.
Qed.

Lemma queue_length_is_waiting_plus_abandoned_witness :
  exists w0 w,
    start 1 = Some w0 /\ run abandoned_wait_then_idle w0 = Some w /\
    waiting w = 0 /\ abandoned_waits abandoned_wait_then_idle w0 = 1 /\
    QUEUE_LENGTH (server w) = waiting w + abandoned_waits abandoned_wait_then_idle w0.
Proof.
  eexists. eexists.
  split; [reflexivity|]. split; [vm_compute; reflexivity|].
  split; [vm_compute; reflexivity|]. split; [vm_compute; reflexivity|].
  refine (proj1 (queue_length_is_waiting_plus_abandoned 1 abandoned_wait_then_idle
                   _ _ _ _)); [reflexivity|vm_compute; reflexivity].
Defined.

(** ** How much a stream has sent *)

Lemma append_length (a b : string) :
  String.length (a +:+ b) = (String.length a + String.length b)%nat.
Proof. induction a as [|x a IH]; simpl; [reflexivity|]. now rewrite IH. Qed.

Lemma deltas_total_length ts : forall n,
  (String.length (join (deltas_from n ts)) + n)%nat = longest n ts.
Proof.
  induction ts as [|t ts IH]; intros n; [reflexivity|].
  cbn [deltas_from longest fold_left].
  destruct (n <? String.length t)%nat eqn:E.
  - apply Nat.ltb_lt in E. unfold join. cbn [fold_right].
    fold (join (deltas_from (String.length t) ts)).
    rewrite append_length, slice_length.
    specialize (IH (String.length t)). unfold longest in IH.
    rewrite Nat.max_r by lia. lia.
  - apply Nat.ltb_ge in E. rewrite Nat.max_l by lia. apply IH.
Qed.

Lemma delta_texts_closing res : delta_texts (closing res) = [].
Proof. destruct res as [[[]| |]|]; reflexivity. Qed.

Lemma StreamGenerate_deltas t0 request rs s s1 f1 :
  StreamGenerate t0 request rs s = Some (s1, f1) ->
  delta_texts (s_sent f1) = deltas_from 0 (texts (snapshots_of rs)).
Proof.
  unfold StreamGenerate, StreamGenerate_call, guard_aenter. intros H.
  apply StreamGenerate_session_sent in H; [|reflexivity]. simpl in H.
  rewrite H, delta_texts_app, delta_texts_deltas, delta_texts_closing.
  apply app_nil_r.
Qed.

Lemma longest_bounds ts : forall n,
  (n <= longest n ts)%nat /\
  Forall (fun t => (String.length t <= longest n ts)%nat) ts.
Proof.
  induction ts as [|t ts IH]; intros n; [split; [apply Nat.le_refl|constructor]|].
  cbn [longest fold_left].
  destruct (IH (Nat.max n (String.length t))) as [H1 H2]. unfold longest in *.
  split; [lia|]. constructor; [lia|exact H2].
Qed.

(** X4: at any point of a streaming call, whatever it has been
    delivered and however it ended, the number of characters sent in its
    deltas is the length of the longest snapshot text it has received;
    no snapshot is longer than what the client holds, also when the
    snapshots are not cumulative. *)
Theorem stream_sends_as_many_characters_as_longest_snapshot t0 request rs s s1 f1 :
  StreamGenerate t0 request rs s = Some (s1, f1) ->
  String.length (join (delta_texts (s_sent f1))) = longest 0 (texts (snapshots_of rs)) /\
  Forall (fun t => (String.length t <= String.length (join (delta_texts (s_sent f1))))%nat)
         (texts (snapshots_of rs)).
Proof.
  intros H. rewrite (StreamGenerate_deltas _ _ _ _ _ _ H).
  pose proof (deltas_total_length (texts (snapshots_of rs)) 0) as Ht.
  rewrite Nat.add_0_r in Ht. rewrite Ht.
  split; [reflexivity|]. apply longest_bounds.
Qed.

Lemma stream_sends_as_many_characters_as_longest_snapshot_witness :
  exists s1 f1,
    StreamGenerate 1 hello ((1%Q, SemAcquired) :: yields shrinking_snapshots)
                   (fresh_server 1) = Some (s1, f1) /\
    delta_texts (s_sent f1) = ["ab"] /\
    String.length (join (delta_texts (s_sent f1))) = 2%nat.
Proof.
  destruct (StreamGenerate 1 hello ((1%Q, SemAcquired) :: yields shrinking_snapshots)
              (fresh_server 1)) as [[s1 f1]|] eqn:E; [|vm_compute in E; discriminate E].
  exists s1, f1. split; [reflexivity|].
  split; [vm_compute in E; injection E as <- <-; reflexivity|].
  rewrite (proj1 (stream_sends_as_many_characters_as_longest_snapshot _ _ _ _ _ _ E)).
  reflexivity.
Defined.

(** ** Stream and unary text agree at every point *)

Lemma Generate_text t0 request rs s s1 f1 :
  Generate t0 request rs s = Some (s1, f1) ->
  g_full_text f1 = List.last (texts (snapshots_of rs)) "".
Proof.
  unfold Generate, Generate_call, guard_aenter. intros H.
  apply Generate_session_text in H as [H _]; [exact H|reflexivity].
Qed.

(** X5: when the snapshots delivered so far are cumulative, then at any
    point of a streaming call, also one that failed or was cancelled,
    the deltas sent concatenate to the text of the latest snapshot with
    outputs; a unary call that has been delivered the same snapshots
    holds that same text. *)
Theorem stream_text_is_latest_snapshot t0 request rs s s1 f1 :
  StreamGenerate t0 request rs s = Some (s1, f1) ->
  cumulative (texts (snapshots_of rs)) = true ->
  join (delta_texts (s_sent f1)) = List.last (texts (snapshots_of rs)) "" /\
  forall t0' request' rs' s' s1' g1,
    Generate t0' request' rs' s' = Some (s1', g1) ->
    snapshots_of rs' = snapshots_of rs ->
    g_full_text g1 = join (delta_texts (s_sent f1)).
Proof.
  intros H Hcum.
  assert (Hjoin : join (delta_texts (s_sent f1)) = List.last (texts (snapshots_of rs)) "").
  { rewrite (StreamGenerate_deltas _ _ _ _ _ _ H).
    rewrite <- cumulative_from_empty in Hcum.
    apply (deltas_rebuild _ "" Hcum). }
  split; [exact Hjoin|].
  intros t0' request' rs' s' s1' g1 Hg Hsame.
  rewrite (Generate_text _ _ _ _ _ _ Hg), Hsame, Hjoin. reflexivity.
Qed.

Lemma stream_text_is_latest_snapshot_witness :
  exists s1 f1,
    StreamGenerate 1 hello
      ((1%Q, SemAcquired) :: yields (take 2 hello_snapshots) ++ [(4%Q, CancelledError)])
      (fresh_server 1) = Some (s1, f1) /\
    s_result f1 = Some ReturnedOnCancel /\
    join (delta_texts (s_sent f1)) = "He".
Proof.
  destruct (StreamGenerate 1 hello
              ((1%Q, SemAcquired) :: yields (take 2 hello_snapshots)
                 ++ [(4%Q, CancelledError)]) (fresh_server 1))
    as [[s1 f1]|] eqn:E; [|vm_compute in E; discriminate E].
  exists s1, f1. split; [reflexivity|].
  split; [vm_compute in E; injection E as <- <-; reflexivity|].
  rewrite (proj1 (stream_text_is_latest_snapshot _ _ _ _ _ _ E eq_refl)).
  reflexivity.
Defined.

(** ** A stream observes when it first sends *)

Lemma first_text_time_none_iff rs :
  first_text_time rs = None <-> deltas_from 0 (texts (snapshots_of rs)) = [].
Proof.
  induction rs as [|[now r] rs IH]; [split; reflexivity|].
  rewrite snapshots_of_cons.
  destruct r as [|out| | |]; simpl first_text_time; try exact IH.
  rewrite texts_cons. unfold has_text.
  destruct (snapshot_text out) as [t|]; [|exact IH].
  cbn [deltas_from]. rewrite str_truthy_length.
  destruct (0 <? String.length t)%nat; [split; discriminate|exact IH].
Qed.

(** X6: a streaming call has added its observation to the
    time-to-first-output histogram exactly if it has sent at least one
    delta: a stream that sent nothing (no text yet, failed or cancelled
    before any text) has observed nothing, and the first delta and the
    observation come together. *)
Theorem stream_observes_iff_it_sent t0 request rs s s1 f1 :
  StreamGenerate t0 request rs s = Some (s1, f1) ->
  (delta_texts (s_sent f1) = [] <-> TTFT_HIST s1 = TTFT_HIST s) /\
  (delta_texts (s_sent f1) <> [] <->
   length (TTFT_HIST s1) = S (length (TTFT_HIST s))).
Proof.
  intros H.
  pose proof (StreamGenerate_ttft _ _ _ _ _ _ H) as Hobs.
  rewrite (StreamGenerate_deltas _ _ _ _ _ _ H).
  pose proof (first_text_time_none_iff rs) as Hiff.
  unfold ttft_of_session in Hobs.
  destruct (first_text_time rs) as [t|] eqn:Ht.
  - assert (Hne : deltas_from 0 (texts (snapshots_of rs)) <> []).
    { intros E. apply Hiff in E. discriminate. }
    rewrite Hobs, length_app. simpl. split; split; intros Hx.
    + contradiction.
    + exfalso. apply (f_equal (@length Q)) in Hx. rewrite length_app in Hx.
      simpl in Hx. lia.
    + lia.
    + exact Hne.
  - assert (He : deltas_from 0 (texts (snapshots_of rs)) = []) by now apply Hiff.
    rewrite Hobs, app_nil_r, He. split; split; intros Hx; try reflexivity.
    + contradiction.
    + lia.
Qed.

Lemma stream_observes_iff_it_sent_witness :
  exists s1 f1,
    StreamGenerate 1 hello (completed_session 1 silent_snapshots 5) (fresh_server 1)
    = Some (s1, f1) /\
    s_sent f1 = [end_marker] /\
    TTFT_HIST s1 = TTFT_HIST (fresh_server 1).
Proof.
  destruct (StreamGenerate 1 hello (completed_session 1 silent_snapshots 5)
              (fresh_server 1)) as [[s1 f1]|] eqn:E; [|vm_compute in E; discriminate E].
  exists s1, f1. split; [reflexivity|].
  assert (Hsent : s_sent f1 = [end_marker])
    by (vm_compute in E; injection E as <- <-; reflexivity).
  split; [exact Hsent|].
  apply (proj1 (stream_observes_iff_it_sent _ _ _ _ _ _ E)).
  rewrite Hsent. reflexivity.
Defined.

(** ** What a finished call leaves in the admission state *)








(** ** The parameters handed to the engine *)


(** ** When the monitor ends *)

Lemma monitor_app pre rest : forall m,
  monitor_vllm_internal_queue (pre ++ rest) m
  = match monitor_vllm_internal_queue pre m with
    | Looping m1 => monitor_vllm_internal_queue rest m1
    | Ended m1 => Ended m1
    end.
Proof.
  induction pre as [|t pre IH]; intros m; simpl; [reflexivity|].
  destruct (monitor_iteration t m); [apply IH|reflexivity].
Qed.

Lemma monitor_iteration_disturbed t m :
  undisturbed t = false ->
  monitor_iteration t m
  = Ended (match published t with
           | Some v => publish v m
           | None => m
           end).
Proof.
  unfold undisturbed, monitor_iteration, monitor_try, published.
  destruct (status_query t) as [stats|e|]; [| |reflexivity].
  - intros H. apply negb_false_iff in H. rewrite H.
    destruct (as_number (getattr_waiting stats)); reflexivity.
  - intros H. apply negb_false_iff in H. now rewrite H.
Qed.

(** X9: the monitor leaves its loop at the first iteration in which a
    cancellation reaches it, in the query or in the sleep, and not
    before; whatever the engine would have answered later is never asked
    for. Up to then it has slept 5 seconds once per completed iteration,
    and a backlog obtained in the last iteration is still published
    before a cancelled sleep ends the task. *)
Theorem monitor_ends_at_first_cancellation pre t post m :
  forallb undisturbed pre = true ->
  undisturbed t = false ->
  exists m1,
    monitor_vllm_internal_queue (pre ++ t :: post) m = Ended m1 /\
    effects m1 = effects m ++ flat_map tick_effects pre
                 ++ match published t with Some v => [GaugeSet v] | None => [] end /\
    sleeps (effects m1) = sleeps (effects m) ++ replicate (length pre) 5 /\
    VLLM_INTERNAL_WAITING m1
    = fold_left (fun g t => gauge_after t g) (pre ++ [t]) (VLLM_INTERNAL_WAITING m).
Proof.
  intros Hpre Ht.
  destruct (monitor_loop_undisturbed pre m Hpre) as (m0 & Hrun & Heff & Hsl & Hg).
  rewrite monitor_app, Hrun. cbn [monitor_vllm_internal_queue].
  rewrite (monitor_iteration_disturbed t m0 Ht).
  eexists. split; [reflexivity|].
  rewrite fold_left_app. cbn [fold_left]. unfold gauge_after at 1.
  destruct (published t) as [v|]; simpl.
  - split; [now rewrite Heff, <- app_assoc|].
    split; [|reflexivity]. rewrite sleeps_app. simpl. rewrite app_nil_r. exact Hsl.
  - rewrite app_nil_r. split; [exact Heff|]. split; [exact Hsl|exact Hg].
Qed.

Lemma monitor_ends_at_first_cancellation_witness :
  forallb undisturbed (take 2 monitor_ticks) = true /\
  undisturbed {| status_query := Gives {| num_waiting_requests := Some (PyBool true) |};
                 sleep_cancelled := true |} = false /\
  exists m1,
    monitor_vllm_internal_queue
      (take 2 monitor_ticks
       ++ {| status_query := Gives {| num_waiting_requests := Some (PyBool true) |};
             sleep_cancelled := true |} :: drop 2 monitor_ticks) monitor_start
    = Ended m1 /\
    effects m1 = [GaugeSet (inject_Z 3); Slept 5; Slept 5; GaugeSet 1] /\
    VLLM_INTERNAL_WAITING m1 = 1%Q.
Proof.
  split; [reflexivity|]. split; [reflexivity|].
  destruct (monitor_ends_at_first_cancellation (take 2 monitor_ticks)
              {| status_query := Gives {| num_waiting_requests := Some (PyBool true) |};
                 sleep_cancelled := true |}
              (drop 2 monitor_ticks) monitor_start eq_refl eq_refl)
    as (m1 & Hrun & Heff & _ & Hg).
  exists m1. split; [exact Hrun|]. split; [exact Heff|exact Hg].
Defined.

(** * The clients of the gateway *)

(** ** What the receiving loop computes *)

Lemma receive_spec messages : forall start ttft reply_text,
  receive start ttft reply_text messages
  = (match ttft with
     | Some _ => ttft
     | None => option_map (fun now => elapsed_ms now start) (head (map fst messages))
     end,
     reply_text +:+ join (map tok_text (before_marker (map snd messages))),
     existsb is_last (map snd messages)).
Proof.
  induction messages as [|[now tok] rest IH]; intros start ttft reply_text.
  - simpl. rewrite append_empty_r. now destruct ttft.
  - cbn [receive map fst snd before_marker existsb head option_map].
    destruct (is_last tok) eqn:Hl.
    + simpl. rewrite append_empty_r. now destruct ttft.
    + rewrite IH. cbn [orb map join fold_right].
      fold (join (map tok_text (before_marker (map snd rest)))).
      rewrite append_assoc. now destruct ttft.
Qed.

Lemma before_marker_app pre rest :
  Forall (fun tok => is_last tok = false) pre ->
  before_marker (pre ++ rest) = pre ++ before_marker rest.
Proof.
  induction 1 as [|tok pre Hl _ IH]; [reflexivity|].
  simpl. now rewrite Hl, IH.
Qed.

Lemma existsb_marker_app pre rest :
  Forall (fun tok => is_last tok = false) pre ->
  existsb is_last (pre ++ rest) = existsb is_last rest.
Proof.
  induction 1 as [|tok pre Hl _ IH]; [reflexivity|].
  simpl. now rewrite Hl, IH.
Qed.

Lemma deltas_are_not_markers ds :
  Forall (fun tok => is_last tok = false) (map delta_token ds).
Proof. induction ds; constructor; auto. Qed.

Lemma delta_token_texts ds : map tok_text (map delta_token ds) = ds.
Proof. induction ds as [|d ds IH]; [reflexivity|]. simpl. now rewrite IH. Qed.

Lemma StreamGenerate_sent t0 request rs s s1 f1 :
  StreamGenerate t0 request rs s = Some (s1, f1) ->
  s_sent f1 = map delta_token (deltas_from 0 (texts (snapshots_of rs)))
              ++ closing (s_result f1).
Proof.
  unfold StreamGenerate, StreamGenerate_call, guard_aenter. intros H.
  apply StreamGenerate_session_sent in H; [exact H|reflexivity].
Qed.

(** ** The client stops at the end marker *)

(** X10: once the benchmark client has read a message with is_last set
    it leaves the loop: the messages behind it and the way the call ends
    afterwards, a failure included, do not change its result, and the
    text of the end marker itself is not added to the reply. The result
    has the time to the first message, the total time and the preview of
    the texts received before the marker. *)
Theorem client_stops_at_end_marker prompt idx max_new_tokens temperature x pre t tok post :
  x_ready x = true ->
  x_messages x = pre ++ (t, tok) :: post ->
  Forall (fun m => is_last (snd m) = false) pre ->
  is_last tok = true ->
  run_request prompt idx max_new_tokens temperature x
  = PyReturn (Measured idx
                (Some (elapsed_ms (List.hd t (map fst pre)) (x_start x)))
                (elapsed_ms (x_done x) (x_start x))
                (preview (join (map tok_text (map snd pre))))).
Proof.
  intros Hready Hmsg Hpre Hlast.
  unfold run_request. rewrite Hready, receive_spec, Hmsg.
  assert (Hpre' : Forall (fun tok => is_last tok = false) (map snd pre)).
  { apply Forall_map. exact Hpre. }
  rewrite !map_app. cbn [map fst snd].
  rewrite (existsb_marker_app _ _ Hpre'), (before_marker_app _ _ Hpre').
  cbn [existsb before_marker]. rewrite Hlast. cbn [orb].
  rewrite app_nil_r. simpl String.append.
  destruct pre as [|[t1 tok1] pre]; reflexivity.
Qed.

Lemma client_stops_at_end_marker_witness :
  run_request "hi" 7 10 (7 # 10)
    {| x_ready := true; x_start := 1;
       x_messages := [ (2, delta_token "He"); (5, delta_token "llo"); (6, end_marker);
                       (8, delta_token "ignored") ]%Q;
       x_end := RpcError "StatusCode.INTERNAL" "late failure"; x_done := 9 |}
  = PyReturn (Measured 7 (Some (elapsed_ms 2 1)) (elapsed_ms 9 1) "Hello").
Proof.
  rewrite (client_stops_at_end_marker "hi" 7 10 (7 # 10) _
             [ (2, delta_token "He"); (5, delta_token "llo") ]%Q
             6%Q end_marker [ (8%Q, delta_token "ignored") ]);
    [reflexivity|reflexivity|reflexivity|repeat constructor|reflexivity].
Defined.

(** ** A failed call as the client sees it *)

Lemma StreamGenerate_raised t0 request pre t e s s1 f1 :
  StreamGenerate t0 request (pre ++ [(t, EngineRaises e)]) s = Some (s1, f1) ->
  s_result f1 = Some (Aborted INTERNAL (abort_details e)).
Proof.
  unfold StreamGenerate, StreamGenerate_call, guard_aenter.
  rewrite StreamGenerate_session_app.
  match goal with
  | |- context [StreamGenerate_session pre ?s0 ?f0] =>
      destruct (StreamGenerate_session pre s0 f0) as [[s2 f2]|]; [|discriminate]
  end.
  cbn [StreamGenerate_session]. unfold StreamGenerate_resume.
  destruct (s_result f2); [discriminate|].
  destruct (s_guard f2); simpl; try discriminate.
  now intros [= <- <-].
Qed.

Lemma run_request_failed prompt idx max_new_tokens temperature x code details :
  x_ready x = true ->
  existsb is_last (map snd (x_messages x)) = false ->
  x_end x = RpcError code details ->
  run_request prompt idx max_new_tokens temperature x
  = PyReturn (Errored idx (code +:+ " " +:+ details)).
Proof.
  intros Hready Hno Hend. unfold run_request.
  now rewrite Hready, receive_spec, Hno, Hend.
Qed.

(** X11: when the engine raises inside a streaming call, the benchmark
    client that receives that call gets no measurement at all, however
    many deltas had reached it before: its result carries neither a time
    to first token nor a total time, only the error text made of the
    status INTERNAL and the gateway's diagnostic with the exception's
    type and message. *)
Theorem client_reports_engine_failure
        t0 request pre t e s s1 f1 prompt idx max_new_tokens temperature x :
  StreamGenerate t0 request (pre ++ [(t, EngineRaises e)]) s = Some (s1, f1) ->
  delivered f1 x ->
  x_ready x = true ->
  run_request prompt idx max_new_tokens temperature x
  = PyReturn (Errored idx ("StatusCode.INTERNAL vLLM error: "
                           +:+ exc_type e +:+ ": " +:+ exc_str e)).
Proof.
  intros Hrun [Hmsg Hend] Hready.
  pose proof (StreamGenerate_raised _ _ _ _ _ _ _ _ Hrun) as Hres.
  pose proof (StreamGenerate_sent _ _ _ _ _ _ Hrun) as Hsent.
  rewrite Hres in Hend, Hsent. simpl in Hsent. rewrite app_nil_r in Hsent.
  rewrite (run_request_failed prompt idx max_new_tokens temperature x
             (status_str INTERNAL) (abort_details e) Hready); [reflexivity| |exact Hend].
  rewrite Hmsg, Hsent.
  rewrite <- (app_nil_r (map delta_token _)).
  now rewrite (existsb_marker_app _ [] (deltas_are_not_markers _)).
Qed.

Lemma client_reports_engine_failure_witness :
  exists s1 f1,
    StreamGenerate 1 hello
      (((1%Q, SemAcquired) :: yields (take 1 hello_snapshots))
       ++ [(3%Q, EngineRaises {| exc_type := "RuntimeError";
                                 exc_str := "CUDA out of memory" |})])
      (fresh_server 1) = Some (s1, f1) /\
    delivered f1 failed_exchange /\
    run_request "hi" 7 10 (7 # 10) failed_exchange
    = PyReturn (Errored 7 "StatusCode.INTERNAL vLLM error: RuntimeError: CUDA out of memory").
Proof.
  destruct (StreamGenerate 1 hello
              (((1%Q, SemAcquired) :: yields (take 1 hello_snapshots))
               ++ [(3%Q, EngineRaises {| exc_type := "RuntimeError";
                                         exc_str := "CUDA out of memory" |})])
              (fresh_server 1)) as [[s1 f1]|] eqn:E; [|vm_compute in E; discriminate E].
  assert (Hd : delivered f1 failed_exchange).
  { vm_compute in E. injection E as <- <-. split; reflexivity. }
  exists s1, f1. split; [reflexivity|]. split; [exact Hd|].
  exact (client_reports_engine_failure _ _ _ _ _ _ _ _ "hi" 7 10 (7 # 10)
           failed_exchange E Hd eq_refl).
Defined.

(** ** The reply the client shows *)

(** X12: when a streaming call over cumulative snapshots has run to its
    end, the benchmark client that receives it returns a measurement
    whose reply is the preview (the first 60 characters, then "..." if
    there are more) of the text of the last snapshot, which is the
    preview of what the unary Generate replies for the same snapshots;
    and it has a time to first token. *)
Theorem client_previews_the_unary_reply
        t0 request rs s s1 f1 prompt idx max_new_tokens temperature x :
  StreamGenerate t0 request rs s = Some (s1, f1) ->
  s_result f1 = Some (Returned tt) ->
  cumulative (texts (snapshots_of rs)) = true ->
  delivered f1 x ->
  x_ready x = true ->
  (exists ttft,
      run_request prompt idx max_new_tokens temperature x
      = PyReturn (Measured idx (Some ttft) (elapsed_ms (x_done x) (x_start x))
                    (preview (List.last (texts (snapshots_of rs)) "")))) /\
  (forall t0' request' rs' s' s1' g1 reply,
      Generate t0' request' rs' s' = Some (s1', g1) ->
      g_result g1 = Some (Returned reply) ->
      snapshots_of rs' = snapshots_of rs ->
      reply_text reply = List.last (texts (snapshots_of rs)) "").
Proof.
  intros Hrun Hres Hcum [Hmsg _] Hready. split.
  - pose proof (StreamGenerate_sent _ _ _ _ _ _ Hrun) as Hsent.
    rewrite Hres in Hsent. simpl in Hsent.
    unfold run_request. rewrite Hready, receive_spec, Hmsg, Hsent.
    rewrite (existsb_marker_app _ _ (deltas_are_not_markers _)).
    rewrite (before_marker_app _ _ (deltas_are_not_markers _)).
    cbn [existsb before_marker end_marker is_last orb].
    rewrite app_nil_r, delta_token_texts. simpl String.append.
    rewrite <- cumulative_from_empty in Hcum.
    pose proof (deltas_rebuild _ "" Hcum) as Hjoin. simpl in Hjoin. rewrite Hjoin.
    destruct (x_messages x) as [|[now tok] rest] eqn:Hx.
    + simpl in Hmsg. rewrite Hsent in Hmsg.
      destruct (deltas_from 0 (texts (snapshots_of rs))); discriminate.
    + eexists. reflexivity.
  - intros t0' request' rs' s' s1' g1 reply Hg Hr Hsame.
    unfold Generate, Generate_call, guard_aenter in Hg.
    apply Generate_session_text in Hg as [Htext Hreply]; [|reflexivity].
    rewrite (Hreply reply Hr), Htext, Hsame. reflexivity.
Qed.

Lemma client_previews_the_unary_reply_witness :
  exists s1 f1,
    StreamGenerate 1 hello (completed_session 1 hello_snapshots 6) (fresh_server 1)
    = Some (s1, f1) /\
    delivered f1 hello_exchange /\
    exists ttft,
      run_request "hi" 7 10 (7 # 10) hello_exchange
      = PyReturn (Measured 7 (Some ttft) (elapsed_ms 7 1) "Hello").
Proof.
  destruct (StreamGenerate 1 hello (completed_session 1 hello_snapshots 6)
              (fresh_server 1)) as [[s1 f1]|] eqn:E; [|vm_compute in E; discriminate E].
  assert (Hres : s_result f1 = Some (Returned tt))
    by (vm_compute in E; injection E as <- <-; reflexivity).
  assert (Hd : delivered f1 hello_exchange).
  { vm_compute in E. injection E as <- <-. split; reflexivity. }
  exists s1, f1. split; [reflexivity|]. split; [exact Hd|].
  exact (proj1 (client_previews_the_unary_reply _ _ _ _ _ _ "hi" 7 10 (7 # 10)
                  hello_exchange E Hres eq_refl Hd eq_refl)).
Defined.


(** ** What the client times *)

Lemma first_arrival_head x : first_arrival x = head (map fst (x_messages x)).
Proof. unfold first_arrival. now destruct (x_messages x) as [|[now tok] rest]. Qed.

Lemma run_request_measured prompt idx max_new_tokens temperature x id ttft total reply :
  run_request prompt idx max_new_tokens temperature x
  = PyReturn (Measured id ttft total reply) ->
  id = idx /\
  total = elapsed_ms (x_done x) (x_start x) /\
  ttft = option_map (fun now => elapsed_ms now (x_start x)) (first_arrival x).
Proof.
  unfold run_request. destruct (x_ready x); [|discriminate].
  rewrite receive_spec, first_arrival_head.
  destruct (existsb is_last (map snd (x_messages x))).
  - intros [= <- <- <- <-]. auto.
  - destruct (x_end x); try discriminate. intros [= <- <- <- <-]. auto.
Qed.

(** X13: whenever the benchmark client returns a measurement, its total
    time is the time from the start of the call to the reading after the
    loop, and its time to first token is the time from the start to the
    first message of the stream, whatever that message holds, and is
    missing only when no message came.  If the wall clock did not go
    back during the call, the time to first token lies between 0 and
    the total time. *)
Theorem client_ttft_is_time_to_first_message
        prompt idx max_new_tokens temperature x id ttft total reply :
  run_request prompt idx max_new_tokens temperature x
  = PyReturn (Measured id ttft total reply) ->
  id = idx /\
  total = elapsed_ms (x_done x) (x_start x) /\
  ttft = option_map (fun now => elapsed_ms now (x_start x)) (first_arrival x) /\
  (ttft = None <-> x_messages x = []) /\
  (nondecreasing (x_start x :: map fst (x_messages x) ++ [x_done x]) ->
   forall v, ttft = Some v -> (0 <= v)%Q /\ (v <= total)%Q).
Proof.
  intros H. apply run_request_measured in H as (-> & -> & ->).
  split; [reflexivity|]. split; [reflexivity|]. split; [reflexivity|]. split.
  - unfold first_arrival. destruct (x_messages x) as [|[now tok] rest]; simpl.
    + split; reflexivity.
    + split; discriminate.
  - intros Hclock v. unfold first_arrival.
    destruct (x_messages x) as [|[now tok] rest]; [discriminate|].
    simpl. intros [= <-].
    assert (Hin : In now (map fst ((now, tok) :: rest) ++ [x_done x]))
      by (simpl; left; reflexivity).
    destruct (nondecreasing_bounds _ _ _ Hclock Hin) as [H1 H2].
    rewrite last_last in H2.
    split; [now apply elapsed_ms_nonneg|now apply elapsed_ms_mono].
Qed.

Lemma client_ttft_is_time_to_first_message_witness :
  run_request "hi" 7 10 (7 # 10) hello_exchange
  = PyReturn (Measured 7 (Some (elapsed_ms 2 1)) (elapsed_ms 7 1) "Hello") /\
  nondecreasing (x_start hello_exchange
                 :: map fst (x_messages hello_exchange) ++ [x_done hello_exchange]) /\
  (0 <= elapsed_ms 2 1)%Q /\ (elapsed_ms 2 1 <= elapsed_ms 7 1)%Q.
Proof.
  assert (Hrun : run_request "hi" 7 10 (7 # 10) hello_exchange
                 = PyReturn (Measured 7 (Some (elapsed_ms 2 1)) (elapsed_ms 7 1) "Hello"))
    by reflexivity.
  assert (Hclock : nondecreasing
                     (x_start hello_exchange
                      :: map fst (x_messages hello_exchange) ++ [x_done hello_exchange])).
  { simpl. repeat split; unfold Qle; simpl; lia. }
  split; [exact Hrun|]. split; [exact Hclock|].
  destruct (client_ttft_is_time_to_first_message _ _ _ _ _ _ _ _ _ Hrun)
    as (_ & _ & _ & _ & Hb).
  exact (Hb Hclock _ eq_refl).
Defined.

Lemma snapshots_of_yields (touts : list (Q * RequestOutput)) :
  snapshots_of (yields touts) = map snd touts.
Proof.
  induction touts as [|[now out] touts IH]; [reflexivity|].
  unfold yields in *. rewrite map_cons, snapshots_of_cons. simpl. now rewrite IH.
Qed.

Lemma silent_sends_nothing (touts : list (Q * RequestOutput)) :
  Forall (fun to => has_text (snd to) = false) touts ->
  deltas_from 0 (texts (map snd touts)) = [].
Proof.
  intros Hsilent. rewrite <- snapshots_of_yields.
  apply first_text_time_none_iff, first_text_time_silent, Hsilent.
Qed.

(** X14: the two ends time different things.  A streaming call that is
    admitted and whose engine sequence ends without any snapshot
    carrying text adds nothing to the gateway's TTFT histogram; the
    benchmark client that receives this call still reports a time to
    first token, measured at the arrival of the end marker, with an
    empty reply. *)
Theorem client_times_a_call_without_text t0 request tg touts te s :
  0 < admission_sem s ->
  Forall (fun to => has_text (snd to) = false) touts ->
  exists s1 f1,
    StreamGenerate t0 request (completed_session tg touts te) s = Some (s1, f1) /\
    TTFT_HIST s1 = TTFT_HIST s /\
    forall prompt idx max_new_tokens temperature x,
      delivered f1 x -> x_ready x = true ->
      exists now,
        first_arrival x = Some now /\
        run_request prompt idx max_new_tokens temperature x
        = PyReturn (Measured idx (Some (elapsed_ms now (x_start x)))
                      (elapsed_ms (x_done x) (x_start x)) "").
Proof.
  intros Hsem Hsilent.
  destruct (StreamGenerate_completed t0 request tg touts te s Hsem)
    as (s1 & f1 & Hrun & Hres & Hsent).
  exists s1, f1. split; [exact Hrun|]. split.
  - rewrite (StreamGenerate_ttft _ _ _ _ _ _ Hrun).
    unfold ttft_of_session, completed_session. simpl.
    rewrite first_text_time_app, (first_text_time_silent touts Hsilent). simpl.
    apply app_nil_r.
  - intros prompt idx max_new_tokens temperature x [Hmsg _] Hready.
    unfold expected_stream in Hsent.
    rewrite (silent_sends_nothing touts Hsilent) in Hsent. simpl in Hsent.
    rewrite Hsent in Hmsg. unfold run_request, first_arrival. rewrite Hready.
    destruct (x_messages x) as [|[now tok] [|m rest]]; try discriminate.
    injection Hmsg as ->. exists now. split; reflexivity.
Qed.

Lemma client_times_a_call_without_text_witness :
  exists s1 f1,
    StreamGenerate 1 hello (completed_session 1 silent_snapshots 6) (fresh_server 1)
    = Some (s1, f1) /\
    TTFT_HIST s1 = [] /\
    run_request "hi" 7 10 (7 # 10)
      {| x_ready := true; x_start := 1; x_messages := [(6%Q, end_marker)];
         x_end := StopIteration; x_done := 7 |}
    = PyReturn (Measured 7 (Some (elapsed_ms 6 1)) (elapsed_ms 7 1) "").
Proof.
  assert (Hsem : 0 < admission_sem (fresh_server 1)) by (simpl; lia).
  assert (Hsilent : Forall (fun to : Q * RequestOutput => has_text (snd to) = false)
                      silent_snapshots)
    by (repeat constructor).
  destruct (client_times_a_call_without_text 1 hello 1 silent_snapshots 6
              (fresh_server 1) Hsem Hsilent) as (s1 & f1 & Hrun & Hhist & Hclient).
  exists s1, f1. split; [exact Hrun|]. split; [exact Hhist|].
  assert (Hd : delivered f1
                 {| x_ready := true; x_start := 1; x_messages := [(6%Q, end_marker)];
                    x_end := StopIteration; x_done := 7 |}).
  { vm_compute in Hrun. injection Hrun as <- <-. split; reflexivity. }
  destruct (Hclient "hi" 7 10 (7 # 10)%Q _ Hd eq_refl) as (now & Hnow & Hres).
  injection Hnow as <-. exact Hres.
Defined.


(** * The load-test client *)

Lemma listen_spec messages : forall first_token,
  listen first_token messages
  = (match first_token with
     | Some _ => first_token
     | None => head (map fst messages)
     end,
     existsb is_last (map snd messages)).
Proof.
  induction messages as [|[now tok] rest IH]; intros first_token; simpl.
  - now destruct first_token.
  - destruct (is_last tok); simpl.
    + now destruct first_token.
    + rewrite IH. now destruct first_token.
Qed.

Lemma single_request_ready req_id prompt max_new_tokens temperature x :
  x_ready x = true ->
  let r := single_request req_id prompt max_new_tokens temperature x in
  r_start r = x_start x /\ r_end r = x_done x /\
  r_first_token r = first_arrival x /\
  r_status r = (if existsb is_last (map snd (x_messages x)) then 200
                else match x_end x with StopIteration => 200 | _ => -1 end) /\
  (existsb is_last (map snd (x_messages x)) = false ->
   forall code details, x_end x = RpcError code details ->
                        r_error r = Some (code +:+ " " +:+ details)).
Proof.
  intros Hready. unfold single_request.
  rewrite Hready, listen_spec, first_arrival_head.
  destruct (existsb is_last (map snd (x_messages x))); simpl.
  - repeat split; try reflexivity. discriminate.
  - destruct (x_end x); simpl; repeat split; try reflexivity;
      intros _ code' details'; try discriminate.
    now intros [= <- <-].
Qed.

(** X15: the load-test client files a request under "successful", and
    so into its TTFT and latency statistics, exactly when the channel
    became ready and at least one message arrived; the status plays no
    part in that.  The status is 200 exactly when the channel became
    ready and the stream reached its end marker or ended without error,
    and is -1 otherwise.  When the monotonic clock readings are in
    order, the first token lies between the start and the end, so a
    request's TTFT is between 0 and its full latency. *)
Theorem request_is_successful_iff_a_message_arrived
        req_id prompt max_new_tokens temperature x :
  (successful (single_request req_id prompt max_new_tokens temperature x) = true
   <-> x_ready x = true /\ x_messages x <> []) /\
  (r_status (single_request req_id prompt max_new_tokens temperature x) = 200
   <-> x_ready x = true /\
       (existsb is_last (map snd (x_messages x)) = true \/ x_end x = StopIteration)) /\
  (r_status (single_request req_id prompt max_new_tokens temperature x) <> 200 ->
   r_status (single_request req_id prompt max_new_tokens temperature x) = -1) /\
  (nondecreasing (x_start x :: map fst (x_messages x) ++ [x_done x]) ->
   forall t,
     r_first_token (single_request req_id prompt max_new_tokens temperature x) = Some t ->
     (r_start (single_request req_id prompt max_new_tokens temperature x) <= t)%Q /\
     (t <= r_end (single_request req_id prompt max_new_tokens temperature x))%Q).
Proof.
  destruct (x_ready x) eqn:Hready.
  - destruct (single_request_ready req_id prompt max_new_tokens temperature x Hready)
      as (Hstart & Hend & Hfirst & Hstatus & _).
    unfold successful. rewrite Hstart, Hend, Hfirst, Hstatus. clear.
    unfold first_arrival. split; [|split; [|split]].
    + destruct (x_messages x) as [|[now tok] rest].
      * split; [discriminate|]. intros [_ H]. now contradiction H.
      * split; [|reflexivity]. intros _. split; [reflexivity|discriminate].
    + destruct (existsb is_last (map snd (x_messages x))).
      * split; [|reflexivity]. intros _. split; [reflexivity|now left].
      * destruct (x_end x).
        -- split; [|reflexivity]. intros _. split; [reflexivity|now right].
        -- split; [discriminate|]. intros [_ [H|H]]; discriminate.
        -- split; [discriminate|]. intros [_ [H|H]]; discriminate.
    + destruct (existsb is_last (map snd (x_messages x))); [congruence|].
      destruct (x_end x); congruence.
    + intros Hclock t.
      destruct (x_messages x) as [|[now tok] rest]; [discriminate|].
      intros [= <-].
      assert (Hin : In now (map fst ((now, tok) :: rest) ++ [x_done x]))
        by (simpl; left; reflexivity).
      destruct (nondecreasing_bounds _ _ _ Hclock Hin) as [H1 H2].
      rewrite last_last in H2. split; assumption.
  - unfold single_request, successful. rewrite Hready. simpl.
    split; [|split; [|split]].
    + split; [discriminate|]. intros [H _]. discriminate.
    + split; [discriminate|]. intros [H _]. discriminate.
    + reflexivity.
    + intros _ t. discriminate.
Qed.

Lemma request_is_successful_iff_a_message_arrived_witness :
  nondecreasing (x_start failed_exchange
                 :: map fst (x_messages failed_exchange) ++ [x_done failed_exchange]) /\
  successful (single_request "a1" "hi" 10 (7 # 10) failed_exchange) = true /\
  r_status (single_request "a1" "hi" 10 (7 # 10) failed_exchange) = -1 /\
  (1 <= 2)%Q /\ (2 <= 7)%Q.
Proof.
  assert (Hclock : nondecreasing
                     (x_start failed_exchange
                      :: map fst (x_messages failed_exchange) ++ [x_done failed_exchange])).
  { simpl. repeat split; unfold Qle; simpl; lia. }
  destruct (request_is_successful_iff_a_message_arrived "a1" "hi" 10 (7 # 10)
              failed_exchange) as (Hs & _ & Hst & Hb).
  split; [exact Hclock|].
  split; [apply Hs; split; [reflexivity|discriminate]|].
  split; [apply Hst; discriminate|].
  exact (Hb Hclock 2%Q eq_refl).
Defined.

(** ** A failed call as the load test counts it *)

Lemma task_session_failed rs : forall s t s1 t1,
  task_session rs s t = Some (s1, t1) ->
  task_failed t = false ->
  REQ_FAILED s1 = REQ_FAILED s + (if task_failed t1 then 1 else 0).
Proof.
  induction rs as [|[now r] rs IH]; intros s t s1 t1; simpl.
  - intros [= <- <-] ->. lia.
  - destruct (task_resume now r s t) as [[s2 t2]|] eqn:Hstep; [|discriminate].
    intros Hrest _.
    destruct (task_resume_failed _ _ _ _ _ _ Hstep) as [_ Hcount].
    destruct rs as [|[now' r'] rs'].
    + simpl in Hrest. injection Hrest as <- <-. exact Hcount.
    + assert (Hlive : task_failed t2 = false).
      { simpl in Hrest.
        destruct (task_resume now' r' s2 t2) as [[s3 t3]|] eqn:Hnext; [|discriminate].
        exact (proj1 (task_resume_failed _ _ _ _ _ _ Hnext)). }
      rewrite (IH _ _ _ _ Hrest Hlive), Hcount, Hlive. lia.
Qed.

Lemma StreamGenerate_failed t0 request rs s s1 f1 :
  StreamGenerate t0 request rs s = Some (s1, f1) ->
  REQ_FAILED s1 = REQ_FAILED s + (if task_failed (TStream f1) then 1 else 0).
Proof.
  unfold StreamGenerate, StreamGenerate_call, guard_aenter. intros Hrun.
  match type of Hrun with
  | StreamGenerate_session rs ?s0 ?f0 = _ =>
      pose proof (task_session_Stream rs s0 f0) as Htask; rewrite Hrun in Htask;
      apply task_session_failed in Htask; [|reflexivity]
  end.
  rewrite Htask. reflexivity.
Qed.

Lemma snapshots_of_app rs1 rs2 :
  snapshots_of (rs1 ++ rs2) = snapshots_of rs1 ++ snapshots_of rs2.
Proof. unfold snapshots_of. apply omap_app. Qed.

(** X16: the gateway and the load-test client count the same call
    differently.  When the engine raises inside a streaming call that
    had already sent text, the gateway adds one to
    llm_requests_failed_total, while the load-test client that receives
    the call gives it status -1 with the gateway's diagnostic and still
    files it under "successful", with the arrival of the first delta
    as its first token. *)
Theorem failed_stream_counts_as_successful_request
        t0 request pre t e s s1 f1 req_id prompt max_new_tokens temperature x :
  StreamGenerate t0 request (pre ++ [(t, EngineRaises e)]) s = Some (s1, f1) ->
  first_text_time pre <> None ->
  delivered f1 x ->
  x_ready x = true ->
  REQ_FAILED s1 = REQ_FAILED s + 1 /\
  r_status (single_request req_id prompt max_new_tokens temperature x) = -1 /\
  r_error (single_request req_id prompt max_new_tokens temperature x)
  = Some ("StatusCode.INTERNAL vLLM error: " +:+ exc_type e +:+ ": " +:+ exc_str e) /\
  successful (single_request req_id prompt max_new_tokens temperature x) = true /\
  r_first_token (single_request req_id prompt max_new_tokens temperature x)
  = first_arrival x.
Proof.
  intros Hrun Htext [Hmsg Hend] Hready.
  pose proof (StreamGenerate_raised _ _ _ _ _ _ _ _ Hrun) as Hres.
  pose proof (StreamGenerate_sent _ _ _ _ _ _ Hrun) as Hsent.
  pose proof (StreamGenerate_failed _ _ _ _ _ _ Hrun) as Hcount.
  unfold task_failed in Hcount. simpl in Hcount.
  rewrite Hres in Hend, Hsent, Hcount. simpl in Hsent. rewrite app_nil_r in Hsent.
  rewrite snapshots_of_app in Hsent. simpl in Hsent. rewrite app_nil_r in Hsent.
  split; [exact Hcount|].
  assert (Hno : existsb is_last (map snd (x_messages x)) = false).
  { rewrite Hmsg, Hsent. rewrite <- (app_nil_r (map delta_token _)).
    now rewrite (existsb_marker_app _ [] (deltas_are_not_markers _)). }
  destruct (single_request_ready req_id prompt max_new_tokens temperature x Hready)
    as (_ & _ & Hfirst & Hstatus & Herror).
  rewrite Hno, Hend in Hstatus.
  split; [exact Hstatus|].
  split; [rewrite (Herror Hno _ _ Hend); reflexivity|].
  split; [|exact Hfirst].
  unfold successful. rewrite Hfirst. unfold first_arrival.
  destruct (x_messages x) as [|[now tok] rest]; [|reflexivity].
  exfalso. apply Htext. apply first_text_time_none_iff.
  simpl in Hmsg. rewrite Hsent in Hmsg.
  destruct (deltas_from 0 (texts (snapshots_of pre))); [reflexivity|discriminate].
Qed.

Lemma failed_stream_counts_as_successful_request_witness :
  exists s1 f1,
    StreamGenerate 1 hello
      (((1%Q, SemAcquired) :: yields (take 1 hello_snapshots))
       ++ [(3%Q, EngineRaises {| exc_type := "RuntimeError";
                                 exc_str := "CUDA out of memory" |})])
      (fresh_server 1) = Some (s1, f1) /\
    first_text_time ((1%Q, SemAcquired) :: yields (take 1 hello_snapshots)) = Some 2%Q /\
    delivered f1 failed_exchange /\
    REQ_FAILED s1 = 1 /\
    successful (single_request "a1" "hi" 10 (7 # 10) failed_exchange) = true.
Proof.
  destruct (StreamGenerate 1 hello
              (((1%Q, SemAcquired) :: yields (take 1 hello_snapshots))
               ++ [(3%Q, EngineRaises {| exc_type := "RuntimeError";
                                         exc_str := "CUDA out of memory" |})])
              (fresh_server 1)) as [[s1 f1]|] eqn:E; [|vm_compute in E; discriminate E].
  assert (Hd : delivered f1 failed_exchange).
  { vm_compute in E. injection E as <- <-. split; reflexivity. }
  assert (Htext : first_text_time ((1%Q, SemAcquired) :: yields (take 1 hello_snapshots))
                  <> None) by discriminate.
  destruct (failed_stream_counts_as_successful_request _ _ _ _ _ _ _ _
              "a1" "hi" 10 (7 # 10)%Q failed_exchange E Htext Hd eq_refl)
    as (Hcount & _ & _ & Hs & _).
  exists s1, f1. split; [reflexivity|]. split; [reflexivity|]. split; [exact Hd|].
  split; [exact Hcount|exact Hs].
Defined.


(** * Aggregation in the benchmark *)

Lemma insert_by_id_perm r l : insert_by_id r l ≡ₚ r :: l.
Proof.
  induction l as [|h t IH]; simpl; [reflexivity|].
  destruct (result_id r <=? result_id h); [reflexivity|].
  rewrite IH. apply Permutation_swap.
Qed.

Lemma sort_by_id_perm l : sort_by_id l ≡ₚ l.
Proof.
  induction l as [|r l IH]; simpl; [reflexivity|].
  now rewrite insert_by_id_perm, IH.
Qed.

Lemma insert_by_id_sorted r l :
  StronglySorted id_le l -> StronglySorted id_le (insert_by_id r l).
Proof.
  induction 1 as [|h t Ht IH Hh]; simpl.
  - repeat constructor.
  - destruct (result_id r <=? result_id h) eqn:E.
    + apply Z.leb_le in E. constructor; [now constructor|].
      constructor; [exact E|].
      eapply Forall_impl; [exact Hh|]. unfold id_le. intros x Hx. lia.
    + apply Z.leb_gt in E. constructor; [exact IH|].
      rewrite insert_by_id_perm. constructor; [unfold id_le; lia|exact Hh].
Qed.

Lemma sort_by_id_sorted l : StronglySorted id_le (sort_by_id l).
Proof.
  induction l as [|r l IH]; simpl; [constructor|]. now apply insert_by_id_sorted.
Qed.

Lemma sort_by_id_order l1 l2 :
  l1 ≡ₚ l2 -> NoDup (map result_id l1) -> sort_by_id l1 = sort_by_id l2.
Proof.
  intros Hperm Hnodup.
  apply (StronglySorted_unique_strong id_le); try apply sort_by_id_sorted.
  - intros x1 x2 H1 H2 Hle1 Hle2. unfold id_le in *.
    rewrite sort_by_id_perm in H1. rewrite sort_by_id_perm, <- Hperm in H2.
    assert (Hid : result_id x1 = result_id x2) by lia.
    clear Hle1 Hle2 Hperm. induction l1 as [|a l1 IH]; [inversion H1|].
    simpl in Hnodup. apply NoDup_cons in Hnodup as [Ha Hnodup].
    apply elem_of_cons in H1 as [->|H1]; apply elem_of_cons in H2 as [->|H2]; auto.
    + exfalso. apply Ha. rewrite Hid. apply list_elem_of_In, in_map, list_elem_of_In, H2.
    + exfalso. apply Ha. rewrite <- Hid. apply list_elem_of_In, in_map, list_elem_of_In, H1.
  - now rewrite !sort_by_id_perm.
Qed.

Lemma submitted_id prompts ix r :
  submitted prompts ix = PyReturn r -> result_id r = fst ix.
Proof.
  unfold submitted, run_request. destruct (x_ready (snd ix)); [|discriminate].
  rewrite receive_spec.
  destruct (existsb is_last (map snd (x_messages (snd ix)))).
  - now intros [= <-].
  - destruct (x_end (snd ix)); try discriminate; now intros [= <-].
Qed.

Lemma gather_cons prompts ix rest results :
  gather prompts (ix :: rest) = PyReturn results <->
  exists r rs, submitted prompts ix = PyReturn r /\
               gather prompts rest = PyReturn rs /\ results = r :: rs.
Proof.
  simpl. destruct (submitted prompts ix) as [r|e].
  - destruct (gather prompts rest) as [rs|e].
    + split.
      * intros [= <-]. now exists r, rs.
      * intros (r' & rs' & [= <-] & [= <-] & ->). reflexivity.
    + split; [discriminate|]. now intros (r' & rs' & _ & H & _).
  - split; [discriminate|]. now intros (r' & rs' & H & _).
Qed.

Lemma gather_Forall2 prompts completed : forall results,
  gather prompts completed = PyReturn results <->
  Forall2 (fun ix r => submitted prompts ix = PyReturn r) completed results.
Proof.
  induction completed as [|ix rest IH]; intros results.
  - simpl. split.
    + intros [= <-]. constructor.
    + intros H. inversion H. reflexivity.
  - rewrite gather_cons. split.
    + intros (r & rs & Hr & Hrs & ->). constructor; [exact Hr|now apply IH].
    + intros H. inversion H as [|? r ? rs Hr Hrs]; subst.
      exists r, rs. split; [exact Hr|]. split; [now apply IH|reflexivity].
Qed.

Lemma gather_ids prompts completed results :
  gather prompts completed = PyReturn results ->
  map result_id results = map fst completed.
Proof.
  rewrite gather_Forall2. induction 1 as [|ix r completed results Hr _ IH]; [reflexivity|].
  simpl. now rewrite (submitted_id _ _ _ Hr), IH.
Qed.

Lemma gather_total prompts completed :
  Forall (fun ix => exists r, submitted prompts ix = PyReturn r) completed ->
  exists results, gather prompts completed = PyReturn results.
Proof.
  induction 1 as [|ix rest [r Hr] _ [rs Hrs]]; [now exists []|].
  exists (r :: rs). apply gather_cons. now exists r, rs.
Qed.

Lemma gather_perm prompts completed completed' :
  completed ≡ₚ completed' ->
  forall results, gather prompts completed = PyReturn results ->
  exists results', gather prompts completed' = PyReturn results' /\ results ≡ₚ results'.
Proof.
  induction 1 as [|ix l l' _ IH|ix iy l|l l' l'' _ IH1 _ IH2]; intros results.
  - intros H. now exists results.
  - rewrite gather_cons. intros (r & rs & Hr & Hrs & ->).
    destruct (IH _ Hrs) as (rs' & Hrs' & Hperm).
    exists (r :: rs'). split; [apply gather_cons; now exists r, rs'|].
    now constructor.
  - rewrite gather_cons. intros (ry & rs0 & Hy & Hrest & ->).
    apply gather_cons in Hrest as (rx & rs & Hx & Hrs & ->).
    exists (rx :: ry :: rs). split; [|apply Permutation_swap].
    apply gather_cons. exists rx, (ry :: rs). split; [exact Hx|]. split; [|reflexivity].
    apply gather_cons. now exists ry, rs.
  - intros H. destruct (IH1 _ H) as (rs' & Hrs' & Hperm').
    destruct (IH2 _ Hrs') as (rs'' & Hrs'' & Hperm'').
    exists rs''. split; [exact Hrs''|]. now rewrite Hperm'.
Qed.

Lemma a_run_of_NoDup concurrency completed :
  a_run_of concurrency completed -> NoDup (map fst completed).
Proof.
  unfold a_run_of. intros ->. generalize 0%nat (Z.to_nat concurrency).
  intros n m. revert n. induction m as [|m IH]; intros n; simpl; constructor.
  - rewrite list_elem_of_In, in_map_iff. intros (k & Hk & Hin).
    apply in_seq in Hin. lia.
  - apply IH.
Qed.

(** X17: the result of a benchmark run does not depend on the order in
    which its requests complete.  When the run's requests are those
    numbered 0 to concurrency-1 and the run returns its averages and
    its list of valid TTFTs, then the same requests completing in any
    other order give the same averages and the same list, in the same
    order. *)
Theorem benchmark_does_not_depend_on_completion_order
        prompts concurrency completed completed' v :
  a_run_of concurrency completed ->
  completed ≡ₚ completed' ->
  benchmark_concurrent prompts concurrency completed = PyReturn v ->
  benchmark_concurrent prompts concurrency completed' = PyReturn v.
Proof.
  intros Hrun Hperm. unfold benchmark_concurrent.
  destruct (concurrency <=? 0); [discriminate|].
  destruct prompts as [|p prompts]; [discriminate|].
  destruct (gather (p :: prompts) completed) as [results|e] eqn:Hg; [|discriminate].
  destruct (gather_perm _ _ _ Hperm _ Hg) as (results' & -> & Hres).
  rewrite <- (sort_by_id_order results results' Hres); [trivial|].
  rewrite (gather_ids _ _ _ Hg). exact (a_run_of_NoDup _ _ Hrun).
Qed.

Lemma benchmark_does_not_depend_on_completion_order_witness :
  a_run_of 2 [(1, failed_exchange); (0, hello_exchange)] /\
  benchmark_concurrent ["What is Kubernetes?"] 2 [(1, failed_exchange); (0, hello_exchange)]
  = PyReturn (average_or_zero [elapsed_ms 2 1], average_or_zero [elapsed_ms 7 1],
              [elapsed_ms 2 1]) /\
  benchmark_concurrent ["What is Kubernetes?"] 2 [(0, hello_exchange); (1, failed_exchange)]
  = PyReturn (average_or_zero [elapsed_ms 2 1], average_or_zero [elapsed_ms 7 1],
              [elapsed_ms 2 1]).
Proof.
  assert (Hrun : a_run_of 2 [(1, failed_exchange); (0, hello_exchange)])
    by apply Permutation_swap.
  assert (Hv : benchmark_concurrent ["What is Kubernetes?"] 2
                 [(1, failed_exchange); (0, hello_exchange)]
               = PyReturn (average_or_zero [elapsed_ms 2 1],
                           average_or_zero [elapsed_ms 7 1], [elapsed_ms 2 1]))
    by reflexivity.
  split; [exact Hrun|]. split; [exact Hv|].
  exact (benchmark_does_not_depend_on_completion_order _ _ _ _ _ Hrun
           (Permutation_swap _ _ _) Hv).
Defined.


Lemma gather_raises prompts completed ix e :
  In ix completed -> submitted prompts ix = PyRaise e ->
  exists e', gather prompts completed = PyRaise e'.
Proof.
  intros Hin He. induction completed as [|iy rest IH]; [destruct Hin|].
  simpl. destruct Hin as [->|Hin].
  - rewrite He. now exists e.
  - destruct (submitted prompts iy) as [r|e1]; [|now exists e1].
    destruct (IH Hin) as [e' ->]. now exists e'.
Qed.

Lemma multi_run_loop_raises prompts concurrency sessions session e :
  In session sessions ->
  benchmark_concurrent prompts concurrency session = PyRaise e ->
  forall a b c, exists e', multi_run_loop prompts concurrency sessions a b c = PyRaise e'.
Proof.
  intros Hin He. induction sessions as [|s rest IH]; [destruct Hin|].
  intros a b c. simpl. destruct Hin as [->|Hin].
  - rewrite He. now exists e.
  - destruct (benchmark_concurrent prompts concurrency s) as [[[x y] ttfts]|e1];
      [|now exists e1].
    apply (IH Hin).
Qed.

(** X18: one channel that does not become ready takes the whole
    benchmark down.  If any request of a run meets a channel that is
    not ready within the timeout, benchmark_concurrent raises instead of
    returning averages, whatever the other requests measured, and so
    does a benchmark_multi_run that contains this run.  The load-test
    client's single_request, on the same channel, returns a result with
    status -1 that is counted as failed. *)
Theorem unready_channel_aborts_benchmark prompts concurrency completed i x :
  In (i, x) completed ->
  x_ready x = false ->
  (exists e, benchmark_concurrent prompts concurrency completed = PyRaise e) /\
  (forall runs sessions,
      In completed (take (Z.to_nat runs) sessions) ->
      exists e, benchmark_multi_run prompts concurrency runs sessions = PyRaise e) /\
  (forall req_id prompt max_new_tokens temperature,
      r_status (single_request req_id prompt max_new_tokens temperature x) = -1 /\
      successful (single_request req_id prompt max_new_tokens temperature x) = false).
Proof.
  intros Hin Hready.
  assert (Hbc : exists e, benchmark_concurrent prompts concurrency completed = PyRaise e).
  { unfold benchmark_concurrent.
    destruct (concurrency <=? 0); [now exists ValueError|].
    destruct prompts as [|p prompts]; [now exists ModuloByZero|].
    destruct (gather_raises (p :: prompts) completed (i, x) FutureTimeoutError Hin)
      as [e ->]; [|now exists e].
    unfold submitted, run_request. simpl. now rewrite Hready. }
  split; [exact Hbc|]. split.
  - intros runs sessions Hsession. destruct Hbc as [e He].
    unfold benchmark_multi_run.
    destruct (multi_run_loop_raises _ _ _ _ _ Hsession He [] [] []) as [e' ->].
    now exists e'.
  - intros req_id prompt max_new_tokens temperature.
    unfold single_request, successful. now rewrite Hready.
Qed.

Lemma unready_channel_aborts_benchmark_witness :
  In (1, unready_exchange) [(0, hello_exchange); (1, unready_exchange)] /\
  x_ready unready_exchange = false /\
  exists e, benchmark_concurrent ["What is Kubernetes?"] 2
              [(0, hello_exchange); (1, unready_exchange)] = PyRaise e.
Proof.
  assert (Hin : In (1, unready_exchange) [(0, hello_exchange); (1, unready_exchange)])
    by (right; left; reflexivity).
  split; [exact Hin|]. split; [reflexivity|].
  exact (proj1 (unready_channel_aborts_benchmark ["What is Kubernetes?"] 2 _ _ _
                  Hin eq_refl)).
Defined.


Lemma valid_nil get results :
  valid get results = [] <-> Forall (fun r => truthy_ms (get r) = false) results.
Proof.
  unfold valid. induction results as [|r results IH]; simpl.
  - split; [constructor|reflexivity].
  - assert (Hcase : (truthy_ms (get r) = true /\ exists q, get r = Some q)
                    \/ truthy_ms (get r) = false).
    { unfold truthy_ms. destruct (get r) as [q|]; [|now right].
      destruct (negb (Qeq_bool q 0)); [left; eauto|now right]. }
    destruct Hcase as [[Ht [q Hq]]|Hf].
    + rewrite Ht, Hq. split; [discriminate|]. intros H. inversion H. congruence.
    + rewrite Hf, IH. split; [now constructor|]. intros H. now inversion H.
Qed.

Lemma benchmark_concurrent_returns prompts concurrency completed :
  0 < concurrency -> prompts <> [] ->
  Forall (fun ix => exists r, submitted prompts ix = PyReturn r) completed ->
  exists avg_ttft avg_total valid_ttfts,
    benchmark_concurrent prompts concurrency completed
    = PyReturn (avg_ttft, avg_total, valid_ttfts) /\
    (valid_ttfts = [] <->
     Forall (fun ix => forall r, submitted prompts ix = PyReturn r ->
                                 truthy_ms (ttft_ms r) = false) completed).
Proof.
  intros Hc Hp Hall. unfold benchmark_concurrent.
  destruct (concurrency <=? 0) eqn:E; [apply Z.leb_le in E; lia|].
  destruct prompts as [|p prompts]; [contradiction|].
  destruct (gather_total _ _ Hall) as [results Hg]. rewrite Hg.
  eexists. eexists. eexists. split; [reflexivity|].
  rewrite valid_nil, sort_by_id_perm.
  apply gather_Forall2 in Hg. clear Hall.
  induction Hg as [|ix r completed results Hr _ IH].
  - split; constructor.
  - split; intros H; inversion H; subst; constructor; try (now apply IH).
    + intros r'. rewrite Hr. now intros [= <-].
    + auto.
Qed.

Lemma multi_run_loop_returns prompts concurrency sessions :
  0 < concurrency -> prompts <> [] ->
  Forall (Forall (fun ix => exists r, submitted prompts ix = PyReturn r)) sessions ->
  forall a b c, exists a' b' c',
    multi_run_loop prompts concurrency sessions a b c
    = PyReturn (a ++ a', b ++ b', c ++ c') /\
    length a' = length sessions /\ length b' = length sessions /\
    (c' = [] <->
     Forall (Forall (fun ix => forall r, submitted prompts ix = PyReturn r ->
                                         truthy_ms (ttft_ms r) = false)) sessions).
Proof.
  intros Hc Hp. induction 1 as [|session rest Hs _ IH]; intros a b c.
  - exists [], [], []. simpl. rewrite !app_nil_r.
    split; [reflexivity|]. split; [reflexivity|]. split; [reflexivity|].
    split; [constructor|reflexivity].
  - destruct (benchmark_concurrent_returns _ _ _ Hc Hp Hs) as (x & y & ttfts & Hrun & Hnil).
    destruct (IH (a ++ [x]) (b ++ [y]) (c ++ ttfts)) as (a' & b' & c' & Hloop & Ha & Hb & Hc').
    exists (x :: a'), (y :: b'), (ttfts ++ c'). simpl. rewrite Hrun, Hloop.
    rewrite <- !app_assoc. simpl.
    split; [reflexivity|]. split; [now rewrite Ha|]. split; [now rewrite Hb|].
    split.
    + intros H. apply app_eq_nil in H as [H1 H2]. constructor; [now apply Hnil|now apply Hc'].
    + intros H. inversion H; subst.
      rewrite (proj2 Hnil), (proj2 Hc'); auto.
Qed.

(** X19: benchmark_multi_run needs one valid TTFT.  With a positive
    concurrency, some prompt, and every request of every run returning
    a result (a measurement or an RpcError), the summary is computed
    when some request of some run measured a TTFT other than zero; when
    none did, which includes every call failing and runs <= 0, the run
    loop completes and the summary then raises ZeroDivisionError. *)
Theorem multi_run_needs_a_valid_ttft prompts concurrency runs sessions :
  0 < concurrency -> prompts <> [] ->
  length sessions = Z.to_nat runs ->
  Forall (Forall (fun ix => exists r, submitted prompts ix = PyReturn r)) sessions ->
  (Exists (Exists (fun ix => exists r, submitted prompts ix = PyReturn r /\
                                       truthy_ms (ttft_ms r) = true)) sessions ->
   exists v, benchmark_multi_run prompts concurrency runs sessions = PyReturn v) /\
  (Forall (Forall (fun ix => forall r, submitted prompts ix = PyReturn r ->
                                       truthy_ms (ttft_ms r) = false)) sessions ->
   benchmark_multi_run prompts concurrency runs sessions = PyRaise ZeroDivisionError).
Proof.
  intros Hc Hp Hlen Hall. unfold benchmark_multi_run.
  rewrite <- Hlen, firstn_all.
  destruct (multi_run_loop_returns _ _ _ Hc Hp Hall [] [] [])
    as (a & b & c & -> & Ha & Hb & Hnil).
  simpl. split.
  - intros Hsome.
    assert (Hnonempty : c <> []).
    { intros Hcnil. apply Hnil in Hcnil.
      apply Exists_exists in Hsome as (session & Hin & Hsome).
      apply Exists_exists in Hsome as (ix & Hix & r & Hr & Hvalid).
      rewrite Forall_forall in Hcnil. specialize (Hcnil session Hin).
      rewrite Forall_forall in Hcnil.
      specialize (Hcnil ix Hix r Hr). congruence. }
    assert (Hruns : sessions <> []).
    { intros ->. inversion Hsome. }
    destruct sessions as [|s0 rest]; [contradiction|].
    destruct a as [|x a]; [simpl in Ha; discriminate|].
    destruct b as [|y b]; [simpl in Hb; discriminate|].
    destruct c as [|z c]; [contradiction|]. simpl. eexists. reflexivity.
  - intros Hnone. rewrite (proj2 Hnil Hnone).
    destruct a as [|x a]; [reflexivity|].
    destruct b as [|y b]; [simpl in Ha, Hb; lia|]. reflexivity.
Qed.

Lemma multi_run_needs_a_valid_ttft_witness :
  benchmark_multi_run ["What is Kubernetes?"] 1 1 [[(0, failed_exchange)]]
  = PyRaise ZeroDivisionError /\
  exists v, benchmark_multi_run ["What is Kubernetes?"] 1 1 [[(0, hello_exchange)]]
            = PyReturn v.
Proof.
  assert (Hc : 0 < 1) by lia.
  assert (Hp : ["What is Kubernetes?"] <> []) by discriminate.
  split.
  - refine (proj2 (multi_run_needs_a_valid_ttft ["What is Kubernetes?"] 1 1
                     [[(0, failed_exchange)]] Hc Hp eq_refl _) _).
    + repeat constructor. eexists. reflexivity.
    + repeat constructor. intros r Hr. cbv in Hr. injection Hr as <-. reflexivity.
  - refine (proj1 (multi_run_needs_a_valid_ttft ["What is Kubernetes?"] 1 1
                     [[(0, hello_exchange)]] Hc Hp eq_refl _) _).
    + repeat constructor. eexists. reflexivity.
    + repeat constructor. eexists. split; reflexivity.
Defined.
